(** * tp-movimiento: a model of [src/main.cpp]

    The sketch drives two servos (Y and Z) through three gestures (Scroll,
    Like, Dubious), either on a serial command or under a semi-Markov
    model (SMM) that picks the next gesture after a random dwell.

    This file embeds the sketch function by function and proves the
    properties of its control loop.

    Modelling conventions.
    - Global variables are the fields of [State], grouped as the source
      groups them.  Functions pass the state explicitly; a function that
      can read an array out of bounds or overflow a float-to-integer
      conversion (undefined behaviour in C++) returns [option State].
    - [unsigned long] is 32 bits wide and wraps; [int] holds the small
      servo angles and step numbers and is a [Z].
    - [float] is IEEE 754 binary32, computed with the Standard Library's
      executable specification [SpecFloat] at precision 24.
    - [millis()] reads the board clock.  The clock moves between two calls
      of [loop()] by an amount the environment chooses, and inside
      [loop()] only under [delay()].
    - [random()] reads the next value of the C library generator, an
      arbitrary sequence [rnd].
    - [Servo::write] appends to [servo_log]; [Serial] output carries no
      state and is left out; [Serial.read()] and [analogRead()] are the
      [Input] of one iteration. *)

From Stdlib Require Import ZArith List Bool Lia Ascii.
From Stdlib Require Import Floats.SpecFloat.
Import ListNotations.
Open Scope Z_scope.

(* ================================================================== *)
(** ** binary32 floats *)
(* ================================================================== *)

Module F32.

Definition prec : Z := 24.
Definition emax : Z := 128.

Definition float : Type := spec_float.

(** Conversion of an integer, rounding to nearest even. *)
Definition of_Z (z : Z) : float := binary_normalize prec emax z 0 false.

Definition add : float -> float -> float := SFadd prec emax.
Definition sub : float -> float -> float := SFsub prec emax.
Definition mul : float -> float -> float := SFmul prec emax.
Definition div : float -> float -> float := SFdiv prec emax.

(** [x < y] and [x <= y]; both are false when an operand is NaN. *)
Definition ltb : float -> float -> bool := SFltb.
Definition leb : float -> float -> bool := SFleb.

(** The value with its fraction dropped; nothing for NaN and infinities. *)
Definition trunc (f : float) : option Z :=
  match f with
  | S754_zero _ => Some 0
  | S754_finite s m e =>
      let a := if 0 <=? e then Zpos m * 2 ^ e else Zpos m / 2 ^ (- e) in
      Some (if s then - a else a)
  | S754_infinity _ | S754_nan => None
  end.

(** The literals of the sketch. *)
Definition zero : float := S754_zero false.
Definition one : float := Eval vm_compute in of_Z 1.
Definition c0_0001 : float := Eval vm_compute in div (of_Z 1) (of_Z 10000).
Definition c0_9999 : float := Eval vm_compute in div (of_Z 9999) (of_Z 10000).
Definition c0_1 : float := Eval vm_compute in div (of_Z 1) (of_Z 10).
Definition c1000 : float := Eval vm_compute in of_Z 1000.
Definition c32767 : float := Eval vm_compute in of_Z 32767.

End F32.

Abbreviation float := F32.float.

(* ================================================================== *)
(** ** C integers and arrays *)
(* ================================================================== *)

(** [unsigned long]: arithmetic modulo [2^32]. *)
Definition ULONG_MOD : Z := 2 ^ 32.
Definition ulong (z : Z) : Z := z mod ULONG_MOD.
Definition usub (a b : Z) : Z := ulong (a - b).
Definition uadd (a b : Z) : Z := ulong (a + b).

(** [int] is 16 bits on the AVR boards the sketch targets. *)
Definition INT_MIN : Z := -32768.
Definition INT_MAX : Z := 32767.

(** [(unsigned long) f] and [(int) f]: defined when the truncated value
    fits the target type. *)
Definition ulong_of_float (f : float) : option Z :=
  match F32.trunc f with
  | Some z => if (0 <=? z) && (z <? ULONG_MOD) then Some z else None
  | None => None
  end.

Definition int_of_float (f : float) : option Z :=
  match F32.trunc f with
  | Some z => if (INT_MIN <=? z) && (z <=? INT_MAX) then Some z else None
  | None => None
  end.

(** [a[i]]: nothing when [i] is outside the array. *)
Definition aget {A : Type} (a : list A) (i : Z) : option A :=
  if i <? 0 then None else nth_error a (Z.to_nat i).

(** [a[i] = v], applied only after [aget a i] succeeded. *)
Fixpoint lset {A : Type} (a : list A) (n : nat) (v : A) : list A :=
  match a, n with
  | [], _ => []
  | _ :: t, O => v :: t
  | h :: t, S n' => h :: lset t n' v
  end.

Definition aset {A : Type} (a : list A) (i : Z) (v : A) : list A :=
  lset a (Z.to_nat i) v.

(** Sequencing of steps that may fail. *)
Definition bind {A B : Type} (m : option A) (k : A -> option B) : option B :=
  match m with Some a => k a | None => None end.

Notation "x <- m ;; k" := (bind m (fun x => k))
  (at level 61, m at next level, right associativity).
Notation "' p <- m ;; k" := (bind m (fun x => let p := x in k))
  (at level 61, p pattern, m at next level, right associativity).

(* ================================================================== *)
(** ** The state of the sketch *)
(* ================================================================== *)

Inductive servo : Type := myservo_y | myservo_z.

(** One call of [Servo::write]. *)
Definition servo_write : Type := (servo * Z)%type.

(** Smoothing and change detection variables. *)
Record Pots : Type := MkPots {
  prev_angle_y : Z;
  prev_angle_z : Z;
  readings_y : list Z;
  readings_z : list Z;
  read_index : Z;
  total_y : Z;
  total_z : Z
}.

(** Movement function variables. *)
Record Moves : Type := MkMoves {
  scroll_active : bool;
  like_active : bool;
  dubious_active : bool;
  knobs_disabled : bool;
  scroll_step : Z;
  like_step : Z;
  dubious_step : Z;
  last_step_time : Z;
  dubious_wait_time : Z
}.

(** Smooth servo movement variables. *)
Record Smooth : Type := MkSmooth {
  current_y : Z;
  current_z : Z;
  target_y : Z;
  target_z : Z;
  start_y : Z;
  start_z : Z;
  step_start_time : Z;
  step_in_progress : bool
}.

(** Semi-Markov model state and statistics. *)
Record Smm : Type := MkSmm {
  simulation_start_time : Z;
  event_counter : Z;
  current_state : Z;
  total_dwell_time : float;
  use_like2_variant : bool;
  smm_mode_active : bool;
  smm_waiting : bool;
  smm_wait_start : Z;
  smm_wait_duration : Z;
  state_transitions : list Z;
  total_dwell_by_state : list float
}.

(** The board: clock, random generator, servo outputs. *)
Record Board : Type := MkBoard {
  clock : Z;
  rand_calls : nat;
  servo_log : list servo_write;
  last_debug : Z
}.

Record State : Type := MkState {
  pots :> Pots;
  moves :> Moves;
  smooth :> Smooth;
  smm :> Smm;
  board :> Board
}.

Definition set_prev_angle_y (v : Z) (s : State) : State :=
  {| pots := {| prev_angle_y := v; prev_angle_z := prev_angle_z s; readings_y := readings_y s; readings_z := readings_z s; read_index := read_index s; total_y := total_y s; total_z := total_z s |};
     moves := moves s;
     smooth := smooth s;
     smm := smm s;
     board := board s |}.

Definition set_prev_angle_z (v : Z) (s : State) : State :=
  {| pots := {| prev_angle_y := prev_angle_y s; prev_angle_z := v; readings_y := readings_y s; readings_z := readings_z s; read_index := read_index s; total_y := total_y s; total_z := total_z s |};
     moves := moves s;
     smooth := smooth s;
     smm := smm s;
     board := board s |}.

Definition set_readings_y (v : list Z) (s : State) : State :=
  {| pots := {| prev_angle_y := prev_angle_y s; prev_angle_z := prev_angle_z s; readings_y := v; readings_z := readings_z s; read_index := read_index s; total_y := total_y s; total_z := total_z s |};
     moves := moves s;
     smooth := smooth s;
     smm := smm s;
     board := board s |}.

Definition set_readings_z (v : list Z) (s : State) : State :=
  {| pots := {| prev_angle_y := prev_angle_y s; prev_angle_z := prev_angle_z s; readings_y := readings_y s; readings_z := v; read_index := read_index s; total_y := total_y s; total_z := total_z s |};
     moves := moves s;
     smooth := smooth s;
     smm := smm s;
     board := board s |}.

Definition set_read_index (v : Z) (s : State) : State :=
  {| pots := {| prev_angle_y := prev_angle_y s; prev_angle_z := prev_angle_z s; readings_y := readings_y s; readings_z := readings_z s; read_index := v; total_y := total_y s; total_z := total_z s |};
     moves := moves s;
     smooth := smooth s;
     smm := smm s;
     board := board s |}.

Definition set_total_y (v : Z) (s : State) : State :=
  {| pots := {| prev_angle_y := prev_angle_y s; prev_angle_z := prev_angle_z s; readings_y := readings_y s; readings_z := readings_z s; read_index := read_index s; total_y := v; total_z := total_z s |};
     moves := moves s;
     smooth := smooth s;
     smm := smm s;
     board := board s |}.

Definition set_total_z (v : Z) (s : State) : State :=
  {| pots := {| prev_angle_y := prev_angle_y s; prev_angle_z := prev_angle_z s; readings_y := readings_y s; readings_z := readings_z s; read_index := read_index s; total_y := total_y s; total_z := v |};
     moves := moves s;
     smooth := smooth s;
     smm := smm s;
     board := board s |}.

Definition set_scroll_active (v : bool) (s : State) : State :=
  {| pots := pots s;
     moves := {| scroll_active := v; like_active := like_active s; dubious_active := dubious_active s; knobs_disabled := knobs_disabled s; scroll_step := scroll_step s; like_step := like_step s; dubious_step := dubious_step s; last_step_time := last_step_time s; dubious_wait_time := dubious_wait_time s |};
     smooth := smooth s;
     smm := smm s;
     board := board s |}.

Definition set_like_active (v : bool) (s : State) : State :=
  {| pots := pots s;
     moves := {| scroll_active := scroll_active s; like_active := v; dubious_active := dubious_active s; knobs_disabled := knobs_disabled s; scroll_step := scroll_step s; like_step := like_step s; dubious_step := dubious_step s; last_step_time := last_step_time s; dubious_wait_time := dubious_wait_time s |};
     smooth := smooth s;
     smm := smm s;
     board := board s |}.

Definition set_dubious_active (v : bool) (s : State) : State :=
  {| pots := pots s;
     moves := {| scroll_active := scroll_active s; like_active := like_active s; dubious_active := v; knobs_disabled := knobs_disabled s; scroll_step := scroll_step s; like_step := like_step s; dubious_step := dubious_step s; last_step_time := last_step_time s; dubious_wait_time := dubious_wait_time s |};
     smooth := smooth s;
     smm := smm s;
     board := board s |}.

Definition set_knobs_disabled (v : bool) (s : State) : State :=
  {| pots := pots s;
     moves := {| scroll_active := scroll_active s; like_active := like_active s; dubious_active := dubious_active s; knobs_disabled := v; scroll_step := scroll_step s; like_step := like_step s; dubious_step := dubious_step s; last_step_time := last_step_time s; dubious_wait_time := dubious_wait_time s |};
     smooth := smooth s;
     smm := smm s;
     board := board s |}.

Definition set_scroll_step (v : Z) (s : State) : State :=
  {| pots := pots s;
     moves := {| scroll_active := scroll_active s; like_active := like_active s; dubious_active := dubious_active s; knobs_disabled := knobs_disabled s; scroll_step := v; like_step := like_step s; dubious_step := dubious_step s; last_step_time := last_step_time s; dubious_wait_time := dubious_wait_time s |};
     smooth := smooth s;
     smm := smm s;
     board := board s |}.

Definition set_like_step (v : Z) (s : State) : State :=
  {| pots := pots s;
     moves := {| scroll_active := scroll_active s; like_active := like_active s; dubious_active := dubious_active s; knobs_disabled := knobs_disabled s; scroll_step := scroll_step s; like_step := v; dubious_step := dubious_step s; last_step_time := last_step_time s; dubious_wait_time := dubious_wait_time s |};
     smooth := smooth s;
     smm := smm s;
     board := board s |}.

Definition set_dubious_step (v : Z) (s : State) : State :=
  {| pots := pots s;
     moves := {| scroll_active := scroll_active s; like_active := like_active s; dubious_active := dubious_active s; knobs_disabled := knobs_disabled s; scroll_step := scroll_step s; like_step := like_step s; dubious_step := v; last_step_time := last_step_time s; dubious_wait_time := dubious_wait_time s |};
     smooth := smooth s;
     smm := smm s;
     board := board s |}.

Definition set_last_step_time (v : Z) (s : State) : State :=
  {| pots := pots s;
     moves := {| scroll_active := scroll_active s; like_active := like_active s; dubious_active := dubious_active s; knobs_disabled := knobs_disabled s; scroll_step := scroll_step s; like_step := like_step s; dubious_step := dubious_step s; last_step_time := v; dubious_wait_time := dubious_wait_time s |};
     smooth := smooth s;
     smm := smm s;
     board := board s |}.

Definition set_dubious_wait_time (v : Z) (s : State) : State :=
  {| pots := pots s;
     moves := {| scroll_active := scroll_active s; like_active := like_active s; dubious_active := dubious_active s; knobs_disabled := knobs_disabled s; scroll_step := scroll_step s; like_step := like_step s; dubious_step := dubious_step s; last_step_time := last_step_time s; dubious_wait_time := v |};
     smooth := smooth s;
     smm := smm s;
     board := board s |}.

Definition set_current_y (v : Z) (s : State) : State :=
  {| pots := pots s;
     moves := moves s;
     smooth := {| current_y := v; current_z := current_z s; target_y := target_y s; target_z := target_z s; start_y := start_y s; start_z := start_z s; step_start_time := step_start_time s; step_in_progress := step_in_progress s |};
     smm := smm s;
     board := board s |}.

Definition set_current_z (v : Z) (s : State) : State :=
  {| pots := pots s;
     moves := moves s;
     smooth := {| current_y := current_y s; current_z := v; target_y := target_y s; target_z := target_z s; start_y := start_y s; start_z := start_z s; step_start_time := step_start_time s; step_in_progress := step_in_progress s |};
     smm := smm s;
     board := board s |}.

Definition set_target_y (v : Z) (s : State) : State :=
  {| pots := pots s;
     moves := moves s;
     smooth := {| current_y := current_y s; current_z := current_z s; target_y := v; target_z := target_z s; start_y := start_y s; start_z := start_z s; step_start_time := step_start_time s; step_in_progress := step_in_progress s |};
     smm := smm s;
     board := board s |}.

Definition set_target_z (v : Z) (s : State) : State :=
  {| pots := pots s;
     moves := moves s;
     smooth := {| current_y := current_y s; current_z := current_z s; target_y := target_y s; target_z := v; start_y := start_y s; start_z := start_z s; step_start_time := step_start_time s; step_in_progress := step_in_progress s |};
     smm := smm s;
     board := board s |}.

Definition set_start_y (v : Z) (s : State) : State :=
  {| pots := pots s;
     moves := moves s;
     smooth := {| current_y := current_y s; current_z := current_z s; target_y := target_y s; target_z := target_z s; start_y := v; start_z := start_z s; step_start_time := step_start_time s; step_in_progress := step_in_progress s |};
     smm := smm s;
     board := board s |}.

Definition set_start_z (v : Z) (s : State) : State :=
  {| pots := pots s;
     moves := moves s;
     smooth := {| current_y := current_y s; current_z := current_z s; target_y := target_y s; target_z := target_z s; start_y := start_y s; start_z := v; step_start_time := step_start_time s; step_in_progress := step_in_progress s |};
     smm := smm s;
     board := board s |}.

Definition set_step_start_time (v : Z) (s : State) : State :=
  {| pots := pots s;
     moves := moves s;
     smooth := {| current_y := current_y s; current_z := current_z s; target_y := target_y s; target_z := target_z s; start_y := start_y s; start_z := start_z s; step_start_time := v; step_in_progress := step_in_progress s |};
     smm := smm s;
     board := board s |}.

Definition set_step_in_progress (v : bool) (s : State) : State :=
  {| pots := pots s;
     moves := moves s;
     smooth := {| current_y := current_y s; current_z := current_z s; target_y := target_y s; target_z := target_z s; start_y := start_y s; start_z := start_z s; step_start_time := step_start_time s; step_in_progress := v |};
     smm := smm s;
     board := board s |}.

Definition set_simulation_start_time (v : Z) (s : State) : State :=
  {| pots := pots s;
     moves := moves s;
     smooth := smooth s;
     smm := {| simulation_start_time := v; event_counter := event_counter s; current_state := current_state s; total_dwell_time := total_dwell_time s; use_like2_variant := use_like2_variant s; smm_mode_active := smm_mode_active s; smm_waiting := smm_waiting s; smm_wait_start := smm_wait_start s; smm_wait_duration := smm_wait_duration s; state_transitions := state_transitions s; total_dwell_by_state := total_dwell_by_state s |};
     board := board s |}.

Definition set_event_counter (v : Z) (s : State) : State :=
  {| pots := pots s;
     moves := moves s;
     smooth := smooth s;
     smm := {| simulation_start_time := simulation_start_time s; event_counter := v; current_state := current_state s; total_dwell_time := total_dwell_time s; use_like2_variant := use_like2_variant s; smm_mode_active := smm_mode_active s; smm_waiting := smm_waiting s; smm_wait_start := smm_wait_start s; smm_wait_duration := smm_wait_duration s; state_transitions := state_transitions s; total_dwell_by_state := total_dwell_by_state s |};
     board := board s |}.

Definition set_current_state (v : Z) (s : State) : State :=
  {| pots := pots s;
     moves := moves s;
     smooth := smooth s;
     smm := {| simulation_start_time := simulation_start_time s; event_counter := event_counter s; current_state := v; total_dwell_time := total_dwell_time s; use_like2_variant := use_like2_variant s; smm_mode_active := smm_mode_active s; smm_waiting := smm_waiting s; smm_wait_start := smm_wait_start s; smm_wait_duration := smm_wait_duration s; state_transitions := state_transitions s; total_dwell_by_state := total_dwell_by_state s |};
     board := board s |}.

Definition set_total_dwell_time (v : float) (s : State) : State :=
  {| pots := pots s;
     moves := moves s;
     smooth := smooth s;
     smm := {| simulation_start_time := simulation_start_time s; event_counter := event_counter s; current_state := current_state s; total_dwell_time := v; use_like2_variant := use_like2_variant s; smm_mode_active := smm_mode_active s; smm_waiting := smm_waiting s; smm_wait_start := smm_wait_start s; smm_wait_duration := smm_wait_duration s; state_transitions := state_transitions s; total_dwell_by_state := total_dwell_by_state s |};
     board := board s |}.

Definition set_use_like2_variant (v : bool) (s : State) : State :=
  {| pots := pots s;
     moves := moves s;
     smooth := smooth s;
     smm := {| simulation_start_time := simulation_start_time s; event_counter := event_counter s; current_state := current_state s; total_dwell_time := total_dwell_time s; use_like2_variant := v; smm_mode_active := smm_mode_active s; smm_waiting := smm_waiting s; smm_wait_start := smm_wait_start s; smm_wait_duration := smm_wait_duration s; state_transitions := state_transitions s; total_dwell_by_state := total_dwell_by_state s |};
     board := board s |}.

Definition set_smm_mode_active (v : bool) (s : State) : State :=
  {| pots := pots s;
     moves := moves s;
     smooth := smooth s;
     smm := {| simulation_start_time := simulation_start_time s; event_counter := event_counter s; current_state := current_state s; total_dwell_time := total_dwell_time s; use_like2_variant := use_like2_variant s; smm_mode_active := v; smm_waiting := smm_waiting s; smm_wait_start := smm_wait_start s; smm_wait_duration := smm_wait_duration s; state_transitions := state_transitions s; total_dwell_by_state := total_dwell_by_state s |};
     board := board s |}.

Definition set_smm_waiting (v : bool) (s : State) : State :=
  {| pots := pots s;
     moves := moves s;
     smooth := smooth s;
     smm := {| simulation_start_time := simulation_start_time s; event_counter := event_counter s; current_state := current_state s; total_dwell_time := total_dwell_time s; use_like2_variant := use_like2_variant s; smm_mode_active := smm_mode_active s; smm_waiting := v; smm_wait_start := smm_wait_start s; smm_wait_duration := smm_wait_duration s; state_transitions := state_transitions s; total_dwell_by_state := total_dwell_by_state s |};
     board := board s |}.

Definition set_smm_wait_start (v : Z) (s : State) : State :=
  {| pots := pots s;
     moves := moves s;
     smooth := smooth s;
     smm := {| simulation_start_time := simulation_start_time s; event_counter := event_counter s; current_state := current_state s; total_dwell_time := total_dwell_time s; use_like2_variant := use_like2_variant s; smm_mode_active := smm_mode_active s; smm_waiting := smm_waiting s; smm_wait_start := v; smm_wait_duration := smm_wait_duration s; state_transitions := state_transitions s; total_dwell_by_state := total_dwell_by_state s |};
     board := board s |}.

Definition set_smm_wait_duration (v : Z) (s : State) : State :=
  {| pots := pots s;
     moves := moves s;
     smooth := smooth s;
     smm := {| simulation_start_time := simulation_start_time s; event_counter := event_counter s; current_state := current_state s; total_dwell_time := total_dwell_time s; use_like2_variant := use_like2_variant s; smm_mode_active := smm_mode_active s; smm_waiting := smm_waiting s; smm_wait_start := smm_wait_start s; smm_wait_duration := v; state_transitions := state_transitions s; total_dwell_by_state := total_dwell_by_state s |};
     board := board s |}.

Definition set_state_transitions (v : list Z) (s : State) : State :=
  {| pots := pots s;
     moves := moves s;
     smooth := smooth s;
     smm := {| simulation_start_time := simulation_start_time s; event_counter := event_counter s; current_state := current_state s; total_dwell_time := total_dwell_time s; use_like2_variant := use_like2_variant s; smm_mode_active := smm_mode_active s; smm_waiting := smm_waiting s; smm_wait_start := smm_wait_start s; smm_wait_duration := smm_wait_duration s; state_transitions := v; total_dwell_by_state := total_dwell_by_state s |};
     board := board s |}.

Definition set_total_dwell_by_state (v : list float) (s : State) : State :=
  {| pots := pots s;
     moves := moves s;
     smooth := smooth s;
     smm := {| simulation_start_time := simulation_start_time s; event_counter := event_counter s; current_state := current_state s; total_dwell_time := total_dwell_time s; use_like2_variant := use_like2_variant s; smm_mode_active := smm_mode_active s; smm_waiting := smm_waiting s; smm_wait_start := smm_wait_start s; smm_wait_duration := smm_wait_duration s; state_transitions := state_transitions s; total_dwell_by_state := v |};
     board := board s |}.

Definition set_clock (v : Z) (s : State) : State :=
  {| pots := pots s;
     moves := moves s;
     smooth := smooth s;
     smm := smm s;
     board := {| clock := v; rand_calls := rand_calls s; servo_log := servo_log s; last_debug := last_debug s |} |}.

Definition set_rand_calls (v : nat) (s : State) : State :=
  {| pots := pots s;
     moves := moves s;
     smooth := smooth s;
     smm := smm s;
     board := {| clock := clock s; rand_calls := v; servo_log := servo_log s; last_debug := last_debug s |} |}.

Definition set_servo_log (v : list servo_write) (s : State) : State :=
  {| pots := pots s;
     moves := moves s;
     smooth := smooth s;
     smm := smm s;
     board := {| clock := clock s; rand_calls := rand_calls s; servo_log := v; last_debug := last_debug s |} |}.

Definition set_last_debug (v : Z) (s : State) : State :=
  {| pots := pots s;
     moves := moves s;
     smooth := smooth s;
     smm := smm s;
     board := {| clock := clock s; rand_calls := rand_calls s; servo_log := servo_log s; last_debug := v |} |}.

(** What one call of [loop()] reads from outside: the time gone since the
    previous call returned, the character waiting on the serial line if
    any, and the two potentiometers. *)
Record Input : Type := MkInput {
  since_last : Z;
  serial : option ascii;
  pot_y : Z;
  pot_z : Z
}.

(** The tables of [smm_parameters.h], one entry per state.  The header is
    not among the sources; the sketch is modelled for any tables. *)
Record smm_parameters : Type := MkParams {
  DWELL_RATE_BY_STATE : list float;
  MEAN_DWELL_BY_STATE : list float;
  CUM_PROB_SCROLL_BY_STATE : list float;
  CUM_PROB_LIKE_BY_STATE : list float
}.

(* ================================================================== *)
(** ** Constants *)
(* ================================================================== *)

Definition num_readings : Z := 5.
Definition scroll_step_delays : list Z := [200; 300; 300; 0; 200].
Definition like_step_delay : Z := 100.
Definition dubious_step_delay : Z := 200.
Definition dubious_wait_min : Z := 500.
Definition dubious_wait_max : Z := 2000.

Definition STATE_AFTER_SCROLL : Z := 0.
Definition STATE_AFTER_LIKE : Z := 1.
Definition STATE_AFTER_DUBIOUS : Z := 2.

Definition ACTION_SCROLL : Z := 0.
Definition ACTION_LIKE : Z := 1.
Definition ACTION_DUBIOUS_SCROLL : Z := 2.

Definition MAX_DWELL_TIME : float := Eval vm_compute in F32.of_Z 30.

(* ================================================================== *)
(** ** Board primitives *)
(* ================================================================== *)

Definition millis (s : State) : Z := clock s.

Definition delay (ms : Z) (s : State) : State :=
  set_clock (uadd (clock s) ms) s.

Definition write (sv : servo) (angle : Z) (s : State) : State :=
  set_servo_log (servo_log s ++ [(sv, angle)]) s.

(** Arduino's [map()], in [long] arithmetic. *)
Definition map_range (x in_min in_max out_min out_max : Z) : Z :=
  Z.quot ((x - in_min) * (out_max - out_min)) (in_max - in_min) + out_min.

(* ================================================================== *)
(** ** The functions of the sketch *)
(* ================================================================== *)

Section Sketch.

(** [rnd n] is what the [n]-th call of the C library's [random()]
    returns. *)
Variable rnd : nat -> N.

(** The tables of [smm_parameters.h]. *)
Variable P : smm_parameters.

(** Arduino's [random(howsmall, howbig)]. *)
Definition random (howsmall howbig : Z) (s : State) : Z * State :=
  if howbig <=? howsmall then (howsmall, s)
  else
    let diff := howbig - howsmall in
    let r := Z.of_N (rnd (rand_calls s)) in
    (Z.rem r diff + howsmall, set_rand_calls (S (rand_calls s)) s).

(** The [duration_ms] argument is not used by the body. *)
Definition smoothMoveServos
    (new_target_y new_target_z duration_ms : Z) (s : State) : State :=
  let s := set_start_y (current_y s) s in
  let s := set_start_z (current_z s) s in
  let s := set_target_y new_target_y s in
  let s := set_target_z new_target_z s in
  let s := set_step_start_time (millis s) s in
  set_step_in_progress true s.

Definition updateServoPositions (s : State) : option State :=
  if negb (step_in_progress s) then Some s
  else
    let current_time := millis s in
    let elapsed := usub current_time (step_start_time s) in
    if 5 <=? scroll_step s then Some (set_step_in_progress false s)
    else
      duration <- aget scroll_step_delays (scroll_step s) ;;
      if duration <=? elapsed then
        let s := set_current_y (target_y s) s in
        let s := set_current_z (target_z s) s in
        let s := write myservo_y (current_y s) s in
        let s := write myservo_z (current_z s) s in
        Some (set_step_in_progress false s)
      else
        let progress := F32.div (F32.of_Z elapsed) (F32.of_Z duration) in
        dy <- int_of_float
                (F32.mul (F32.of_Z (target_y s - start_y s)) progress) ;;
        let s := set_current_y (start_y s + dy) s in
        dz <- int_of_float
                (F32.mul (F32.of_Z (target_z s - start_z s)) progress) ;;
        let s := set_current_z (start_z s + dz) s in
        let s := write myservo_y (current_y s) s in
        let s := write myservo_z (current_z s) s in
        Some s.

Definition random_uniform (s : State) : float * State :=
  let (r, s) := random 0 32768 s in
  (F32.div (F32.of_Z r) F32.c32767, s).

(** The body of [sample_exponential] after its draw [u]. *)
Definition sample_exponential_of (u rate : float) : float :=
  let u := if F32.leb u F32.c0_0001 then F32.c0_0001 else u in
  let sample :=
    if F32.ltb F32.c0_9999 u then F32.c0_1
    else F32.div (F32.sub F32.one u) rate in
  let sample :=
    if F32.ltb MAX_DWELL_TIME sample then MAX_DWELL_TIME else sample in
  let sample := if F32.ltb sample F32.c0_1 then F32.c0_1 else sample in
  sample.

Definition sample_exponential (rate : float) (s : State) : float * State :=
  let (u, s) := random_uniform s in
  (sample_exponential_of u rate, s).

Definition select_next_action (state : Z) (s : State) : option (Z * State) :=
  let (r, s) := random_uniform s in
  p_scroll <- aget (CUM_PROB_SCROLL_BY_STATE P) state ;;
  if F32.ltb r p_scroll then Some (ACTION_SCROLL, s)
  else
    p_like <- aget (CUM_PROB_LIKE_BY_STATE P) state ;;
    if F32.ltb r p_like then Some (ACTION_LIKE, s)
    else Some (ACTION_DUBIOUS_SCROLL, s).

Definition execute_smm_action (action_code : Z) (s : State) : option State :=
  let s := set_event_counter (uadd (event_counter s) 1) s in
  (* Update statistics *)
  n <- aget (state_transitions s) (current_state s) ;;
  let s := set_state_transitions
             (aset (state_transitions s) (current_state s) (uadd n 1)) s in
  if action_code =? ACTION_SCROLL then
    let s := set_scroll_active true s in
    let s := set_scroll_step 0 s in
    let s := set_knobs_disabled true s in
    Some (set_current_state STATE_AFTER_SCROLL s)
  else if action_code =? ACTION_LIKE then
    (* Randomly choose between executeLike and executeLike2 *)
    let (r, s) := random 0 2 s in
    let s := set_use_like2_variant (r =? 1) s in
    let s := set_like_active true s in
    let s := set_like_step 0 s in
    let s := set_last_step_time (millis s) s in
    let s := set_knobs_disabled true s in
    Some (set_current_state STATE_AFTER_LIKE s)
  else if action_code =? ACTION_DUBIOUS_SCROLL then
    let s := set_dubious_active true s in
    let s := set_dubious_step 0 s in
    let s := set_dubious_wait_time 0 s in
    let s := set_last_step_time (millis s) s in
    let s := set_knobs_disabled true s in
    Some (set_current_state STATE_AFTER_DUBIOUS s)
  else Some s.

(** [scroll_step++] after the [switch]. *)
Definition scroll_next (s : State) : State :=
  set_scroll_step (scroll_step s + 1) s.

Definition executeScroll (s : State) : option State :=
  s <- updateServoPositions s ;;
  (* Only start new step if previous movement is complete *)
  if negb (step_in_progress s) then
    match scroll_step s with
    | 0 =>
        d <- aget scroll_step_delays (scroll_step s) ;;
        Some (scroll_next (smoothMoveServos 142 142 d s))
    | 1 =>
        d <- aget scroll_step_delays (scroll_step s) ;;
        Some (scroll_next (smoothMoveServos 110 142 d s))
    | 2 =>
        d <- aget scroll_step_delays (scroll_step s) ;;
        Some (scroll_next (smoothMoveServos 90 100 d s))
    | 3 =>
        d <- aget scroll_step_delays (scroll_step s) ;;
        Some (scroll_next (smoothMoveServos 147 100 d s))
    | 4 =>
        let s := set_scroll_active false s in
        Some (set_scroll_step 0 s)
    | _ => Some (scroll_next s)
    end
  else Some s.

(** [like_step++; last_step_time = current_time;] after the [switch]. *)
Definition like_next (current_time : Z) (s : State) : State :=
  let s := set_like_step (like_step s + 1) s in
  set_last_step_time current_time s.

Definition executeLike (s : State) : State :=
  let current_time := millis s in
  if like_step_delay <=? usub current_time (last_step_time s) then
    match like_step s with
    | 0 =>
        let s := write myservo_y 140 s in
        let s := write myservo_z 120 s in
        like_next current_time s
    | 1 =>
        let s := write myservo_y 120 s in
        let s := delay 100 s in
        like_next current_time s
    | 2 =>
        let s := write myservo_y 140 s in
        like_next current_time s
    | 3 =>
        let s := write myservo_y 120 s in
        let s := delay 100 s in
        like_next current_time s
    | 4 =>
        let s := write myservo_y 140 s in
        let s := set_like_active false s in
        let s := set_knobs_disabled true s in
        set_like_step 0 s
    | _ => like_next current_time s
    end
  else s.

Definition executeLike2 (s : State) : State :=
  let current_time := millis s in
  if like_step_delay <=? usub current_time (last_step_time s) then
    match like_step s with
    | 0 =>
        let s := write myservo_y 152 s in
        let s := write myservo_z 110 s in
        like_next current_time s
    | 1 =>
        let s := write myservo_y 120 s in
        let s := write myservo_z 110 s in
        let s := delay 250 s in
        like_next current_time s
    | 2 =>
        let s := write myservo_y 152 s in
        let s := write myservo_z 110 s in
        let s := set_like_active false s in
        let s := set_knobs_disabled true s in
        set_like_step 0 s
    | _ => like_next current_time s
    end
  else s.

(** [dubious_step++; last_step_time = current_time;] after the [switch]. *)
Definition dubious_next (current_time : Z) (s : State) : State :=
  let s := set_dubious_step (dubious_step s + 1) s in
  set_last_step_time current_time s.

(** Steps 3 and 5: arm a random wait, or test the armed one. *)
Definition dubious_wait (current_time : Z) (s : State) : State :=
  if dubious_wait_time s =? 0 then
    let (r, s) := random dubious_wait_min (dubious_wait_max + 1) s in
    let s := set_dubious_wait_time (ulong r) s in
    set_last_step_time current_time s
  else if dubious_wait_time s <=? usub current_time (last_step_time s) then
    let s := set_dubious_wait_time 0 s in
    dubious_next current_time s
  else s.

Definition executeDubious (s : State) : State :=
  let current_time := millis s in
  if dubious_step_delay <=? usub current_time (last_step_time s) then
    match dubious_step s with
    | 0 =>
        let s := write myservo_y 145 s in
        let s := write myservo_z 122 s in
        dubious_next current_time s
    | 1 =>
        let s := write myservo_y 125 s in
        let s := write myservo_z 122 s in
        dubious_next current_time s
    | 2 =>
        let s := write myservo_y 122 s in
        let s := write myservo_z 106 s in
        dubious_next current_time s
    | 3 => dubious_wait current_time s
    | 4 =>
        let s := write myservo_y 122 s in
        let s := write myservo_z 134 s in
        dubious_next current_time s
    | 5 => dubious_wait current_time s
    | 6 =>
        let s := write myservo_y 122 s in
        let s := write myservo_z 106 s in
        dubious_next current_time s
    | 7 =>
        let s := write myservo_y 145 s in
        let s := write myservo_z 122 s in
        let s := set_dubious_active false s in
        let s := set_knobs_disabled true s in
        set_dubious_step 0 s
    | _ => dubious_next current_time s
    end
  else s.

(** The values of the globals before [setup()] runs. *)
Definition boot : State :=
  {| pots := {| prev_angle_y := -1; prev_angle_z := -1;
                readings_y := [0; 0; 0; 0; 0]; readings_z := [0; 0; 0; 0; 0];
                read_index := 0; total_y := 0; total_z := 0 |};
     moves := {| scroll_active := false; like_active := false;
                 dubious_active := false; knobs_disabled := false;
                 scroll_step := 0; like_step := 0; dubious_step := 0;
                 last_step_time := 0; dubious_wait_time := 0 |};
     smooth := {| current_y := 180; current_z := 0;
                  target_y := 180; target_z := 0;
                  start_y := 180; start_z := 0;
                  step_start_time := 0; step_in_progress := false |};
     smm := {| simulation_start_time := 0; event_counter := 0;
               current_state := STATE_AFTER_SCROLL;
               total_dwell_time := F32.zero;
               use_like2_variant := false; smm_mode_active := false;
               smm_waiting := false;
               smm_wait_start := 0; smm_wait_duration := 0;
               state_transitions := [0; 0; 0];
               total_dwell_by_state := [F32.zero; F32.zero; F32.zero] |};
     board := {| clock := 0; rand_calls := 0; servo_log := [];
                 last_debug := 0 |} |}.

(** [setup()], reading the two potentiometers once.  [randomSeed] picks
    the sequence [rnd]. *)
Definition setup (initial_pot_y initial_pot_z : Z) (s : State) : State :=
  let s := delay 2000 s in
  let s := write myservo_y 180 s in
  let s := write myservo_z 0 s in
  let s := set_readings_y (repeat initial_pot_y (Z.to_nat num_readings)) s in
  let s := set_readings_z (repeat initial_pot_z (Z.to_nat num_readings)) s in
  let s := set_total_y (initial_pot_y * num_readings) s in
  let s := set_total_z (initial_pot_z * num_readings) s in
  let s := set_prev_angle_y (map_range initial_pot_y 0 1023 0 180) s in
  let s := set_prev_angle_z (map_range initial_pot_z 0 1023 0 180) s in
  set_simulation_start_time (millis s) s.

(** No gesture is running. *)
Definition idle (s : State) : bool :=
  negb (scroll_active s) && negb (like_active s) && negb (dubious_active s).

(** [loop()], lines 593-665: the command read from the serial line. *)
Definition serial_command (input : ascii) (s : State) : State :=
  if (input =? "s")%char || (input =? "S")%char then
    if idle s then
      let s := set_scroll_active true s in
      let s := set_knobs_disabled true s in
      let s := set_scroll_step 0 s in
      set_last_step_time (millis s) s
    else s
  else if (input =? "l")%char || (input =? "L")%char then
    if idle s then
      let s := set_like_active true s in
      let s := set_knobs_disabled true s in
      let s := set_like_step 0 s in
      set_last_step_time (millis s) s
    else s
  else if (input =? "d")%char || (input =? "D")%char then
    if idle s then
      let s := set_dubious_active true s in
      let s := set_knobs_disabled true s in
      let s := set_dubious_step 0 s in
      let s := set_dubious_wait_time 0 s in
      set_last_step_time (millis s) s
    else s
  else if (input =? "m")%char || (input =? "M")%char then
    let s := set_smm_mode_active (negb (smm_mode_active s)) s in
    if smm_mode_active s then
      let s := set_simulation_start_time (millis s) s in
      set_knobs_disabled true s
    else set_knobs_disabled false s
  else if (input =? "r")%char || (input =? "R")%char then
    let s := set_knobs_disabled false s in
    let s := set_smm_mode_active false s in
    let s := set_scroll_active false s in
    let s := set_like_active false s in
    set_dubious_active false s
  else s.

(** [loop()], lines 690-744: the potentiometers drive the servos. *)
Definition potentiometer_control (i : Input) (s : State) : option State :=
  old_y <- aget (readings_y s) (read_index s) ;;
  let s := set_total_y (total_y s - old_y) s in
  old_z <- aget (readings_z s) (read_index s) ;;
  let s := set_total_z (total_z s - old_z) s in
  let s := set_readings_y (aset (readings_y s) (read_index s) (pot_y i)) s in
  let s := set_readings_z (aset (readings_z s) (read_index s) (pot_z i)) s in
  let s := set_total_y (total_y s + pot_y i) s in
  let s := set_total_z (total_z s + pot_z i) s in
  let s := set_read_index (read_index s + 1) s in
  let s := if num_readings <=? read_index s then set_read_index 0 s else s in
  let avg_y := Z.quot (total_y s) num_readings in
  let avg_z := Z.quot (total_z s) num_readings in
  let angle_y := map_range avg_y 0 1023 0 180 in
  let angle_z := map_range avg_z 0 1023 0 180 in
  let s :=
    if angle_y =? prev_angle_y s then s
    else set_prev_angle_y angle_y (write myservo_y angle_y s) in
  let s :=
    if angle_z =? prev_angle_z s then s
    else set_prev_angle_z angle_z (write myservo_z angle_z s) in
  Some (delay 15 s).

(** [loop()], lines 753-803: one move of the semi-Markov model, behind
    the guard of line 751. *)
Definition smm_execution (s : State) : option State :=
  if negb (smm_waiting s) then
    dwell_rate <- aget (DWELL_RATE_BY_STATE P) (current_state s) ;;
    mean_dwell <- aget (MEAN_DWELL_BY_STATE P) (current_state s) ;;
    let (dwell_time, s) := sample_exponential dwell_rate s in
    let s := set_total_dwell_time (F32.add (total_dwell_time s) dwell_time) s in
    d <- aget (total_dwell_by_state s) (current_state s) ;;
    let s := set_total_dwell_by_state
               (aset (total_dwell_by_state s) (current_state s)
                     (F32.add d dwell_time)) s in
    let s := set_smm_wait_start (millis s) s in
    ms <- ulong_of_float (F32.mul dwell_time F32.c1000) ;;
    let s := set_smm_wait_duration ms s in
    Some (set_smm_waiting true s)
  else if smm_wait_duration s <=? usub (millis s) (smm_wait_start s) then
    let s := set_smm_waiting false s in
    ' (action, s) <- select_next_action (current_state s) s ;;
    execute_smm_action action s
  else Some s.

(** The guard of line 751. *)
Definition smm_guard (s : State) : bool :=
  smm_mode_active s && negb (scroll_active s) && negb (like_active s)
  && negb (dubious_active s) && knobs_disabled s.

(** [loop()], lines 576-665: the heartbeat, then the serial line. *)
Definition poll_serial (i : Input) (s : State) : State :=
  let s :=
    if 5000 <? usub (millis s) (last_debug s)
    then set_last_debug (millis s) s else s in
  match serial i with
  | Some input => serial_command input s
  | None => s
  end.

Definition loop (i : Input) (s : State) : option State :=
  let s := poll_serial i s in
  if scroll_active s then executeScroll s
  else if like_active s then Some (executeLike s)
  else if dubious_active s then Some (executeDubious s)
  else
    s <- (if negb (knobs_disabled s) then potentiometer_control i s
          else Some s) ;;
    if smm_guard s then smm_execution s else Some s.

(** One call of [loop()] by the Arduino runtime, [since_last i]
    milliseconds after the previous one returned. *)
Definition iteration (i : Input) (s : State) : option State :=
  loop i (delay (since_last i) s).

Fixpoint run (inputs : list Input) (s : State) : option State :=
  match inputs with
  | [] => Some s
  | i :: rest => s' <- iteration i s ;; run rest s'
  end.

(** The states the sketch can be in between two calls of [loop()]. *)
Inductive reachable : State -> Prop :=
| reach_setup : forall y z, reachable (setup y z boot)
| reach_loop : forall i s s',
    reachable s -> iteration i s = Some s' -> reachable s'.

(* ---------------------------------------------------------------- *)
(** *** What the statements below speak of *)
(* ---------------------------------------------------------------- *)

(** The number of gestures marked active. *)
Definition active_count (s : State) : nat :=
  (Nat.b2n (scroll_active s) + Nat.b2n (like_active s)
   + Nat.b2n (dubious_active s))%nat.

(** No two gestures are active together. *)
Definition exclusive (s : State) : Prop :=
  (scroll_active s = true ->
   like_active s = false /\ dubious_active s = false) /\
  (like_active s = true -> dubious_active s = false).

(** The model runs only with the potentiometers switched off. *)
Definition mode_implies_knobs (s : State) : Prop :=
  smm_mode_active s = true -> knobs_disabled s = true.

(** Each step number lies inside its [switch]. *)
Definition steps_in_range (s : State) : Prop :=
  0 <= scroll_step s < 5 /\ 0 <= like_step s < 5 /\ 0 <= dubious_step s < 8.

(** What the semi-Markov model owns: its phase, its deadline, its state
    and its statistics. *)
Definition smm_cycle (s : State) :=
  (smm_waiting s, smm_wait_start s, smm_wait_duration s, event_counter s,
   current_state s, total_dwell_time s, total_dwell_by_state s,
   state_transitions s, use_like2_variant s).

(** An input that re-enables the potentiometers: the reset command, or
    the toggle that switches the model off. *)
Definition clears_knobs (i : Input) (s : State) : bool :=
  match serial i with
  | Some c =>
      (c =? "r")%char || (c =? "R")%char
      || (((c =? "m")%char || (c =? "M")%char) && smm_mode_active s)
  | None => false
  end.

(** No input of a run re-enables the potentiometers. *)
Fixpoint no_clear (inputs : list Input) (s : State) : Prop :=
  match inputs with
  | [] => True
  | i :: rest =>
      clears_knobs i s = false /\
      forall s', iteration i s = Some s' -> no_clear rest s'
  end.





End Sketch.

(** A positive quotient: zero, a float of 24 bits, or an overflow. *)
Definition positive_shape (f : float) : Prop :=
  match f with
  | S754_zero _ => True
  | S754_finite false m _ => Zpos m < 2 ^ 24
  | S754_infinity false => True
  | _ => False
  end.

(** The draw [u] keeps the numerator [1 - u] of the sample positive, or
    is above the near-one threshold. *)
Definition numerator_ok (u : float) : bool :=
  let u := if F32.leb u F32.c0_0001 then F32.c0_0001 else u in
  F32.ltb F32.c0_9999 u
  || match F32.sub F32.one u with
     | S754_finite false _ _ => true
     | _ => false
     end.

(** [numerator_ok] for the [n] values from [k] on of [random(0, 32768)]. *)
Fixpoint draws_ok (n : nat) (k : Z) : bool :=
  match n with
  | O => true
  | S n' =>
      numerator_ok (F32.div (F32.of_Z k) F32.c32767) && draws_ok n' (k + 1)
  end.

(* ================================================================== *)
(** ** A concrete board, for the examples *)
(* ================================================================== *)

Module Example.

Definition c0_6 : float := Eval vm_compute in F32.div (F32.of_Z 6) (F32.of_Z 10).
Definition c0_8 : float := Eval vm_compute in F32.div (F32.of_Z 8) (F32.of_Z 10).

(** Modelled from the spec: [smm_parameters.h] is missing from the
    sources.  The spec's example gives state AfterScroll the cumulative
    thresholds 0.6 (Scroll) and 0.8 (Like); these tables give every state
    those thresholds and the dwell rate 1.0. *)
Definition parameters : smm_parameters :=
  {| DWELL_RATE_BY_STATE := [F32.one; F32.one; F32.one];
     MEAN_DWELL_BY_STATE := [F32.one; F32.one; F32.one];
     CUM_PROB_SCROLL_BY_STATE := [c0_6; c0_6; c0_6];
     CUM_PROB_LIKE_BY_STATE := [c0_8; c0_8; c0_8] |}.

(** A generator whose first draws are: a dwell of half a second, the
    Like action (0.70 lies between 0.6 and 0.8), the second Like
    variant. *)
Definition rnd (n : nat) : N :=
  match n with
  | 0%nat => 16384%N
  | 1%nat => 23000%N
  | 2%nat => 1%N
  | _ => 7%N
  end.

(** The board after [setup()], both potentiometers at mid-range. *)
Definition start : State := setup 512 512 boot.

(** An iteration [dt] ms after the previous one. *)
Definition quiet (dt : Z) : Input := MkInput dt None 512 512.
Definition command (dt : Z) (c : ascii) : Input := MkInput dt (Some c) 512 512.

End Example.

(** Runs of the example board. *)
Module Trace.
Import Example.

(** The model is switched on and its dwell of 499 ms runs out. *)
Definition model_fires : list Input := [command 10 "m"; quiet 600].

(** A Like gesture on command, run to its end. *)
Definition like_gesture : list Input :=
  command 10 "l" :: repeat (quiet 100) 5.

(** The model is switched on, then off again. *)
Definition toggle_twice : list Input := [command 10 "m"; command 10 "m"].

(** The state [inputs] lead to from [start]; [start] itself if the run
    breaks off. *)
Definition after (inputs : list Input) : State :=
  match run rnd parameters inputs start with
  | Some s => s
  | None => start
  end.

(** The Like gesture before its last step, the step delay elapsed. *)
Definition like_last_step : State :=
  delay 100 (after (command 10 "l" :: repeat (quiet 100) 4)).


(** A Like sequencer whose step number has left its [switch]. *)
Definition like_out_of_range : State :=
  delay 100 (set_like_step 5 (set_like_active true boot)).

(** An interpolated move met with [scroll_step] beyond the table. *)
Definition scroll_out_of_range : State :=
  set_scroll_step 5 (set_step_in_progress true boot).

Definition is_reset (i : Input) : bool :=
  match serial i with
  | Some c => (c =? "r")%char || (c =? "R")%char
  | None => false
  end.

(** A Dubious sequencer whose step number has left its [switch], the
    step delay elapsed. *)
Definition dubious_out_of_range : State :=
  delay 200 (set_dubious_step 8 (set_dubious_active true boot)).

(** The model switched on after a completed Like gesture. *)
Definition model_on : State :=
  after (like_gesture ++ [command 10 "m"]).

(** The call of [loop()] that reads [i] in state [s]; [s] itself if the
    call breaks off. *)
Definition step (i : Input) (s : State) : State :=
  match loop rnd parameters i s with
  | Some s' => s'
  | None => s
  end.

End Trace.

(* ================================================================== *)
(** ** Well-formed states, inputs and tables *)
(* ================================================================== *)

(** The sum of an array of integers. *)
Definition sumZ (l : list Z) : Z := fold_right Z.add 0 l.

(** The moving-average window: five readings per axis, a cursor inside
    the window, and running totals equal to the sums of the readings. *)
Definition pots_consistent (s : State) : Prop :=
  length (readings_y s) = 5%nat /\ length (readings_z s) = 5%nat /\
  0 <= read_index s < 5 /\
  total_y s = sumZ (readings_y s) /\ total_z s = sumZ (readings_z s).

(** An angle a servo accepts. *)
Definition servo_angle (a : Z) : Prop := 0 <= a <= 180.

(** The interpolator's positions are servo angles. *)
Definition positions_in_range (s : State) : Prop :=
  servo_angle (current_y s) /\ servo_angle (current_z s) /\
  servo_angle (start_y s) /\ servo_angle (start_z s) /\
  servo_angle (target_y s) /\ servo_angle (target_z s).

(** The current position lies between the start and the target of the
    move, on both axes. *)
Definition position_between (s : State) : Prop :=
  Z.min (start_y s) (target_y s) <= current_y s
    <= Z.max (start_y s) (target_y s) /\
  Z.min (start_z s) (target_z s) <= current_z s
    <= Z.max (start_z s) (target_z s).

(** The model's state indexes its three-entry arrays, and the event
    counter is the sum of the transition counters, as [unsigned long]. *)
Definition smm_consistent (s : State) : Prop :=
  length (state_transitions s) = 3%nat /\
  length (total_dwell_by_state s) = 3%nat /\
  0 <= current_state s < 3 /\
  event_counter s = ulong (sumZ (state_transitions s)).

(** What every iteration of [loop()] keeps true. *)
Definition well_formed (s : State) : Prop :=
  pots_consistent s /\ positions_in_range s /\ position_between s /\
  smm_consistent s /\ steps_in_range s.

(** Tables with one entry per state and dwell rates above zero. *)
Definition params_ok (P : smm_parameters) : Prop :=
  length (DWELL_RATE_BY_STATE P) = 3%nat /\
  length (MEAN_DWELL_BY_STATE P) = 3%nat /\
  length (CUM_PROB_SCROLL_BY_STATE P) = 3%nat /\
  length (CUM_PROB_LIKE_BY_STATE P) = 3%nat /\
  Forall (fun rate => F32.ltb F32.zero rate = true) (DWELL_RATE_BY_STATE P).

(** A value [analogRead] returns. *)
Definition analog (v : Z) : Prop := 0 <= v <= 1023.

Definition input_in_range (i : Input) : Prop :=
  analog (pot_y i) /\ analog (pot_z i).

(** The stored readings are values [analogRead] returns. *)
Definition readings_in_range (s : State) : Prop :=
  Forall analog (readings_y s) /\ Forall analog (readings_z s).

(** Every angle written so far is one a servo accepts. *)
Definition log_in_range (s : State) : Prop :=
  Forall (fun w : servo_write => servo_angle (snd w)) (servo_log s).

(** The offset [(int)(diff * progress)] the interpolator adds to the
    start position, [elapsed] ms into a move of [duration] ms. *)
Definition interpolation_offset (diff elapsed duration : Z) : option Z :=
  int_of_float
    (F32.mul (F32.of_Z diff)
             (F32.div (F32.of_Z elapsed) (F32.of_Z duration))).

(** The offset [d] has the sign of [diff] and does not pass it. *)
Definition offset_bounded (diff d : Z) : bool :=
  if 0 <=? diff then (0 <=? d) && (d <=? diff)
  else (diff <=? d) && (d <=? 0).

(** For the [n] milliseconds from [elapsed] on, the offset exists, is
    bounded, and is no smaller than the one before, [prev] at first. *)
Fixpoint offsets_along (n : nat) (diff elapsed duration prev : Z) : bool :=
  match n with
  | O => true
  | S n' =>
      match interpolation_offset diff elapsed duration with
      | Some d =>
          offset_bounded diff d && (Z.abs prev <=? Z.abs d)
          && offsets_along n' diff (elapsed + 1) duration d
      | None => false
      end
  end.

(** [f] holds of the [n] integers from [k] on. *)
Fixpoint all_from (n : nat) (k : Z) (f : Z -> bool) : bool :=
  match n with
  | O => true
  | S n' => f k && all_from n' (k + 1) f
  end.

(** [offsets_along] a whole move of [duration] ms, for every difference
    of two servo angles. *)
Definition offsets_ok (duration : Z) : bool :=
  all_from (Z.to_nat 361) (-180) (fun diff =>
    offsets_along (Z.to_nat duration) diff 0 duration 0).

(* ================================================================== *)
(** ** Gestures and readings, step by step *)
(* ================================================================== *)

(** An iteration with nothing on the serial line, [lo] ms or more and
    less than 2^31 ms (some 24 days) after the previous one: the 32-bit
    clock does not wrap inside a step. *)
Definition quiet_after (lo : Z) (i : Input) : Prop :=
  serial i = None /\ lo <= since_last i < 2 ^ 31.

(** What the [k]-th step of Like writes. *)
Definition like_writes (k : Z) : list servo_write :=
  match k with
  | 0 => [(myservo_y, 140); (myservo_z, 120)]
  | 1 => [(myservo_y, 120)]
  | 2 => [(myservo_y, 140)]
  | 3 => [(myservo_y, 120)]
  | _ => []
  end.

(** A Dubious gesture under way at step [k], the last step just taken. *)
Definition dubious_at (k : Z) (s : State) : Prop :=
  scroll_active s = false /\ like_active s = false /\
  dubious_active s = true /\ dubious_step s = k /\
  usub (clock s) (last_step_time s) = 0.

(** What the [k]-th step of Dubious writes. *)
Definition dubious_writes (k : Z) : list servo_write :=
  match k with
  | 0 => [(myservo_y, 145); (myservo_z, 122)]
  | 1 => [(myservo_y, 125); (myservo_z, 122)]
  | 2 => [(myservo_y, 122); (myservo_z, 106)]
  | 4 => [(myservo_y, 122); (myservo_z, 134)]
  | 6 => [(myservo_y, 122); (myservo_z, 106)]
  | _ => []
  end.

(** A Scroll gesture under way: step [k] is next, and the move towards
    ([ty], [tz]) has just begun. *)
Definition scroll_at (k ty tz : Z) (s : State) : Prop :=
  scroll_active s = true /\ scroll_step s = k /\
  step_in_progress s = true /\
  target_y s = ty /\ target_z s = tz /\
  usub (clock s) (step_start_time s) = 0.

(** The target of the move that step [k] begins. *)
Definition scroll_target (k : Z) : Z * Z :=
  match k with
  | 0 => (142, 142)
  | 1 => (110, 142)
  | 2 => (90, 100)
  | _ => (147, 100)
  end.

(** An iteration with nothing on the serial line and the potentiometers
    at [y] and [z]. *)
Definition steady (y z : Z) (i : Input) : Prop :=
  serial i = None /\ pot_y i = y /\ pot_z i = z.

(** The moving averages have settled on the readings [y] and [z]. *)
Definition settled (y z : Z) (s : State) : Prop :=
  readings_y s = repeat y 5 /\ readings_z s = repeat z 5 /\
  total_y s = y * 5 /\ total_z s = z * 5 /\
  prev_angle_y s = map_range y 0 1023 0 180 /\
  prev_angle_z s = map_range z 0 1023 0 180 /\
  0 <= read_index s < 5.

(** The potentiometers drive the servos. *)
Definition knob_mode (s : State) : Prop :=
  idle s = true /\ knobs_disabled s = false.

(** [read_index] after one more reading. *)
Definition next_index (k : Z) : Z :=
  if num_readings <=? k + 1 then 0 else k + 1.

(** More runs of the example board. *)
Module Tour.
Import Example.

(** One call of the interpolator; the state itself if the call breaks
    off. *)
Definition tick (s : State) : State :=
  match updateServoPositions s with
  | Some s' => s'
  | None => s
  end.

(** The first Scroll move, 100 ms after it began. *)
Definition scroll_mid : State := delay 100 (Trace.after [command 10 "s"]).

(** A Scroll command and one iteration inside the first move. *)
Definition scroll_under_way : list Input := [command 10 "s"; quiet 100].

(** An iteration [dt] ms after the previous one, the potentiometers
    turned to 700 and 300. *)
Definition turned (dt : Z) : Input := MkInput dt None 700 300.

End Tour.

(* ================================================================== *)
(** ** Facts about binary32 rounding *)
(* ================================================================== *)

Lemma compare_antisym (x y : float) :
  SFcompare y x =
  match SFcompare x y with Some c => Some (CompOpp c) | None => None end.
Proof.
  destruct x as [sx | sx | | sx mx ex], y as [sy | sy | | sy my ey];
    try destruct sx; try destruct sy; try reflexivity; cbn [SFcompare];
    rewrite (Z.compare_antisym ex ey); destruct (ex ?= ey); cbn [CompOpp];
    try reflexivity;
    rewrite ?CompOpp_involutive, ?Pos.compare_cont_antisym; reflexivity.
Qed.

Lemma digits2_pos_bounds p :
  2 ^ (Zpos (digits2_pos p) - 1) <= Zpos p < 2 ^ Zpos (digits2_pos p).
Proof.
  assert (Hstep : forall d, 1 <= d -> 2 ^ (Z.succ d - 1) = 2 * 2 ^ (d - 1)
                                      /\ 2 ^ Z.succ d = 2 * 2 ^ d).
  { intros d Hd. split.
    - replace (Z.succ d - 1) with (Z.succ (d - 1)) by lia.
      apply Z.pow_succ_r. lia.
    - apply Z.pow_succ_r. lia. }
  induction p as [p IH | p IH |]; cbn [digits2_pos].
  - rewrite Pos2Z.inj_succ.
    destruct (Hstep (Zpos (digits2_pos p))) as (-> & ->); lia.
  - rewrite Pos2Z.inj_succ.
    destruct (Hstep (Zpos (digits2_pos p))) as (-> & ->); lia.
  - cbn. lia.
Qed.

Lemma Zdigits2_nonneg m : 0 <= Zdigits2 m.
Proof. destruct m; cbn; lia. Qed.

Lemma Zdigits2_gt m : 0 <= m -> m < 2 ^ Zdigits2 m.
Proof.
  destruct m as [|p|p]; cbn [Zdigits2]; intros H; [cbn; lia | | lia].
  apply digits2_pos_bounds.
Qed.

Lemma Zdigits2_le m d : 0 <= m -> 0 <= d -> m < 2 ^ d -> Zdigits2 m <= d.
Proof.
  destruct m as [|p|p]; cbn [Zdigits2]; intros H Hd Hlt; [lia | | lia].
  pose proof (digits2_pos_bounds p) as (Hlo & _).
  assert (Hp : 2 ^ (Zpos (digits2_pos p) - 1) < 2 ^ d) by lia.
  apply Z.pow_lt_mono_r_iff in Hp; lia.
Qed.

Lemma shr_1_m mrs : 0 <= shr_m mrs -> shr_m (shr_1 mrs) = shr_m mrs / 2.
Proof.
  destruct mrs as [m r s]. cbn [shr_m shr_1]. intros H.
  destruct m as [|[p|p|]|p]; cbn [shr_m];
    [reflexivity | | | reflexivity | lia].
  - apply Z.div_unique with (r := 1); lia.
  - apply Z.div_unique with (r := 0); lia.
Qed.

Lemma iter_shr_1_m p : forall mrs,
  0 <= shr_m mrs ->
  shr_m (iter_pos shr_1 p mrs) = shr_m mrs / 2 ^ Zpos p.
Proof.
  assert (Hpos : forall k, 0 < 2 ^ Zpos k) by (intros; apply Z.pow_pos_nonneg; lia).
  induction p as [p IH | p IH |]; intros mrs H; cbn [iter_pos].
  - assert (H1 : 0 <= shr_m (shr_1 mrs))
      by (rewrite shr_1_m by exact H; apply Z.div_pos; lia).
    assert (H2 : 0 <= shr_m (iter_pos shr_1 p (shr_1 mrs)))
      by (rewrite IH by exact H1; apply Z.div_pos; [lia | apply Hpos]).
    rewrite IH by exact H2. rewrite IH by exact H1. rewrite shr_1_m by exact H.
    pose proof (Hpos p).
    rewrite !Z.div_div by lia.
    f_equal. replace (Zpos p~1) with (1 + Zpos p + Zpos p) by lia.
    rewrite !Z.pow_add_r by lia. rewrite Z.pow_1_r. ring.
  - assert (H2 : 0 <= shr_m (iter_pos shr_1 p mrs))
      by (rewrite IH by exact H; apply Z.div_pos; [lia | apply Hpos]).
    rewrite IH by exact H2. rewrite IH by exact H.
    pose proof (Hpos p).
    rewrite !Z.div_div by lia.
    f_equal. replace (Zpos p~0) with (Zpos p + Zpos p) by lia.
    rewrite Z.pow_add_r by lia. ring.
  - rewrite shr_1_m by exact H. reflexivity.
Qed.

Lemma shr_spec mrs e n :
  0 <= shr_m mrs ->
  shr_m (fst (shr mrs e n)) = shr_m mrs / 2 ^ Z.max 0 n /\
  snd (shr mrs e n) = e + Z.max 0 n.
Proof.
  intros H. destruct n as [|p|p]; cbn [shr fst snd].
  - cbn. rewrite Z.div_1_r. lia.
  - rewrite iter_shr_1_m by exact H.
    replace (Z.max 0 (Zpos p)) with (Zpos p) by lia. auto.
  - replace (Z.max 0 (Zneg p)) with 0 by lia. cbn. rewrite Z.div_1_r. lia.
Qed.

Lemma fexp32 e : fexp F32.prec F32.emax e = Z.max (e - 24) (-149).
Proof. reflexivity. Qed.

Lemma shr_fexp_spec m e l :
  0 <= m ->
  shr_m (fst (shr_fexp F32.prec F32.emax m e l))
    = m / 2 ^ Z.max 0 (fexp F32.prec F32.emax (Zdigits2 m + e) - e) /\
  snd (shr_fexp F32.prec F32.emax m e l)
    = e + Z.max 0 (fexp F32.prec F32.emax (Zdigits2 m + e) - e).
Proof.
  intros H. unfold shr_fexp.
  assert (Hm : shr_m (shr_record_of_loc m l) = m)
    by (destruct l as [|[]]; reflexivity).
  pose proof (shr_spec (shr_record_of_loc m l) e
                (fexp F32.prec F32.emax (Zdigits2 m + e) - e)) as S.
  rewrite Hm in S. apply S, H.
Qed.

Lemma shr_fexp_bound m e l :
  0 <= m -> 0 <= shr_m (fst (shr_fexp F32.prec F32.emax m e l)) < 2 ^ 24.
Proof.
  intros H. destruct (shr_fexp_spec m e l H) as (-> & _).
  rewrite fexp32.
  set (n := Z.max 0 (Z.max (Zdigits2 m + e - 24) (-149) - e)).
  assert (Hn : 0 <= n) by lia.
  assert (Hd : Zdigits2 m <= 24 + n) by lia.
  assert (Hp : 0 < 2 ^ n) by (apply Z.pow_pos_nonneg; lia).
  split; [apply Z.div_pos; lia|].
  apply Z.div_lt_upper_bound; [exact Hp|].
  rewrite <- Z.pow_add_r by lia.
  apply Z.lt_le_trans with (2 ^ Zdigits2 m); [apply Zdigits2_gt, H|].
  apply Z.pow_le_mono_r; lia.
Qed.

Lemma round_nearest_even_bounds m l :
  m <= round_nearest_even m l <= m + 1.
Proof.
  destruct l as [|[]]; cbn [round_nearest_even]; try lia.
  destruct (Z.even m); lia.
Qed.

(** The shape of a rounded result: never NaN, a mantissa of 24 bits, and
    an exponent at most one above the first shift. *)
Lemma binary_round_aux_spec sx mx ex lx :
  0 <= mx ->
  exists m2 e2,
    0 <= m2 < 2 ^ 24 /\
    e2 <= Z.max ex (Z.max (Zdigits2 mx + ex - 24) (-149)) + 1 /\
    binary_round_aux F32.prec F32.emax sx mx ex lx =
    match m2 with
    | Z0 => S754_zero sx
    | Zpos m => if e2 <=? 104 then S754_finite sx m e2 else S754_infinity sx
    | Zneg _ => S754_nan
    end.
Proof.
  intros H. unfold binary_round_aux.
  pose proof (shr_fexp_spec mx ex lx H) as (_ & He1).
  pose proof (shr_fexp_bound mx ex lx H) as Hb1.
  destruct (shr_fexp F32.prec F32.emax mx ex lx) as [mrs1 e1].
  cbn [fst snd] in He1, Hb1.
  set (mr := round_nearest_even (shr_m mrs1) (loc_of_shr_record mrs1)).
  pose proof (round_nearest_even_bounds (shr_m mrs1) (loc_of_shr_record mrs1)) as Hr.
  fold mr in Hr.
  assert (Hmr : 0 <= mr) by lia.
  pose proof (shr_fexp_spec mr e1 loc_Exact Hmr) as (_ & He2).
  pose proof (shr_fexp_bound mr e1 loc_Exact Hmr) as Hb2.
  destruct (shr_fexp F32.prec F32.emax mr e1 loc_Exact) as [mrs2 e2].
  cbn [fst snd] in He2, Hb2.
  exists (shr_m mrs2), e2. split; [exact Hb2|]. split; [|reflexivity].
  assert (Hd : Zdigits2 mr <= 25).
  { apply Zdigits2_le; [lia | lia |].
    change (2 ^ 25) with (2 ^ 24 + 2 ^ 24).
    assert (0 < 2 ^ 24) by reflexivity. lia. }
  rewrite fexp32 in He1, He2. lia.
Qed.

Lemma not_ltb_leb (x y : float) :
  SFcompare x y <> None -> F32.ltb x y = false -> F32.leb y x = true.
Proof.
  unfold F32.ltb, F32.leb, SFltb, SFleb. rewrite (compare_antisym x y).
  destruct (SFcompare x y) as [[]|]; cbn; congruence.
Qed.

Lemma div_positive_shape mx ex (rate : float) :
  F32.ltb F32.zero rate = true ->
  positive_shape (F32.div (S754_finite false mx ex) rate).
Proof.
  destruct rate as [sy | sy | | sy my ey]; try destruct sy;
    try discriminate; intros _; try exact I.
  unfold F32.div, SFdiv, SFdiv_core_binary.
  set (m' := match ex - ey - _ with Z0 => Zpos mx | Zpos _ => _ | Zneg _ => 0 end).
  assert (Hm' : 0 <= m').
  { subst m'. destruct (ex - ey - _); [lia | | lia].
    apply Z.shiftl_nonneg. lia. }
  assert (Hq : 0 <= fst (Z.div_eucl m' (Zpos my)))
    by (apply (Z.div_pos m' (Zpos my)); lia).
  destruct (Z.div_eucl m' (Zpos my)) as [q r]. cbn [fst] in Hq.
  destruct (binary_round_aux_spec (xorb false false) q
              (Z.min (fexp F32.prec F32.emax
                        (Zdigits2 (Zpos mx) + ex - (Zdigits2 (Zpos my) + ey)))
                     (ex - ey))
              (new_location (Zpos my) r) Hq) as (m2 & e2 & Hb & _ & ->).
  destruct m2 as [|m|m]; [exact I | | lia].
  destruct (e2 <=? 104); [apply Hb | exact I].
Qed.

Lemma mul_1000_defined m e :
  Zpos m < 2 ^ 24 -> e <= -19 ->
  exists ms, ulong_of_float (F32.mul (S754_finite false m e) F32.c1000) = Some ms
             /\ 0 <= ms < 2 ^ 24.
Proof.
  intros Hm He. unfold F32.mul, F32.c1000, SFmul.
  assert (Hprod : 0 <= Zpos (m * 16384000) < 2 ^ 48).
  { rewrite Pos2Z.inj_mul. change (2 ^ 48) with (2 ^ 24 * 2 ^ 24).
    assert (Zpos 16384000 < 2 ^ 24) by reflexivity.
    assert (0 < 2 ^ 24) by reflexivity. nia. }
  destruct (binary_round_aux_spec (xorb false false) (Zpos (m * 16384000))
              (e + -14) loc_Exact (proj1 Hprod)) as (m2 & e2 & Hb & He2 & ->).
  assert (Hd : Zdigits2 (Zpos (m * 16384000)) <= 48)
    by (apply Zdigits2_le; lia).
  assert (He2' : e2 <= -8) by lia.
  destruct m2 as [|m2|m2]; [| | lia].
  - exists 0. split; [reflexivity | lia].
  - replace (e2 <=? 104) with true by (symmetry; apply Z.leb_le; lia).
    unfold ulong_of_float, F32.trunc.
    replace (0 <=? e2) with false by (symmetry; apply Z.leb_gt; lia).
    cbn [xorb].
    assert (Hp : 0 < 2 ^ (- e2)) by (apply Z.pow_pos_nonneg; lia).
    assert (Hq : 0 <= Zpos m2 / 2 ^ (- e2) <= Zpos m2).
    { split; [apply Z.div_pos; lia|].
      apply Z.div_le_upper_bound; [exact Hp|]. nia. }
    exists (Zpos m2 / 2 ^ (- e2)).
    assert (H32 : 2 ^ 24 < ULONG_MOD) by reflexivity.
    replace (0 <=? Zpos m2 / 2 ^ (- e2)) with true
      by (symmetry; apply Z.leb_le; lia).
    replace (Zpos m2 / 2 ^ (- e2) <? ULONG_MOD) with true
      by (symmetry; apply Z.ltb_lt; lia).
    split; [reflexivity | lia].
Qed.

Lemma sample_exponential_of_shape u rate :
  numerator_ok u = true ->
  F32.ltb F32.zero rate = true ->
  exists m e,
    sample_exponential_of u rate = S754_finite false m e /\
    Zpos m < 2 ^ 24 /\ e <= -19 /\
    F32.leb F32.c0_1 (sample_exponential_of u rate) = true /\
    F32.leb (sample_exponential_of u rate) MAX_DWELL_TIME = true.
Proof.
  unfold numerator_ok, sample_exponential_of. intros Hu Hrate.
  set (u' := if F32.leb u F32.c0_0001 then F32.c0_0001 else u) in *.
  assert (Hlow : exists m e, F32.c0_1 = S754_finite false m e /\
             Zpos m < 2 ^ 24 /\ e <= -19 /\
             F32.leb F32.c0_1 F32.c0_1 = true /\
             F32.leb F32.c0_1 MAX_DWELL_TIME = true).
  { do 2 eexists. split; [reflexivity|]. repeat split; reflexivity || discriminate. }
  assert (Hhigh : exists m e, MAX_DWELL_TIME = S754_finite false m e /\
             Zpos m < 2 ^ 24 /\ e <= -19 /\
             F32.leb F32.c0_1 MAX_DWELL_TIME = true /\
             F32.leb MAX_DWELL_TIME MAX_DWELL_TIME = true).
  { do 2 eexists. split; [reflexivity|]. repeat split; reflexivity || discriminate. }
  destruct (F32.ltb F32.c0_9999 u').
  { exact Hlow. }
  cbn [orb] in Hu.
  destruct (F32.sub F32.one u') as [ | | | [|] mu eu]; try discriminate.
  pose proof (div_positive_shape mu eu rate Hrate) as Hs.
  destruct (F32.div (S754_finite false mu eu) rate) as [sz | [|] | | [|] m e];
    cbn [positive_shape] in Hs; try contradiction.
  - (* zero *) destruct sz; exact Hlow.
  - (* overflow *) exact Hhigh.
  - destruct (F32.ltb MAX_DWELL_TIME (S754_finite false m e)) eqn:Hgt.
    { exact Hhigh. }
    destruct (F32.ltb (S754_finite false m e) F32.c0_1) eqn:Hlt.
    { exact Hlow. }
    exists m, e. split; [reflexivity|]. split; [exact Hs|].
    split; [|split].
    + unfold F32.ltb, SFltb, MAX_DWELL_TIME, SFcompare in Hgt.
      destruct (-19 ?= e) eqn:Hc; try discriminate;
        [apply Z.compare_eq in Hc | apply Z.compare_gt_iff in Hc]; lia.
    + apply not_ltb_leb; [discriminate | exact Hlt].
    + apply not_ltb_leb; [discriminate | exact Hgt].
Qed.

Lemma draws_ok_spec n : forall k0 k,
  draws_ok n k0 = true -> k0 <= k < k0 + Z.of_nat n ->
  numerator_ok (F32.div (F32.of_Z k) F32.c32767) = true.
Proof.
  induction n as [|n IH]; intros k0 k H Hk; [lia|].
  cbn [draws_ok] in H. apply andb_prop in H. destruct H as (H0 & H1).
  destruct (Z.eq_dec k k0) as [-> | Hne]; [exact H0|].
  apply (IH (k0 + 1)); [exact H1 | lia].
Qed.

Lemma all_draws_ok : draws_ok (Z.to_nat 32768) 0 = true.
Proof. vm_compute. reflexivity. Qed.

(* ================================================================== *)
(** ** Properties of the sketch *)
(* ================================================================== *)

Ltac fields :=
  cbn [pots moves smooth smm board prev_angle_y prev_angle_z readings_y
       readings_z read_index total_y total_z scroll_active like_active
       dubious_active knobs_disabled scroll_step like_step dubious_step
       last_step_time dubious_wait_time current_y current_z target_y target_z
       start_y start_z step_start_time step_in_progress simulation_start_time
       event_counter current_state total_dwell_time use_like2_variant
       smm_mode_active smm_waiting smm_wait_start smm_wait_duration
       state_transitions total_dwell_by_state clock rand_calls servo_log
       last_debug set_prev_angle_y set_prev_angle_z set_readings_y
       set_readings_z set_read_index set_total_y set_total_z
       set_scroll_active set_like_active set_dubious_active
       set_knobs_disabled set_scroll_step set_like_step set_dubious_step
       set_last_step_time set_dubious_wait_time set_current_y set_current_z
       set_target_y set_target_z set_start_y set_start_z set_step_start_time
       set_step_in_progress set_simulation_start_time set_event_counter
       set_current_state set_total_dwell_time set_use_like2_variant
       set_smm_mode_active set_smm_waiting set_smm_wait_start
       set_smm_wait_duration set_state_transitions set_total_dwell_by_state
       set_clock set_rand_calls set_servo_log set_last_debug write delay
       millis] in *.

Ltac split_match :=
  match goal with
  | |- context [match ?x with _ => _ end] => destruct x eqn:?
  | |- context [if ?x then _ else _] => destruct x eqn:?
  end.


Ltac split_hyp :=
  match goal with
  | H : context [match ?x with _ => _ end] |- _ => destruct x eqn:?
  | H : context [if ?x then _ else _] |- _ => destruct x eqn:?
  end.

Ltac inv_some :=
  repeat match goal with
  | H : Some _ = Some _ |- _ => inversion H; subst; clear H
  | H : None = Some _ |- _ => discriminate H
  | H : bind ?m _ = Some _ |- _ =>
      let E := fresh "E" in destruct m eqn:E; cbn [bind] in H; [| discriminate H]
  end.

(** Replace the parts of a later state by what is known of them. *)
Ltac frames :=
  fields;
  repeat match goal with
  | H : moves ?x = _ |- _ => is_var x; try rewrite H in *; clear H
  | H : smm ?x = _ |- _ => is_var x; try rewrite H in *; clear H
  | H : smooth ?x = _ |- _ => is_var x; try rewrite H in *; clear H
  | H : pots ?x = _ |- _ => is_var x; try rewrite H in *; clear H
  | H : board ?x = _ |- _ => is_var x; try rewrite H in *; clear H
  end.

Ltac finish := fields; repeat split; intros; try discriminate; try congruence; try lia; auto.

Section Properties.
Variable rnd : nat -> N.
Variable P : smm_parameters.

Lemma executeLike_frame s :
  smm (executeLike s) = smm s /\ smooth (executeLike s) = smooth s /\ pots (executeLike s) = pots s.
Proof. unfold executeLike, like_next. repeat split_match; finish. Qed.

Lemma executeLike_flags s :
  scroll_active (executeLike s) = scroll_active s /\
  dubious_active (executeLike s) = dubious_active s /\
  (like_active (executeLike s) = true -> like_active s = true) /\
  (knobs_disabled s = true -> knobs_disabled (executeLike s) = true) /\
  (like_active (executeLike s) = false -> like_active s = true -> knobs_disabled (executeLike s) = true).
Proof. unfold executeLike, like_next. repeat split_match; finish. Qed.

Lemma random_frame lo hi s :
  moves (snd (random rnd lo hi s)) = moves s /\
  smm (snd (random rnd lo hi s)) = smm s /\
  smooth (snd (random rnd lo hi s)) = smooth s /\
  pots (snd (random rnd lo hi s)) = pots s /\
  clock (snd (random rnd lo hi s)) = clock s /\
  servo_log (snd (random rnd lo hi s)) = servo_log s.
Proof. unfold random. split_match; finish. Qed.

Ltac draw :=
  match goal with
  | |- context [random rnd ?a ?b ?s] =>
      let r := fresh "r" in let s1 := fresh "s" in
      let H := fresh "Hrnd" in
      pose proof (random_frame a b s) as H;
      destruct (random rnd a b s) as [r s1]; cbn [snd fst] in H;
      destruct H as (? & ? & ? & ? & ? & ?)
  | H0 : context [random rnd ?a ?b ?s] |- _ =>
      let r := fresh "r" in let s1 := fresh "s" in
      let H := fresh "Hrnd" in
      pose proof (random_frame a b s) as H;
      destruct (random rnd a b s) as [r s1]; cbn [snd fst] in H;
      destruct H as (? & ? & ? & ? & ? & ?)
  end.

Lemma executeDubious_frame s :
  smm (executeDubious rnd s) = smm s /\ smooth (executeDubious rnd s) = smooth s /\ pots (executeDubious rnd s) = pots s.
Proof. unfold executeDubious, dubious_wait, dubious_next. repeat (first [draw | split_match]); finish. Qed.

Lemma executeDubious_flags s :
  scroll_active (executeDubious rnd s) = scroll_active s /\
  like_active (executeDubious rnd s) = like_active s /\
  (dubious_active (executeDubious rnd s) = true -> dubious_active s = true) /\
  (knobs_disabled s = true -> knobs_disabled (executeDubious rnd s) = true) /\
  (dubious_active (executeDubious rnd s) = false -> dubious_active s = true -> knobs_disabled (executeDubious rnd s) = true).
Proof. unfold executeDubious, dubious_wait, dubious_next. repeat (first [draw | split_match]); finish. Qed.

Lemma updateServoPositions_frame s s' :
  updateServoPositions s = Some s' ->
  smm s' = smm s /\ moves s' = moves s /\ pots s' = pots s.
Proof.
  unfold updateServoPositions. intros H.
  repeat (split_hyp; inv_some; fields); inv_some; finish.
Qed.

Lemma executeScroll_frame s s' :
  executeScroll s = Some s' -> smm s' = smm s /\ pots s' = pots s.
Proof.
  unfold executeScroll. intros H. inv_some.
  apply updateServoPositions_frame in E. destruct E as (E1 & E2 & E3).
  unfold scroll_next, smoothMoveServos in H.
  repeat (split_hyp; inv_some; fields); inv_some; finish.
Qed.

Lemma executeScroll_flags s s' :
  executeScroll s = Some s' ->
  like_active s' = like_active s /\
  dubious_active s' = dubious_active s /\
  knobs_disabled s' = knobs_disabled s /\
  (scroll_active s' = true -> scroll_active s = true).
Proof.
  unfold executeScroll. intros H. inv_some.
  apply updateServoPositions_frame in E. destruct E as (E1 & E2 & E3).
  unfold scroll_next, smoothMoveServos in H.
  repeat (split_hyp; inv_some; fields); inv_some; fields; rewrite <- ?E2; finish.
Qed.

Lemma random_uniform_frame s :
  moves (snd (random_uniform rnd s)) = moves s /\
  smm (snd (random_uniform rnd s)) = smm s /\
  smooth (snd (random_uniform rnd s)) = smooth s /\
  pots (snd (random_uniform rnd s)) = pots s /\
  clock (snd (random_uniform rnd s)) = clock s /\
  servo_log (snd (random_uniform rnd s)) = servo_log s.
Proof. unfold random_uniform. draw. cbn [snd]. auto 10. Qed.

Lemma sample_exponential_frame rate s :
  moves (snd (sample_exponential rnd rate s)) = moves s /\
  smm (snd (sample_exponential rnd rate s)) = smm s /\
  smooth (snd (sample_exponential rnd rate s)) = smooth s /\
  pots (snd (sample_exponential rnd rate s)) = pots s /\
  clock (snd (sample_exponential rnd rate s)) = clock s /\
  servo_log (snd (sample_exponential rnd rate s)) = servo_log s.
Proof.
  unfold sample_exponential. pose proof (random_uniform_frame s) as H.
  destruct (random_uniform rnd s) as [u s1]. exact H.
Qed.

Lemma select_next_action_frame state s a s' :
  select_next_action rnd P state s = Some (a, s') ->
  (a = ACTION_SCROLL \/ a = ACTION_LIKE \/ a = ACTION_DUBIOUS_SCROLL) /\
  moves s' = moves s /\ smm s' = smm s /\ smooth s' = smooth s /\
  pots s' = pots s /\ clock s' = clock s /\ servo_log s' = servo_log s.
Proof.
  unfold select_next_action. intros H.
  pose proof (random_uniform_frame s) as F.
  destruct (random_uniform rnd s) as [r s1]. cbn [snd] in F.
  destruct F as (? & ? & ? & ? & ? & ?).
  destruct (aget (CUM_PROB_SCROLL_BY_STATE P) state) as [p_scroll|];
    cbn [bind] in H; [|discriminate].
  destruct (F32.ltb r p_scroll).
  { inversion H; subst. repeat split; auto. }
  destruct (aget (CUM_PROB_LIKE_BY_STATE P) state) as [p_like|];
    cbn [bind] in H; [|discriminate].
  destruct (F32.ltb r p_like); inversion H; subst; repeat split; auto.
Qed.

Lemma serial_command_frame input s :
  pots (serial_command input s) = pots s /\
  smooth (serial_command input s) = smooth s /\
  board (serial_command input s) = board s.
Proof. unfold serial_command. repeat split_match; finish. Qed.

Lemma potentiometer_control_frame i s s' :
  potentiometer_control i s = Some s' ->
  moves s' = moves s /\ smm s' = smm s /\ smooth s' = smooth s.
Proof.
  unfold potentiometer_control. intros H. inv_some.
  repeat split_match; finish.
Qed.

(** The case analysis of [loop]. *)
Lemma loop_cases i s s' :
  loop rnd P i s = Some s' ->
  (scroll_active (poll_serial i s) = true /\
   executeScroll (poll_serial i s) = Some s') \/
  (scroll_active (poll_serial i s) = false /\
   like_active (poll_serial i s) = true /\
   s' = executeLike (poll_serial i s)) \/
  (scroll_active (poll_serial i s) = false /\
   like_active (poll_serial i s) = false /\
   dubious_active (poll_serial i s) = true /\
   s' = executeDubious rnd (poll_serial i s)) \/
  (idle (poll_serial i s) = true /\
   exists s2,
     (if negb (knobs_disabled (poll_serial i s))
      then potentiometer_control i (poll_serial i s)
      else Some (poll_serial i s)) = Some s2 /\
     (if smm_guard s2 then smm_execution rnd P s2 else Some s2) = Some s').
Proof.
  unfold loop, idle. intros H.
  destruct (scroll_active (poll_serial i s)); [left; auto|].
  destruct (like_active (poll_serial i s)); [right; left; inv_some; auto|].
  destruct (dubious_active (poll_serial i s)); [right; right; left; inv_some; auto|].
  right; right; right. split; [reflexivity|]. inv_some. eauto.
Qed.

Lemma execute_smm_action_flags a s s' :
  execute_smm_action rnd a s = Some s' ->
  smm_mode_active s' = smm_mode_active s /\
  (knobs_disabled s = true -> knobs_disabled s' = true) /\
  (idle s = true -> exclusive s') /\
  (steps_in_range s -> steps_in_range s') /\
  pots s' = pots s.
Proof.
  unfold execute_smm_action, idle, exclusive, steps_in_range. intros H.
  inv_some. repeat (first [draw | split_hyp]); inv_some; fields.
  all: frames.
  all: fields; repeat split; intros; try discriminate; try lia; auto.
  all: repeat match goal with
         | H : _ && _ = true |- _ => apply andb_prop in H; destruct H
         | H : negb _ = true |- _ => apply negb_true_iff in H
         end; try congruence; try lia.
Qed.

Ltac bools :=
  repeat match goal with
  | H : _ && _ = true |- _ => apply andb_prop in H; destruct H
  | H : negb _ = true |- _ => apply negb_true_iff in H
  | H : negb _ = false |- _ => apply negb_false_iff in H
  end.

Lemma smm_execution_flags s s' :
  smm_execution rnd P s = Some s' ->
  smm_mode_active s' = smm_mode_active s /\
  (knobs_disabled s = true -> knobs_disabled s' = true) /\
  (idle s = true -> exclusive s') /\
  (steps_in_range s -> steps_in_range s') /\
  pots s' = pots s.
Proof.
  unfold smm_execution. intros H.
  destruct (negb (smm_waiting s)).
  - inv_some.
    pose proof (sample_exponential_frame f s) as F.
    destruct (sample_exponential rnd f s) as [dwell_time s1].
    cbn [snd] in F. destruct F as (? & ? & ? & ? & ? & ?).
    inv_some. unfold idle, exclusive, steps_in_range. frames. fields.
    repeat split; intros; bools; try congruence; try lia.
  - destruct (smm_wait_duration s <=? usub (millis s) (smm_wait_start s)).
    + inv_some. destruct p as [action s1].
      apply select_next_action_frame in E.
      destruct E as (_ & ? & ? & ? & ? & ? & ?).
      apply execute_smm_action_flags in H.
      destruct H as (Hm & Hk & Hx & Hr & Hp).
      unfold idle, exclusive, steps_in_range in *. frames.
      repeat split; intros; try tauto; try congruence; try lia.
    + inv_some. unfold idle, exclusive, steps_in_range.
      repeat split; intros; bools; try congruence; try lia.
Qed.

Lemma executeLike_steps s :
  steps_in_range s -> steps_in_range (executeLike s).
Proof.
  unfold steps_in_range, executeLike, like_next.
  repeat split_match; fields; lia.
Qed.

Lemma executeDubious_steps s :
  steps_in_range s -> steps_in_range (executeDubious rnd s).
Proof.
  unfold steps_in_range, executeDubious, dubious_wait, dubious_next.
  repeat (first [draw | split_match]); frames; lia.
Qed.

Lemma executeScroll_steps s s' :
  executeScroll s = Some s' -> steps_in_range s -> steps_in_range s'.
Proof.
  unfold executeScroll, steps_in_range. intros H. inv_some.
  apply updateServoPositions_frame in E. destruct E as (E1 & E2 & E3).
  unfold scroll_next, smoothMoveServos in H.
  repeat (split_hyp; inv_some; fields); inv_some; fields;
    rewrite <- ?E2; try rewrite E2 in *; lia.
Qed.

Lemma serial_command_inv input s :
  (exclusive s -> exclusive (serial_command input s)) /\
  (mode_implies_knobs s -> mode_implies_knobs (serial_command input s)) /\
  (steps_in_range s -> steps_in_range (serial_command input s)).
Proof.
  unfold serial_command, idle, exclusive, mode_implies_knobs, steps_in_range.
  repeat split_match; fields; bools;
    repeat split; intros; bools; try discriminate; try tauto; try congruence; try lia.
Qed.

Lemma poll_serial_frame i s :
  pots (poll_serial i s) = pots s /\ smooth (poll_serial i s) = smooth s /\
  clock (poll_serial i s) = clock s /\
  servo_log (poll_serial i s) = servo_log s.
Proof.
  unfold poll_serial.
  destruct (serial i) as [c|];
    [pose proof (serial_command_frame c
       (if 5000 <? usub (millis s) (last_debug s)
        then set_last_debug (millis s) s else s)) as (? & ? & Hb);
     rewrite Hb |];
    split_match; finish.
Qed.

Lemma poll_serial_inv i s :
  (exclusive s -> exclusive (poll_serial i s)) /\
  (mode_implies_knobs s -> mode_implies_knobs (poll_serial i s)) /\
  (steps_in_range s -> steps_in_range (poll_serial i s)).
Proof.
  unfold poll_serial.
  set (s0 := if 5000 <? usub (millis s) (last_debug s)
             then set_last_debug (millis s) s else s).
  assert (Hm : moves s0 = moves s) by (subst s0; split_match; reflexivity).
  assert (Hs : smm s0 = smm s) by (subst s0; split_match; reflexivity).
  assert (H0 : (exclusive s -> exclusive s0) /\
               (mode_implies_knobs s -> mode_implies_knobs s0) /\
               (steps_in_range s -> steps_in_range s0)).
  { unfold exclusive, mode_implies_knobs, steps_in_range.
    rewrite Hm, Hs. tauto. }
  destruct (serial i) as [c|]; [|exact H0].
  pose proof (serial_command_inv c s0). tauto.
Qed.

Lemma loop_inv i s s' :
  loop rnd P i s = Some s' ->
  (exclusive s -> exclusive s') /\
  (mode_implies_knobs s -> mode_implies_knobs s') /\
  (steps_in_range s -> steps_in_range s').
Proof.
  intros H. apply loop_cases in H.
  pose proof (poll_serial_inv i s) as (Px & Pm & Pr).
  set (s1 := poll_serial i s) in *.
  destruct H as [(Ha & H) | [(Ha & Hb & H) | [(Ha & Hb & Hc & H) | (Hi & s2 & H2 & H)]]].
  - pose proof (executeScroll_frame _ _ H) as (Fs & _).
    pose proof (executeScroll_flags _ _ H) as (Fl & Fd & Fk & Fa).
    pose proof (executeScroll_steps _ _ H) as Fr.
    unfold exclusive, mode_implies_knobs in *.
    rewrite Fl, Fd, Fk, Fs.
    split; [|split]; [| |intros; apply Fr, Pr; assumption]; intuition congruence.
  - subst s'.
    pose proof (executeLike_frame s1) as (Fs & _).
    pose proof (executeLike_flags s1) as (Fa & Fd & Fl & Fk & _).
    pose proof (executeLike_steps s1) as Fr.
    unfold exclusive, mode_implies_knobs in *.
    rewrite Fa, Fd, Fs.
    split; [|split]; [| |intros; apply Fr, Pr; assumption]; intuition congruence.
  - subst s'.
    pose proof (executeDubious_frame s1) as (Fs & _).
    pose proof (executeDubious_flags s1) as (Fa & Fl & Fd & Fk & _).
    pose proof (executeDubious_steps s1) as Fr.
    unfold exclusive, mode_implies_knobs in *.
    rewrite Fa, Fl, Fs.
    split; [|split]; [| |intros; apply Fr, Pr; assumption]; intuition congruence.
  - assert (F2 : moves s2 = moves s1 /\ smm s2 = smm s1).
    { destruct (negb (knobs_disabled s1)).
      - apply potentiometer_control_frame in H2. tauto.
      - inversion H2; auto. }
    destruct F2 as (Fm & Fs).
    destruct (smm_guard s2) eqn:G.
    + apply smm_execution_flags in H.
      destruct H as (Hm & Hk & Hx & Hr & _).
      unfold smm_guard in G. bools.
      unfold idle, exclusive, mode_implies_knobs, steps_in_range in *.
      rewrite Fm, Fs in *.
      repeat split; intros; try (apply Hx; rewrite Hi; reflexivity)
        ; try (apply Hr; tauto); intuition congruence.
    + inversion H; subst s'.
      unfold idle, exclusive, mode_implies_knobs, steps_in_range in *.
      rewrite Fm, Fs. tauto.
Qed.

Lemma setup_inv y z :
  exclusive (setup y z boot) /\ mode_implies_knobs (setup y z boot) /\
  steps_in_range (setup y z boot).
Proof.
  unfold exclusive, mode_implies_knobs, steps_in_range, setup, boot.
  fields. repeat split; intros; try discriminate; lia.
Qed.

Lemma iteration_inv i s s' :
  iteration rnd P i s = Some s' ->
  (exclusive s -> exclusive s') /\
  (mode_implies_knobs s -> mode_implies_knobs s') /\
  (steps_in_range s -> steps_in_range s').
Proof. unfold iteration. intros H. apply loop_inv in H. exact H. Qed.

Lemma reachable_inv s :
  reachable rnd P s ->
  exclusive s /\ mode_implies_knobs s /\ steps_in_range s.
Proof.
  induction 1 as [y z | i s s' _ IH H].
  - apply setup_inv.
  - apply iteration_inv in H. tauto.
Qed.

Lemma exclusive_count s : exclusive s -> (active_count s <= 1)%nat.
Proof.
  unfold exclusive, active_count.
  destruct (scroll_active s), (like_active s), (dubious_active s);
    cbn; intros (H1 & H2); try lia;
    try (destruct H1; [reflexivity | discriminate]);
    try (specialize (H2 eq_refl); discriminate).
Qed.

(** C9.  In every reachable state at most one of [scroll_active],
    [like_active] and [dubious_active] is set. *)
Theorem one_gesture_at_a_time s :
  reachable rnd P s -> (active_count s <= 1)%nat.
Proof. intros H. apply exclusive_count, reachable_inv, H. Qed.

(** C10.  In every reachable state an active model has the
    potentiometers switched off, and this still holds once the next
    iteration has read its command, which is where the sketch decides
    whether the potentiometers drive the servos. *)
Theorem smm_mode_disables_knobs s :
  reachable rnd P s ->
  (smm_mode_active s = true -> knobs_disabled s = true) /\
  (forall i,
      smm_mode_active (poll_serial i (delay (since_last i) s)) = true ->
      knobs_disabled (poll_serial i (delay (since_last i) s)) = true).
Proof.
  intros H. apply reachable_inv in H. destruct H as (_ & H & _).
  split; [exact H|]. intros i.
  apply (poll_serial_inv i (delay (since_last i) s)). exact H.
Qed.

Lemma serial_command_cycle input s :
  smm_cycle (serial_command input s) = smm_cycle s.
Proof. unfold serial_command, smm_cycle. repeat split_match; reflexivity. Qed.

Lemma poll_serial_cycle i s : smm_cycle (poll_serial i s) = smm_cycle s.
Proof.
  unfold poll_serial. destruct (serial i) as [c|];
    [rewrite serial_command_cycle|]; split_match; reflexivity.
Qed.

Lemma smm_cycle_frame s s' : smm s' = smm s -> smm_cycle s' = smm_cycle s.
Proof. unfold smm_cycle. intros H. rewrite H. reflexivity. Qed.

Lemma serial_command_busy input s :
  idle s = false ->
  idle (serial_command input s) = false \/
  smm_mode_active (serial_command input s) = false.
Proof.
  unfold serial_command. intros H. rewrite H.
  repeat split_match; fields; auto.
Qed.

Lemma poll_serial_busy i s :
  idle s = false ->
  idle (poll_serial i s) = false \/
  smm_mode_active (poll_serial i s) = false.
Proof.
  unfold poll_serial. intros H.
  set (s0 := if 5000 <? usub (millis s) (last_debug s)
             then set_last_debug (millis s) s else s).
  assert (H0 : idle s0 = false)
    by (subst s0; split_match; exact H).
  destruct (serial i) as [c|]; [apply serial_command_busy, H0 | auto].
Qed.

(** C7.  An iteration that changes anything the model owns ran with
    the model active, no gesture active and the potentiometers switched
    off; an iteration that starts with a gesture in progress changes
    nothing the model owns. *)
Theorem smm_advances_only_when_idle i s s' :
  loop rnd P i s = Some s' ->
  (smm_cycle s' <> smm_cycle s ->
   smm_mode_active (poll_serial i s) = true /\
   scroll_active (poll_serial i s) = false /\
   like_active (poll_serial i s) = false /\
   dubious_active (poll_serial i s) = false /\
   knobs_disabled (poll_serial i s) = true) /\
  (idle s = false -> smm_cycle s' = smm_cycle s).
Proof.
  intros H. apply loop_cases in H.
  pose proof (poll_serial_cycle i s) as Hc.
  pose proof (poll_serial_busy i s) as Hb.
  set (s1 := poll_serial i s) in *.
  assert (Hsame : forall x, smm x = smm s1 -> smm_cycle x = smm_cycle s).
  { intros x Hx. rewrite <- Hc. apply smm_cycle_frame, Hx. }
  destruct H as [(Ha & H) | [(Ha & Hl & H) | [(Ha & Hl & Hd & H) | (Hi & s2 & H2 & H)]]].
  - apply executeScroll_frame in H. destruct H as (H & _).
    apply Hsame in H. split; [congruence | auto].
  - subst s'. pose proof (executeLike_frame s1) as (H & _).
    apply Hsame in H. split; [congruence | auto].
  - subst s'. pose proof (executeDubious_frame s1) as (H & _).
    apply Hsame in H. split; [congruence | auto].
  - assert (F2 : moves s2 = moves s1 /\ smm s2 = smm s1).
    { destruct (negb (knobs_disabled s1)).
      - apply potentiometer_control_frame in H2. tauto.
      - inversion H2; auto. }
    destruct F2 as (Fm & Fs).
    destruct (smm_guard s2) eqn:G.
    + unfold smm_guard in G. rewrite Fm, Fs in G. bools.
      split; [auto 10|].
      intros Hbusy. destruct (Hb Hbusy); congruence.
    + inversion H; subst s'. apply Hsame in Fs.
      split; [congruence | auto].
Qed.

Lemma serial_command_keeps_knobs c (s : State) :
  knobs_disabled s = true ->
  ((c =? "r")%char || (c =? "R")%char
   || (((c =? "m")%char || (c =? "M")%char) && smm_mode_active s)) = false ->
  knobs_disabled (serial_command c s) = true.
Proof.
  unfold serial_command. intros Hk Hc.
  apply orb_false_iff in Hc. destruct Hc as (Hr & Hm).
  rewrite Hr.
  repeat split_match; fields; auto.
  cbn in Hm. bools. congruence.
Qed.

Lemma poll_serial_keeps_knobs i (s : State) :
  knobs_disabled s = true -> clears_knobs i s = false ->
  knobs_disabled (poll_serial i s) = true.
Proof.
  unfold poll_serial, clears_knobs. intros Hk Hc.
  set (s0 := if 5000 <? usub (millis s) (last_debug s)
             then set_last_debug (millis s) s else s).
  assert (Hm : moves s0 = moves s) by (subst s0; split_match; reflexivity).
  assert (Hs : smm s0 = smm s) by (subst s0; split_match; reflexivity).
  destruct (serial i) as [c|].
  - apply serial_command_keeps_knobs; rewrite ?Hm, ?Hs; assumption.
  - rewrite Hm. exact Hk.
Qed.

Lemma loop_keeps_knobs i s s' :
  loop rnd P i s = Some s' ->
  knobs_disabled (poll_serial i s) = true -> knobs_disabled s' = true.
Proof.
  intros H Hk. apply loop_cases in H.
  set (s1 := poll_serial i s) in *.
  destruct H as [(Ha & H) | [(Ha & Hl & H) | [(Ha & Hl & Hd & H) | (Hi & s2 & H2 & H)]]].
  - apply executeScroll_flags in H. destruct H as (_ & _ & H & _). congruence.
  - subst s'. pose proof (executeLike_flags s1) as (_ & _ & _ & H & _). auto.
  - subst s'. pose proof (executeDubious_flags s1) as (_ & _ & _ & H & _). auto.
  - rewrite Hk in H2. cbn in H2. inversion H2; subst s2.
    destruct (smm_guard s1).
    + apply smm_execution_flags in H. destruct H as (_ & H & _). auto.
    + inversion H; subst; exact Hk.
Qed.



(* ---------------------------------------------------------------- *)
(** *** The dwell sampler *)
(* ---------------------------------------------------------------- *)

Lemma random_range lo hi (s : State) :
  lo < hi -> lo <= fst (random rnd lo hi s) < hi.
Proof.
  intros H. unfold random.
  replace (hi <=? lo) with false by (symmetry; apply Z.leb_gt; exact H).
  cbn [fst].
  assert (0 <= Z.rem (Z.of_N (rnd (rand_calls s))) (hi - lo) < hi - lo)
    by (apply Z.rem_bound_pos; lia).
  lia.
Qed.

Lemma random_uniform_ok (s : State) :
  numerator_ok (fst (random_uniform rnd s)) = true.
Proof.
  unfold random_uniform.
  pose proof (random_range 0 32768 s eq_refl) as H.
  destruct (random rnd 0 32768 s) as [r s1]. cbn [fst] in *.
  apply (draws_ok_spec (Z.to_nat 32768) 0 r all_draws_ok).
  change (Z.of_nat (Z.to_nat 32768)) with 32768. lia.
Qed.

Lemma sample_exponential_shape rate (s : State) :
  F32.ltb F32.zero rate = true ->
  exists m e,
    fst (sample_exponential rnd rate s) = S754_finite false m e /\
    Zpos m < 2 ^ 24 /\ e <= -19 /\
    F32.leb F32.c0_1 (fst (sample_exponential rnd rate s)) = true /\
    F32.leb (fst (sample_exponential rnd rate s)) MAX_DWELL_TIME = true.
Proof.
  intros Hrate. unfold sample_exponential.
  pose proof (random_uniform_ok s) as Hu.
  destruct (random_uniform rnd s) as [u s1]. cbn [fst] in *.
  apply sample_exponential_of_shape; assumption.
Qed.



(* ---------------------------------------------------------------- *)
(** *** One cycle of the semi-Markov model *)
(* ---------------------------------------------------------------- *)



(** The state an iteration with an empty serial line starts from. *)
Lemma poll_serial_quiet i (s : State) :
  serial i = None ->
  moves (poll_serial i s) = moves s /\ smm (poll_serial i s) = smm s /\
  clock (poll_serial i s) = clock s.
Proof.
  unfold poll_serial. intros ->. split_match; repeat split; reflexivity.
Qed.













End Properties.

(* ================================================================== *)
(** ** Commands, guards and the first cycle *)
(* ================================================================== *)

Section Cycle.
Variable rnd : nat -> N.
Variable P : smm_parameters.

Ltac draw :=
  match goal with
  | |- context [random rnd ?a ?b ?s] =>
      let r := fresh "r" in let s1 := fresh "s" in
      let H := fresh "Hrnd" in
      pose proof (random_frame rnd a b s) as H;
      destruct (random rnd a b s) as [r s1]; cbn [snd fst] in H;
      destruct H as (? & ? & ? & ? & ? & ?)
  end.

Ltac bools :=
  repeat match goal with
  | H : _ && _ = true |- _ => apply andb_prop in H; destruct H
  | H : negb _ = true |- _ => apply negb_true_iff in H
  | H : negb _ = false |- _ => apply negb_false_iff in H
  end.

(* ---------------------------------------------------------------- *)
(** *** The commands that switch the potentiometers *)
(* ---------------------------------------------------------------- *)

Lemma executeLike_knobs (s : State) :
  knobs_disabled (executeLike s) = knobs_disabled s \/
  like_active (executeLike s) = false.
Proof. unfold executeLike, like_next. repeat split_match; finish. Qed.

Lemma executeDubious_knobs (s : State) :
  knobs_disabled (executeDubious rnd s) = knobs_disabled s \/
  dubious_active (executeDubious rnd s) = false.
Proof.
  unfold executeDubious, dubious_wait, dubious_next.
  repeat (first [draw | split_match]); frames; fields; auto.
Qed.

Lemma serial_command_clears c (s : State) :
  ((c =? "r")%char || (c =? "R")%char
   || (((c =? "m")%char || (c =? "M")%char) && smm_mode_active s)) = true ->
  knobs_disabled (serial_command c s) = false.
Proof.
  intros H. apply orb_true_iff in H. destruct H as [H | H].
  - apply orb_true_iff in H.
    destruct H as [H | H]; apply Ascii.eqb_eq in H; subst c; reflexivity.
  - apply andb_prop in H. destruct H as (H & Hm).
    apply orb_true_iff in H.
    destruct H as [H | H]; apply Ascii.eqb_eq in H; subst c;
      unfold serial_command; cbn [Ascii.eqb Bool.eqb orb andb]; fields;
      rewrite Hm; reflexivity.
Qed.

Lemma poll_serial_clears i (s : State) :
  clears_knobs i s = true -> knobs_disabled (poll_serial i s) = false.
Proof.
  unfold poll_serial, clears_knobs. intros Hc.
  set (s0 := if 5000 <? usub (millis s) (last_debug s)
             then set_last_debug (millis s) s else s).
  assert (Hs : smm s0 = smm s) by (subst s0; split_match; reflexivity).
  destruct (serial i) as [c|]; [|discriminate].
  apply serial_command_clears. rewrite Hs. exact Hc.
Qed.

Lemma poll_serial_reset i (s : State) :
  Trace.is_reset i = true -> idle (poll_serial i s) = true.
Proof.
  unfold poll_serial, Trace.is_reset. intros Hr.
  destruct (serial i) as [c|]; [|discriminate].
  apply orb_true_iff in Hr.
  destruct Hr as [H | H]; apply Ascii.eqb_eq in H; subst c; reflexivity.
Qed.

Lemma serial_command_toggle_on c (s : State) :
  c = "m"%char \/ c = "M"%char -> smm_mode_active s = false ->
  knobs_disabled (serial_command c s) = true.
Proof.
  intros [-> | ->] Hm; unfold serial_command;
    cbn [Ascii.eqb Bool.eqb orb andb]; fields; rewrite Hm; reflexivity.
Qed.

Lemma poll_serial_toggle_on i c (s : State) :
  serial i = Some c -> c = "m"%char \/ c = "M"%char ->
  smm_mode_active s = false ->
  knobs_disabled (poll_serial i s) = true.
Proof.
  unfold poll_serial. intros -> Hc Hm.
  apply serial_command_toggle_on; [exact Hc|].
  split_match; exact Hm.
Qed.

(** What an iteration that reads a clearing command leaves behind. *)
Lemma loop_after_clear i (s s' : State) :
  knobs_disabled (poll_serial i s) = false ->
  loop rnd P i s = Some s' ->
  (knobs_disabled s' = true <->
   (like_active (poll_serial i s) = true /\ like_active s' = false) \/
   (dubious_active (poll_serial i s) = true /\ dubious_active s' = false)).
Proof.
  intros Hk H. apply loop_cases in H.
  set (s1 := poll_serial i s) in *.
  destruct H as [(Ha & H) | [(Ha & Hl & H) | [(Ha & Hl & Hd & H) | (Hi & s2 & H2 & H)]]].
  - apply executeScroll_flags in H. destruct H as (Fl & Fd & Fk & _).
    rewrite Fk, Fl, Fd, Hk. split; [discriminate|].
    intros [(A & B) | (A & B)]; congruence.
  - subst s'. pose proof (executeLike_flags s1) as (_ & Fd & _ & _ & Fc).
    pose proof (executeLike_knobs s1) as Fk. rewrite Fd. split.
    + intros Ht. destruct Fk as [Fk | Fk]; [congruence | auto].
    + intros [(_ & B) | (A & B)]; [auto | congruence].
  - subst s'. pose proof (executeDubious_flags rnd s1) as (_ & Fl & _ & _ & Fc).
    pose proof (executeDubious_knobs s1) as Fk. rewrite Fl. split.
    + intros Ht. destruct Fk as [Fk | Fk]; [congruence | auto].
    + intros [(A & B) | (_ & B)]; [congruence | auto].
  - rewrite Hk in H2. cbn [negb] in H2.
    apply potentiometer_control_frame in H2. destruct H2 as (Fm & _).
    assert (G : smm_guard s2 = false)
      by (unfold smm_guard; rewrite Fm, Hk; apply andb_false_r).
    rewrite G in H. inversion H; subst s'.
    unfold idle in Hi. bools. rewrite Fm, Hk. split; [discriminate|].
    intros [(A & B) | (A & B)]; congruence.
Qed.

(** C2, as the code has it.  The iteration that completes a Like or a
    Dubious gesture leaves the potentiometers switched off, and they
    stay off through every run in which no input is the reset command
    or the toggle that switches the model off.  Either of these two
    commands switches the potentiometers on when it is read; the
    iteration that read it ends with them switched off exactly when a
    Like or a Dubious gesture in progress completes in that same
    iteration, which cannot happen after the reset command.  The toggle
    that switches the model on switches the potentiometers off. *)
Theorem knobs_stay_disabled :
  (forall s : State, like_active s = true -> like_active (executeLike s) = false ->
             knobs_disabled (executeLike s) = true) /\
  (forall s : State, dubious_active s = true ->
             dubious_active (executeDubious rnd s) = false ->
             knobs_disabled (executeDubious rnd s) = true) /\
  (forall inputs (s s' : State),
      knobs_disabled s = true -> no_clear rnd P inputs s ->
      run rnd P inputs s = Some s' -> knobs_disabled s' = true) /\
  (forall i (s s' : State),
      clears_knobs i s = true -> loop rnd P i s = Some s' ->
      knobs_disabled (poll_serial i s) = false /\
      (knobs_disabled s' = true <->
       (like_active (poll_serial i s) = true /\ like_active s' = false) \/
       (dubious_active (poll_serial i s) = true /\
        dubious_active s' = false)) /\
      (Trace.is_reset i = true -> knobs_disabled s' = false)) /\
  (forall i c (s s' : State),
      serial i = Some c -> c = "m"%char \/ c = "M"%char ->
      smm_mode_active s = false -> loop rnd P i s = Some s' ->
      knobs_disabled (poll_serial i s) = true /\ knobs_disabled s' = true).
Proof.
  split; [|split; [|split; [|split]]].
  - intros s H1 H2. pose proof (executeLike_flags s) as (_ & _ & _ & _ & H). auto.
  - intros s H1 H2. pose proof (executeDubious_flags rnd s) as (_ & _ & _ & _ & H). auto.
  - induction inputs as [|i rest IH]; cbn [run no_clear]; intros s s' Hk Hn Hr.
    + inversion Hr; subst; exact Hk.
    + destruct Hn as (Hc & Hn). inv_some.
      apply (IH s0 s'); [| apply Hn; reflexivity | exact Hr].
      unfold iteration in E. apply loop_keeps_knobs in E; [exact E|].
      apply poll_serial_keeps_knobs; [exact Hk | exact Hc].
  - intros i s s' Hc H.
    pose proof (poll_serial_clears i s Hc) as Hk.
    pose proof (loop_after_clear i s s' Hk H) as Hiff.
    split; [exact Hk|]. split; [exact Hiff|].
    intros Hr. apply (poll_serial_reset i s) in Hr.
    unfold idle in Hr. bools.
    destruct (knobs_disabled s') eqn:Hk'; [|reflexivity].
    destruct Hiff as (Hiff & _).
    destruct (Hiff eq_refl) as [(A & _) | (A & _)]; congruence.
  - intros i c s s' Hser Hc Hm H.
    pose proof (poll_serial_toggle_on i c s Hser Hc Hm) as Hk.
    split; [exact Hk|]. apply (loop_keeps_knobs rnd P i s s' H Hk).
Qed.

(* ---------------------------------------------------------------- *)
(** *** A step number outside its [switch] *)
(* ---------------------------------------------------------------- *)

Lemma executeLike_out_of_range (s : State) :
  ~ 0 <= like_step s < 5 ->
  like_step_delay <= usub (millis s) (last_step_time s) ->
  executeLike s = like_next (millis s) s.
Proof.
  intros Hr Hd. unfold executeLike. apply Z.leb_le in Hd. rewrite Hd.
  destruct (like_step s) as [|p|p]; [lia| |reflexivity].
  destruct p as [[[r|r|]|[r|r|]|]|[[r|r|]|[r|r|]|]|]; try reflexivity; lia.
Qed.

Lemma executeDubious_out_of_range (s : State) :
  ~ 0 <= dubious_step s < 8 ->
  dubious_step_delay <= usub (millis s) (last_step_time s) ->
  executeDubious rnd s = dubious_next (millis s) s.
Proof.
  intros Hr Hd. unfold executeDubious. apply Z.leb_le in Hd. rewrite Hd.
  destruct (dubious_step s) as [|p|p]; [lia| |reflexivity].
  destruct p as [[[r|r|]|[r|r|]|]|[[r|r|]|[r|r|]|]|]; try reflexivity; lia.
Qed.

Lemma executeScroll_out_of_range (s : State) :
  5 <= scroll_step s ->
  exists s',
    executeScroll s = Some s' /\
    scroll_active s' = scroll_active s /\
    scroll_step s' = scroll_step s + 1 /\
    step_in_progress s' = false /\
    servo_log s' = servo_log s.
Proof.
  intros Hr. unfold executeScroll, updateServoPositions.
  assert (Hge : (5 <=? scroll_step s) = true) by (apply Z.leb_le; exact Hr).
  assert (Hm : forall x : State,
             moves x = moves s -> step_in_progress x = false ->
             servo_log x = servo_log s ->
             exists s',
               (if negb (step_in_progress x)
                then
                  match scroll_step x with
                  | 0 =>
                      d <- aget scroll_step_delays (scroll_step x) ;;
                      Some (scroll_next (smoothMoveServos 142 142 d x))
                  | 1 =>
                      d <- aget scroll_step_delays (scroll_step x) ;;
                      Some (scroll_next (smoothMoveServos 110 142 d x))
                  | 2 =>
                      d <- aget scroll_step_delays (scroll_step x) ;;
                      Some (scroll_next (smoothMoveServos 90 100 d x))
                  | 3 =>
                      d <- aget scroll_step_delays (scroll_step x) ;;
                      Some (scroll_next (smoothMoveServos 147 100 d x))
                  | 4 => Some (set_scroll_step 0 (set_scroll_active false x))
                  | _ => Some (scroll_next x)
                  end
                else Some x) = Some s' /\
               scroll_active s' = scroll_active s /\
               scroll_step s' = scroll_step s + 1 /\
               step_in_progress s' = false /\
               servo_log s' = servo_log s).
  { intros x Hx Hp Hl. rewrite Hp. cbn [negb]. rewrite Hx.
    exists (scroll_next x). split.
    - destruct (scroll_step s) as [|p|p]; [lia| |lia].
      destruct p as [[[r|r|]|[r|r|]|]|[[r|r|]|[r|r|]|]|]; try reflexivity; lia.
    - unfold scroll_next. fields. rewrite Hx, Hp, Hl. auto. }
  destruct (step_in_progress s) eqn:Hp; cbn [negb bind].
  - rewrite Hge. cbn [bind]. apply Hm; reflexivity.
  - apply Hm; [reflexivity | exact Hp | reflexivity].
Qed.

(** C4, as the code has it.  [updateServoPositions], called with a move
    in progress and [scroll_step] at 5 or more, clears the in-progress
    flag and touches nothing else; and in every reachable state the
    three step numbers lie inside their [switch].  None of the three
    sequencers guards its own step number: met with it outside the
    [switch] (and, for Like and Dubious, the step delay elapsed),
    [executeScroll], [executeLike] and [executeDubious] each write no
    servo, leave the gesture active and move the step number on by
    one. *)
Theorem step_index_guard (s : State) :
  (step_in_progress s = true -> 5 <= scroll_step s ->
   updateServoPositions s = Some (set_step_in_progress false s)) /\
  (reachable rnd P s ->
   0 <= scroll_step s < 5 /\ 0 <= like_step s < 5 /\ 0 <= dubious_step s < 8) /\
  (5 <= scroll_step s ->
   exists s',
     executeScroll s = Some s' /\
     scroll_active s' = scroll_active s /\
     scroll_step s' = scroll_step s + 1 /\
     step_in_progress s' = false /\
     servo_log s' = servo_log s) /\
  (~ 0 <= like_step s < 5 ->
   like_step_delay <= usub (millis s) (last_step_time s) ->
   executeLike s = like_next (millis s) s /\
   like_active (executeLike s) = like_active s /\
   like_step (executeLike s) = like_step s + 1 /\
   servo_log (executeLike s) = servo_log s) /\
  (~ 0 <= dubious_step s < 8 ->
   dubious_step_delay <= usub (millis s) (last_step_time s) ->
   executeDubious rnd s = dubious_next (millis s) s /\
   dubious_active (executeDubious rnd s) = dubious_active s /\
   dubious_step (executeDubious rnd s) = dubious_step s + 1 /\
   servo_log (executeDubious rnd s) = servo_log s).
Proof.
  split; [|split; [|split; [|split]]].
  - intros Hp Hs. unfold updateServoPositions. rewrite Hp. cbn [negb].
    apply Z.leb_le in Hs. rewrite Hs. reflexivity.
  - intros H. apply reachable_inv in H. apply H.
  - apply executeScroll_out_of_range.
  - intros Hr Hd. rewrite (executeLike_out_of_range s Hr Hd).
    unfold like_next. fields. auto.
  - intros Hr Hd. rewrite (executeDubious_out_of_range s Hr Hd).
    unfold dubious_next. fields. auto.
Qed.

(* ---------------------------------------------------------------- *)
(** *** The first action of the model *)
(* ---------------------------------------------------------------- *)








End Cycle.

(* ================================================================== *)
(** ** The sketch on the example board *)
(* ================================================================== *)

Lemma run_reachable rnd P inputs : forall s s',
  reachable rnd P s -> run rnd P inputs s = Some s' -> reachable rnd P s'.
Proof.
  induction inputs as [|i rest IH]; cbn [run]; intros s s' Hs H.
  - inversion H; subst; exact Hs.
  - destruct (iteration rnd P i s) as [s1|] eqn:E; cbn [bind] in H;
      [|discriminate].
    apply (IH s1 s'); [|exact H]. exact (reach_loop rnd P i s s1 Hs E).
Qed.



(** Closed facts, by evaluation of the sketch. *)
Ltac evaluate :=
  repeat match goal with |- _ /\ _ => split end; vm_compute; reflexivity.

(** *** C1: the Like variant that runs *)

(** C1 fails on the code.  The model fires the Like action and the coin
    selects the second variant; the five iterations that follow write the
    positions of [executeLike], the first variant, and end the gesture.
    [executeLike2] would have opened with Y=152, Z=110. *)
Theorem like_variant_two_runs_variant_one :
  let s := Trace.after Trace.model_fires in
  run Example.rnd Example.parameters Trace.model_fires Example.start = Some s /\
  like_active s = true /\ use_like2_variant s = true /\
  exists s',
    run Example.rnd Example.parameters (repeat (Example.quiet 100) 5) s
      = Some s' /\
    like_active s' = false /\ use_like2_variant s' = true /\
    servo_log s' =
      servo_log s ++ [(myservo_y, 140); (myservo_z, 120); (myservo_y, 120);
                      (myservo_y, 140); (myservo_y, 120); (myservo_y, 140)] /\
    servo_log (executeLike2 (delay 100 s)) =
      servo_log s ++ [(myservo_y, 152); (myservo_z, 110)].
Proof.
  cbv zeta. do 3 (split; [vm_compute; reflexivity|]).
  eexists. split; [vm_compute; reflexivity|]. evaluate.
Qed.

(** *** C3: the duration of an interpolated move *)

Lemma smoothMoveServos_ignores_duration y z d1 d2 s :
  smoothMoveServos y z d1 s = smoothMoveServos y z d2 s.
Proof. reflexivity. Qed.

(** C3 fails on the code.  The first Scroll move is requested by
    [smoothMoveServos(142, 142, 200)], 200 being [scroll_step_delays[0]].
    The interpolator times it with [scroll_step_delays[1]] = 300 ms, the
    entry of the step number already incremented: 200 ms after the start
    the position is (155, 94) and the move is still in progress. *)
Theorem scroll_move_outlasts_request :
  let s1 := Trace.after [Example.command 10 "s"] in
  run Example.rnd Example.parameters [Example.command 10 "s"] Example.start
    = Some s1 /\
  s1 = scroll_next
         (smoothMoveServos 142 142 200
            (poll_serial (Example.command 10 "s") (delay 10 Example.start))) /\
  step_in_progress s1 = true /\ step_start_time s1 = clock s1 /\
  target_y s1 = 142 /\ target_z s1 = 142 /\
  exists s2,
    iteration Example.rnd Example.parameters (Example.quiet 200) s1 = Some s2 /\
    usub (clock s2) (step_start_time s2) = 200 /\
    current_y s2 = 155 /\ current_z s2 = 94 /\
    step_in_progress s2 = true.
Proof.
  cbv zeta. do 6 (split; [vm_compute; reflexivity|]).
  eexists. split; [vm_compute; reflexivity|]. evaluate.
Qed.

(** *** C2: the toggle re-enables the potentiometers *)

(** C2 fails as stated: after a completed Like gesture, switching the model
    on and off again re-enables the potentiometers although no input of the
    run is the reset command. *)
Lemma toggle_off_enables_knobs :
  let s1 := Trace.after Trace.like_gesture in
  let s2 := Trace.after (Trace.like_gesture ++ Trace.toggle_twice) in
  run Example.rnd Example.parameters Trace.like_gesture Example.start = Some s1 /\
  like_active s1 = false /\ knobs_disabled s1 = true /\
  run Example.rnd Example.parameters Trace.toggle_twice s1 = Some s2 /\
  existsb Trace.is_reset (Trace.like_gesture ++ Trace.toggle_twice) = false /\
  knobs_disabled s2 = false.
Proof. cbv zeta. evaluate. Qed.

(** The toggle that switches the model off while Like takes its last
    step: the step switches the potentiometers off again in the same
    iteration. *)
Lemma toggle_off_at_last_step :
  let inputs :=
    Trace.model_fires ++ repeat (Example.quiet 100) 4
      ++ [Example.command 100 "m"] in
  let s := Trace.after inputs in
  run Example.rnd Example.parameters inputs Example.start = Some s /\
  smm_mode_active s = false /\ like_active s = false /\
  knobs_disabled s = true.
Proof. cbv zeta. evaluate. Qed.

Lemma knobs_stay_disabled_witness :
  knobs_disabled (executeLike Trace.like_last_step) = true /\
  knobs_disabled
    (Trace.after (Trace.like_gesture ++ [Example.command 10 "m"])) = true /\
  (knobs_disabled (poll_serial (Example.command 0 "m") Trace.model_on)
     = false /\
   knobs_disabled (Trace.step (Example.command 0 "m") Trace.model_on)
     = false) /\
  knobs_disabled (Trace.step (Example.command 0 "r") Trace.model_on)
    = false /\
  knobs_disabled (Trace.step (Example.command 0 "M") Example.start) = true.
Proof.
  destruct (knobs_stay_disabled Example.rnd Example.parameters)
    as (Hlike & _ & Hrun & Hclear & Hon).
  split; [|split; [|split; [|split]]].
  - apply Hlike; vm_compute; reflexivity.
  - apply (Hrun [Example.command 10 "m"] (Trace.after Trace.like_gesture)).
    + vm_compute; reflexivity.
    + cbn [no_clear]. split; [vm_compute; reflexivity | intros; exact I].
    + vm_compute; reflexivity.
  - destruct (Hclear (Example.command 0 "m") Trace.model_on
                (Trace.step (Example.command 0 "m") Trace.model_on))
      as (H1 & H2 & _).
    + vm_compute; reflexivity.
    + vm_compute; reflexivity.
    + split; [exact H1|].
      destruct (knobs_disabled
                  (Trace.step (Example.command 0 "m") Trace.model_on))
        eqn:Hk; [|reflexivity].
      destruct H2 as (H2 & _).
      destruct (H2 eq_refl) as [(A & _) | (A & _)];
        vm_compute in A; discriminate A.
  - destruct (Hclear (Example.command 0 "r") Trace.model_on
                (Trace.step (Example.command 0 "r") Trace.model_on))
      as (_ & _ & H3).
    + vm_compute; reflexivity.
    + vm_compute; reflexivity.
    + apply H3. vm_compute; reflexivity.
  - destruct (Hon (Example.command 0 "M") "M"%char Example.start
                (Trace.step (Example.command 0 "M") Example.start))
      as (_ & H).
    + reflexivity.
    + right; reflexivity.
    + vm_compute; reflexivity.
    + vm_compute; reflexivity.
    + exact H.
Defined.

(** *** C4: a step number outside its [switch] *)

(** C4 fails as stated: [executeLike], met with [like_step] = 5 once the
    step delay has passed, keeps the gesture active and moves the step
    number on to 6. *)
Lemma like_step_out_of_range_advances :
  like_active Trace.like_out_of_range = true /\
  like_step Trace.like_out_of_range = 5 /\
  (like_step_delay <=? usub (millis Trace.like_out_of_range)
                            (last_step_time Trace.like_out_of_range)) = true /\
  like_active (executeLike Trace.like_out_of_range) = true /\
  like_step (executeLike Trace.like_out_of_range) = 6.
Proof. evaluate. Qed.

Lemma step_index_guard_witness :
  updateServoPositions Trace.scroll_out_of_range
    = Some (set_step_in_progress false Trace.scroll_out_of_range) /\
  (0 <= scroll_step (Trace.after Trace.like_gesture) < 5 /\
   0 <= like_step (Trace.after Trace.like_gesture) < 5 /\
   0 <= dubious_step (Trace.after Trace.like_gesture) < 8) /\
  (exists s',
     executeScroll Trace.scroll_out_of_range = Some s' /\
     scroll_active s' = scroll_active Trace.scroll_out_of_range /\
     scroll_step s' = scroll_step Trace.scroll_out_of_range + 1 /\
     step_in_progress s' = false /\
     servo_log s' = servo_log Trace.scroll_out_of_range) /\
  (like_active (executeLike Trace.like_out_of_range)
     = like_active Trace.like_out_of_range /\
   like_step (executeLike Trace.like_out_of_range)
     = like_step Trace.like_out_of_range + 1) /\
  (dubious_active (executeDubious Example.rnd Trace.dubious_out_of_range)
     = dubious_active Trace.dubious_out_of_range /\
   dubious_step (executeDubious Example.rnd Trace.dubious_out_of_range)
     = dubious_step Trace.dubious_out_of_range + 1).
Proof.
  split; [|split; [|split; [|split]]].
  - apply (step_index_guard Example.rnd Example.parameters
             Trace.scroll_out_of_range).
    + vm_compute; reflexivity.
    + vm_compute; discriminate.
  - apply (step_index_guard Example.rnd Example.parameters
             (Trace.after Trace.like_gesture)).
    apply (run_reachable Example.rnd Example.parameters Trace.like_gesture
             Example.start).
    + apply reach_setup.
    + vm_compute; reflexivity.
  - apply (step_index_guard Example.rnd Example.parameters
             Trace.scroll_out_of_range).
    vm_compute; discriminate.
  - destruct (step_index_guard Example.rnd Example.parameters
                Trace.like_out_of_range) as (_ & _ & _ & H & _).
    destruct H as (_ & H1 & H2 & _).
    + intros (_ & H). vm_compute in H. discriminate H.
    + vm_compute; discriminate.
    + split; assumption.
  - destruct (step_index_guard Example.rnd Example.parameters
                Trace.dubious_out_of_range) as (_ & _ & _ & _ & H).
    destruct H as (_ & H1 & H2 & _).
    + intros (_ & H). vm_compute in H. discriminate H.
    + vm_compute; discriminate.
    + split; assumption.
Defined.

(** *** C6: which counter moves *)



(** *** The remaining statements at concrete states *)


Lemma smm_advances_only_when_idle_witness :
  let s := delay 600 (Trace.after [Example.command 10 "m"]) in
  smm_mode_active (poll_serial (Example.quiet 600) s) = true /\
  scroll_active (poll_serial (Example.quiet 600) s) = false /\
  like_active (poll_serial (Example.quiet 600) s) = false /\
  dubious_active (poll_serial (Example.quiet 600) s) = false /\
  knobs_disabled (poll_serial (Example.quiet 600) s) = true.
Proof.
  cbv zeta.
  destruct (smm_advances_only_when_idle Example.rnd Example.parameters
              (Example.quiet 600)
              (delay 600 (Trace.after [Example.command 10 "m"]))
              (Trace.after Trace.model_fires)) as (H & _).
  - vm_compute; reflexivity.
  - apply H. vm_compute. discriminate.
Defined.


Lemma one_gesture_at_a_time_witness :
  (active_count (Trace.after [Example.command 10 "l"]) <= 1)%nat.
Proof.
  apply (one_gesture_at_a_time Example.rnd Example.parameters).
  apply (run_reachable Example.rnd Example.parameters
           [Example.command 10 "l"] Example.start).
  - apply reach_setup.
  - vm_compute; reflexivity.
Defined.

Lemma smm_mode_disables_knobs_witness :
  let s := Trace.after [Example.command 10 "m"] in
  knobs_disabled s = true /\
  knobs_disabled
    (poll_serial (Example.quiet 10)
       (delay (since_last (Example.quiet 10)) s)) = true.
Proof.
  cbv zeta.
  destruct (smm_mode_disables_knobs Example.rnd Example.parameters
              (Trace.after [Example.command 10 "m"])) as (H1 & H2).
  - apply (run_reachable Example.rnd Example.parameters
             [Example.command 10 "m"] Example.start).
    + apply reach_setup.
    + vm_compute; reflexivity.
  - split.
    + apply H1. vm_compute; reflexivity.
    + apply (H2 (Example.quiet 10)). vm_compute; reflexivity.
Defined.

(* ================================================================== *)
(** ** Arrays and the interpolator *)
(* ================================================================== *)

Lemma all_from_spec n f : forall k0 k,
  all_from n k0 f = true -> k0 <= k < k0 + Z.of_nat n -> f k = true.
Proof.
  induction n as [|n IH]; intros k0 k H Hk; [lia|].
  cbn [all_from] in H. apply andb_prop in H. destruct H as (H0 & H1).
  destruct (Z.eq_dec k k0) as [-> | Hne]; [exact H0|].
  apply (IH (k0 + 1)); [exact H1 | lia].
Qed.

Lemma offsets_along_spec duration diff n : forall e0 prev,
  offsets_along n diff e0 duration prev = true ->
  forall e, e0 <= e < e0 + Z.of_nat n ->
  exists d,
    interpolation_offset diff e duration = Some d /\
    offset_bounded diff d = true /\
    Z.abs prev <= Z.abs d /\
    (forall e' d', e <= e' < e0 + Z.of_nat n ->
       interpolation_offset diff e' duration = Some d' ->
       Z.abs d <= Z.abs d').
Proof.
  induction n as [|n IH]; intros e0 prev H e He; [lia|].
  cbn [offsets_along] in H.
  destruct (interpolation_offset diff e0 duration) as [d0|] eqn:E0;
    [|discriminate].
  apply andb_prop in H. destruct H as (H & Hrest).
  apply andb_prop in H. destruct H as (Hb & Hp). apply Z.leb_le in Hp.
  destruct (Z.eq_dec e e0) as [-> | Hne].
  - exists d0. repeat split; try assumption.
    intros e' d' He' E'.
    destruct (Z.eq_dec e' e0) as [-> | Hne'].
    + rewrite E0 in E'. inversion E'; subst. lia.
    + destruct (IH (e0 + 1) d0 Hrest e') as (d'' & E'' & _ & Hle & _); [lia|].
      rewrite E' in E''. inversion E''; subst. exact Hle.
  - destruct (IH (e0 + 1) d0 Hrest e) as (d & E & Hbd & Hle & Hmono); [lia|].
    exists d. repeat split; try assumption; [lia|].
    intros e' d' He' E'. apply (Hmono e' d'); [lia | exact E'].
Qed.

Lemma offsets_ok_200 : offsets_ok 200 = true.
Proof. vm_cast_no_check (@eq_refl bool true). Qed.

Lemma offsets_ok_300 : offsets_ok 300 = true.
Proof. vm_cast_no_check (@eq_refl bool true). Qed.

(** Inside a move between two servo angles the offset exists, keeps the
    sign of the difference without passing it, and never shrinks. *)
Lemma interpolation_offset_spec diff elapsed duration :
  -180 <= diff <= 180 -> duration = 200 \/ duration = 300 ->
  0 <= elapsed < duration ->
  exists d,
    interpolation_offset diff elapsed duration = Some d /\
    offset_bounded diff d = true /\
    (forall e' d', elapsed <= e' < duration ->
       interpolation_offset diff e' duration = Some d' ->
       Z.abs d <= Z.abs d').
Proof.
  intros Hd Hdur He.
  assert (H : offsets_ok duration = true)
    by (destruct Hdur as [-> | ->]; [apply offsets_ok_200 | apply offsets_ok_300]).
  unfold offsets_ok in H.
  pose proof (all_from_spec _ _ (-180) diff H) as H1. cbv beta in H1.
  assert (Hr : -180 <= diff < -180 + Z.of_nat (Z.to_nat 361)) by lia.
  specialize (H1 Hr).
  destruct (offsets_along_spec duration diff _ 0 0 H1 elapsed)
    as (d & E & Hb & _ & Hm); [destruct Hdur as [-> | ->]; lia|].
  exists d. repeat split; try assumption.
  intros e' d' He' E'. apply (Hm e' d'); [|exact E'].
  destruct Hdur as [-> | ->]; lia.
Qed.

(* ------------------------------------------------------------------ *)
(** *** Arrays *)
(* ------------------------------------------------------------------ *)

Lemma aget_in_range {A : Type} (l : list A) i :
  0 <= i < Z.of_nat (length l) -> exists v, aget l i = Some v.
Proof.
  intros H. unfold aget.
  replace (i <? 0) with false by (symmetry; apply Z.ltb_ge; lia).
  destruct (nth_error l (Z.to_nat i)) as [v|] eqn:E; [eauto|].
  apply nth_error_None in E. lia.
Qed.

Lemma aget_some {A : Type} (l : list A) i v :
  aget l i = Some v -> 0 <= i < Z.of_nat (length l).
Proof.
  unfold aget. destruct (i <? 0) eqn:E; [discriminate|].
  apply Z.ltb_ge in E. intros H.
  assert (nth_error l (Z.to_nat i) <> None) by congruence.
  apply nth_error_Some in H0. lia.
Qed.

Lemma length_lset {A : Type} (l : list A) : forall n v,
  length (lset l n v) = length l.
Proof.
  induction l as [|h t IH]; intros [|n] v; cbn [lset length]; auto.
Qed.

Lemma length_aset {A : Type} (l : list A) i v :
  length (aset l i v) = length l.
Proof. apply length_lset. Qed.

Lemma sumZ_lset (l : list Z) : forall n old v,
  nth_error l n = Some old -> sumZ (lset l n v) = sumZ l - old + v.
Proof.
  induction l as [|h t IH]; intros [|n] old v H; cbn in H; try discriminate.
  - inversion H; subst. cbn. lia.
  - cbn [lset sumZ fold_right]. fold (sumZ (lset t n v)). fold (sumZ t).
    rewrite (IH n old v H). lia.
Qed.

Lemma sumZ_aset (l : list Z) i old v :
  aget l i = Some old -> sumZ (aset l i v) = sumZ l - old + v.
Proof.
  unfold aget, aset. destruct (i <? 0); [discriminate|]. apply sumZ_lset.
Qed.

Lemma Forall_lset {A : Type} (Q : A -> Prop) (l : list A) : forall n v,
  Forall Q l -> Q v -> Forall Q (lset l n v).
Proof.
  induction l as [|h t IH]; intros [|n] v Hl Hv; cbn [lset]; auto;
    inversion Hl; subst; constructor; auto.
Qed.

Lemma Forall_aset {A : Type} (Q : A -> Prop) (l : list A) i v :
  Forall Q l -> Q v -> Forall Q (aset l i v).
Proof. apply Forall_lset. Qed.

Lemma Forall_nth_error {A : Type} (Q : A -> Prop) (l : list A) n v :
  Forall Q l -> nth_error l n = Some v -> Q v.
Proof.
  intros Hl H. apply nth_error_In in H. rewrite Forall_forall in Hl. auto.
Qed.

Lemma sumZ_bounds (l : list Z) lo hi :
  Forall (fun v => lo <= v <= hi) l ->
  lo * Z.of_nat (length l) <= sumZ l <= hi * Z.of_nat (length l).
Proof.
  induction 1 as [|v t Hv Ht IH]; cbn [sumZ fold_right length]; [lia|].
  fold (sumZ t). rewrite Nat2Z.inj_succ. nia.
Qed.

Lemma sumZ_repeat v n : sumZ (repeat v n) = v * Z.of_nat n.
Proof.
  induction n as [|n IH]; cbn [repeat sumZ fold_right]; [lia|].
  fold (sumZ (repeat v n)). rewrite IH. lia.
Qed.

(** Arduino's [map()] takes a reading to a servo angle. *)
Lemma map_range_angle v : analog v -> servo_angle (map_range v 0 1023 0 180).
Proof.
  unfold analog, servo_angle, map_range. intros H.
  rewrite Z.sub_0_r, Z.add_0_r. change (180 - 0) with 180. change (1023 - 0) with 1023.
  rewrite Z.quot_div_nonneg by lia.
  split.
  - apply Z.div_pos; lia.
  - apply Z.div_le_upper_bound; lia.
Qed.

(* ================================================================== *)
(** ** What every reachable state satisfies *)
(* ================================================================== *)

Section Invariants.
Variable rnd : nat -> N.
Variable P : smm_parameters.

Ltac draw :=
  match goal with
  | |- context [random rnd ?a ?b ?s] =>
      let r := fresh "r" in let s1 := fresh "s" in
      let H := fresh "Hrnd" in
      pose proof (random_frame rnd a b s) as H;
      destruct (random rnd a b s) as [r s1]; cbn [snd fst] in H;
      destruct H as (? & ? & ? & ? & ? & ?)
  end.

Ltac bools :=
  repeat match goal with
  | H : _ && _ = true |- _ => apply andb_prop in H; destruct H
  | H : negb _ = true |- _ => apply negb_true_iff in H
  | H : negb _ = false |- _ => apply negb_false_iff in H
  end.

(* ------------------------------------------------------------------ *)
(** *** The potentiometers *)
(* ------------------------------------------------------------------ *)

Lemma setup_pots y z : pots_consistent (setup y z boot).
Proof.
  unfold pots_consistent, setup, boot, num_readings. fields.
  rewrite !repeat_length, !sumZ_repeat.
  change (Z.of_nat (Z.to_nat 5)) with 5. repeat split; reflexivity || lia.
Qed.

Lemma average_analog (l : list Z) :
  length l = 5%nat -> Forall analog l -> analog (Z.quot (sumZ l) num_readings).
Proof.
  intros Hl Hf. pose proof (sumZ_bounds l 0 1023 Hf) as H. rewrite Hl in H.
  change (Z.of_nat 5) with 5 in H. unfold analog, num_readings.
  rewrite Z.quot_div_nonneg by lia. split.
  - apply Z.div_pos; lia.
  - apply Z.div_le_upper_bound; lia.
Qed.

Lemma potentiometer_control_spec i (s : State) :
  pots_consistent s ->
  exists s' w,
    potentiometer_control i s = Some s' /\
    pots_consistent s' /\
    servo_log s' = servo_log s ++ w /\
    clock s' = uadd (clock s) 15 /\
    (readings_in_range s -> input_in_range i ->
     readings_in_range s' /\
     Forall (fun x : servo_write => servo_angle (snd x)) w).
Proof.
  intros (Ly & Lz & Hi & Ty & Tz).
  destruct (aget_in_range (readings_y s) (read_index s)) as (oy & Ey);
    [rewrite Ly; lia|].
  destruct (aget_in_range (readings_z s) (read_index s)) as (oz & Ez);
    [rewrite Lz; lia|].
  unfold potentiometer_control. rewrite Ey. cbn [bind]. fields.
  rewrite Ez. cbn [bind]. fields.
  set (ry := aset (readings_y s) (read_index s) (pot_y i)).
  set (rz := aset (readings_z s) (read_index s) (pot_z i)).
  assert (Sy : total_y s - oy + pot_y i = sumZ ry)
    by (subst ry; rewrite (sumZ_aset _ _ oy) by exact Ey; lia).
  assert (Sz : total_z s - oz + pot_z i = sumZ rz)
    by (subst rz; rewrite (sumZ_aset _ _ oz) by exact Ez; lia).
  assert (Lry : length ry = 5%nat) by (subst ry; rewrite length_aset; exact Ly).
  assert (Lrz : length rz = 5%nat) by (subst rz; rewrite length_aset; exact Lz).
  assert (Hangles : readings_in_range s -> input_in_range i ->
            (Forall analog ry /\ Forall analog rz) /\
            servo_angle (map_range (Z.quot (sumZ ry) num_readings) 0 1023 0 180) /\
            servo_angle (map_range (Z.quot (sumZ rz) num_readings) 0 1023 0 180)).
  { intros (Ry & Rz) (Iy & Iz).
    assert (Fy : Forall analog ry) by (subst ry; apply Forall_aset; assumption).
    assert (Fz : Forall analog rz) by (subst rz; apply Forall_aset; assumption).
    repeat split; try assumption;
      apply map_range_angle, average_analog; assumption. }
  rewrite Sy, Sz.
  destruct (num_readings <=? read_index s + 1) eqn:Hwrap; fields;
    destruct (map_range (Z.quot (sumZ ry) num_readings) 0 1023 0 180
              =? prev_angle_y s) eqn:Hy; fields;
    destruct (map_range (Z.quot (sumZ rz) num_readings) 0 1023 0 180
              =? prev_angle_z s) eqn:Hz; fields;
    (eexists; eexists; split; [reflexivity|]);
    unfold pots_consistent, readings_in_range, delay; fields;
    (split; [unfold num_readings in Hwrap;
             try apply Z.leb_le in Hwrap; try apply Z.leb_gt in Hwrap;
             repeat split; auto; lia|]);
    (split; [rewrite <- ?app_assoc; try reflexivity;
             symmetry; apply app_nil_r|]);
    (split; [reflexivity|]);
    intros Hr Hin; destruct (Hangles Hr Hin) as (Hf & Ay & Az);
    (split; [exact Hf|]);
    repeat first [apply Forall_nil | apply Forall_cons]; cbn [snd]; assumption.
Qed.

(* ------------------------------------------------------------------ *)
(** *** The interpolator *)
(* ------------------------------------------------------------------ *)

Lemma offset_bounded_spec diff d :
  offset_bounded diff d = true ->
  (0 <= diff -> 0 <= d <= diff) /\ (diff <= 0 -> diff <= d <= 0).
Proof.
  unfold offset_bounded. destruct (0 <=? diff) eqn:E; intros H;
    apply andb_prop in H; destruct H as (H1 & H2);
    apply Z.leb_le in H1, H2;
    [apply Z.leb_le in E | apply Z.leb_gt in E]; lia.
Qed.

Lemma scroll_step_duration (s : State) :
  0 <= scroll_step s < 5 ->
  exists duration,
    aget scroll_step_delays (scroll_step s) = Some duration /\
    (duration = 0 \/ duration = 200 \/ duration = 300).
Proof.
  intros H.
  assert (C : scroll_step s = 0 \/ scroll_step s = 1 \/ scroll_step s = 2 \/
              scroll_step s = 3 \/ scroll_step s = 4) by lia.
  destruct C as [-> | [-> | [-> | [-> | ->]]]]; eexists; (split; [reflexivity|]); auto.
Qed.

Lemma updateServoPositions_spec (s : State) :
  positions_in_range s -> position_between s -> 0 <= scroll_step s < 5 ->
  exists s' w,
    updateServoPositions s = Some s' /\
    positions_in_range s' /\ position_between s' /\
    start_y s' = start_y s /\ start_z s' = start_z s /\
    target_y s' = target_y s /\ target_z s' = target_z s /\
    servo_log s' = servo_log s ++ w /\
    Forall (fun x : servo_write => servo_angle (snd x)) w /\
    clock s' = clock s.
Proof.
  intros Hpos Hbet Hstep.
  unfold updateServoPositions.
  destruct (step_in_progress s) eqn:Hp; cbn [negb];
    [|exists s, []; rewrite app_nil_r;
      split; [reflexivity|]; split; [assumption|]; split; [assumption|];
      repeat (split; [reflexivity|]); split; [constructor | reflexivity]].
  replace (5 <=? scroll_step s) with false by (symmetry; apply Z.leb_gt; lia).
  destruct (scroll_step_duration s Hstep) as (duration & -> & Hdur).
  cbn [bind]. unfold millis.
  set (elapsed := usub (clock s) (step_start_time s)).
  assert (He : 0 <= elapsed)
    by (subst elapsed; unfold usub, ulong, ULONG_MOD; apply Z.mod_pos_bound; lia).
  destruct Hpos as (Cy & Cz & Sy & Sz & Ty & Tz).
  unfold servo_angle in *.
  destruct (duration <=? elapsed) eqn:Hle.
  - eexists. exists [(myservo_y, target_y s); (myservo_z, target_z s)].
    split; [reflexivity|]. unfold positions_in_range, position_between, servo_angle.
    fields. rewrite <- ?app_assoc. repeat split; try lia;
      repeat first [apply Forall_nil | apply Forall_cons]; cbn [snd]; lia.
  - apply Z.leb_gt in Hle.
    assert (Hd : duration = 200 \/ duration = 300) by lia.
    destruct (interpolation_offset_spec (target_y s - start_y s) elapsed duration)
      as (dy & Ey & By & _); [lia | exact Hd | lia |].
    destruct (interpolation_offset_spec (target_z s - start_z s) elapsed duration)
      as (dz & Ez & Bz & _); [lia | exact Hd | lia |].
    unfold interpolation_offset in Ey, Ez.
    rewrite Ey. cbn [bind]. fields. rewrite Ez. cbn [bind]. fields.
    apply offset_bounded_spec in By, Bz.
    eexists. exists [(myservo_y, start_y s + dy); (myservo_z, start_z s + dz)].
    split; [reflexivity|]. unfold positions_in_range, position_between, servo_angle.
    fields. rewrite <- ?app_assoc. repeat split; try lia;
      repeat first [apply Forall_nil | apply Forall_cons]; cbn [snd]; lia.
Qed.

Lemma executeScroll_spec (s : State) :
  positions_in_range s -> position_between s -> 0 <= scroll_step s < 5 ->
  exists s' w,
    executeScroll s = Some s' /\
    positions_in_range s' /\ position_between s' /\
    servo_log s' = servo_log s ++ w /\
    Forall (fun x : servo_write => servo_angle (snd x)) w.
Proof.
  intros Hpos Hbet Hstep.
  destruct (updateServoPositions_spec s Hpos Hbet Hstep)
    as (s1 & w & H1 & Hpos1 & Hbet1 & _ & _ & _ & _ & Hlog & Hw & _).
  pose proof (updateServoPositions_frame s s1 H1) as (_ & Hm & _).
  unfold executeScroll. rewrite H1. cbn [bind].
  destruct (step_in_progress s1); cbn [negb];
    [exists s1, w; split; [reflexivity|]; split; [exact Hpos1|];
     split; [exact Hbet1|]; split; [exact Hlog | exact Hw]|].
  assert (C : scroll_step s1 = 0 \/ scroll_step s1 = 1 \/ scroll_step s1 = 2 \/
              scroll_step s1 = 3 \/ scroll_step s1 = 4) by (rewrite Hm; lia).
  destruct Hpos1 as (Cy & Cz & Sy & Sz & Ty & Tz).
  destruct Hbet1 as (By & Bz).
  unfold servo_angle in *.
  destruct C as [C | [C | [C | [C | C]]]]; rewrite C; cbn [aget Z.ltb Z.compare
    Z.to_nat Pos.to_nat Pos.iter_op Nat.add nth_error scroll_step_delays bind];
    (eexists; exists w; split; [reflexivity|]);
    unfold scroll_next, smoothMoveServos, positions_in_range, position_between,
      servo_angle; fields;
    repeat split; try assumption; lia.
Qed.

Lemma executeLike_log (s : State) :
  exists w, servo_log (executeLike s) = servo_log s ++ w /\
            Forall (fun x : servo_write => servo_angle (snd x)) w.
Proof.
  unfold executeLike, like_next.
  repeat split_match; fields; rewrite <- ?app_assoc; cbn [app];
    try (exists []; rewrite app_nil_r; split; [reflexivity | constructor]);
    (eexists; split; [reflexivity|]);
    repeat first [apply Forall_nil | apply Forall_cons];
    unfold servo_angle; cbn [snd]; lia.
Qed.

Lemma executeDubious_log (s : State) :
  exists w, servo_log (executeDubious rnd s) = servo_log s ++ w /\
            Forall (fun x : servo_write => servo_angle (snd x)) w.
Proof.
  unfold executeDubious, dubious_wait, dubious_next.
  repeat (first [draw | split_match]); fields;
    repeat match goal with H : servo_log _ = servo_log _ |- _ => rewrite H end;
    rewrite <- ?app_assoc; cbn [app];
    try (exists []; rewrite app_nil_r; split; [reflexivity | apply Forall_nil]);
    (eexists; split; [reflexivity|]);
    repeat first [apply Forall_nil | apply Forall_cons];
    unfold servo_angle; cbn [snd]; lia.
Qed.

(* ------------------------------------------------------------------ *)
(** *** The semi-Markov model *)
(* ------------------------------------------------------------------ *)

Lemma smm_consistent_cycle (s s' : State) :
  smm_cycle s' = smm_cycle s -> smm_consistent s -> smm_consistent s'.
Proof.
  unfold smm_cycle, smm_consistent. intros H.
  injection H as _ _ _ He Hc _ Hd Ht _.
  rewrite He, Hc, Hd, Ht. auto.
Qed.

Lemma count_one_more sum n :
  ulong (ulong sum + 1) = ulong (sum - n + ulong (n + 1)).
Proof.
  unfold ulong. rewrite Zplus_mod_idemp_l, Zplus_mod_idemp_r.
  f_equal. lia.
Qed.

Lemma execute_smm_action_spec a (s : State) :
  smm_consistent s ->
  a = ACTION_SCROLL \/ a = ACTION_LIKE \/ a = ACTION_DUBIOUS_SCROLL ->
  exists s',
    execute_smm_action rnd a s = Some s' /\
    smm_consistent s' /\
    servo_log s' = servo_log s /\ smooth s' = smooth s /\ pots s' = pots s.
Proof.
  intros (Lt & Ld & Hc & He) Ha.
  destruct (aget_in_range (state_transitions s) (current_state s)) as (n & En);
    [rewrite Lt; lia|].
  unfold execute_smm_action. fields. rewrite En. cbn [bind].
  assert (Hcount : uadd (event_counter s) 1 =
            ulong (sumZ (aset (state_transitions s) (current_state s) (uadd n 1)))).
  { rewrite (sumZ_aset _ _ n) by exact En. rewrite He. unfold uadd.
    apply count_one_more. }
  destruct Ha as [-> | [-> | ->]];
    cbn [Z.eqb ACTION_SCROLL ACTION_LIKE ACTION_DUBIOUS_SCROLL Pos.eqb];
    try draw; (eexists; split; [reflexivity|]);
    unfold smm_consistent, STATE_AFTER_SCROLL, STATE_AFTER_LIKE,
      STATE_AFTER_DUBIOUS; frames; fields; rewrite ?length_aset;
    repeat split; try assumption; try lia.
Qed.

Lemma smm_execution_spec (s : State) :
  smm_consistent s -> params_ok P ->
  exists s',
    smm_execution rnd P s = Some s' /\
    smm_consistent s' /\
    servo_log s' = servo_log s /\ smooth s' = smooth s /\ pots s' = pots s.
Proof.
  intros Hs (Lr & Lm & Lps & Lpl & Hpos).
  pose proof Hs as (Lt & Ld & Hc & He).
  unfold smm_execution. destruct (smm_waiting s); cbn [negb].
  - destruct (smm_wait_duration s <=? usub (millis s) (smm_wait_start s));
      [|exists s; auto].
    fields. unfold select_next_action.
    pose proof (random_uniform_frame rnd (set_smm_waiting false s)) as F.
    destruct (random_uniform rnd (set_smm_waiting false s)) as [r s1].
    cbn [snd] in F. destruct F as (Fm & Fs & Fo & Fp & Fc & Fl).
    destruct (aget_in_range (CUM_PROB_SCROLL_BY_STATE P) (current_state s))
      as (ps & ->); [rewrite Lps; lia|].
    destruct (aget_in_range (CUM_PROB_LIKE_BY_STATE P) (current_state s))
      as (pl & ->); [rewrite Lpl; lia|].
    cbn [bind].
    assert (Hs1 : smm_consistent s1).
    { unfold smm_consistent. rewrite Fs. fields. exact Hs. }
    assert (Hgo : forall a,
               a = ACTION_SCROLL \/ a = ACTION_LIKE \/ a = ACTION_DUBIOUS_SCROLL ->
               exists s',
                 execute_smm_action rnd a s1 = Some s' /\
                 smm_consistent s' /\
                 servo_log s' = servo_log s /\ smooth s' = smooth s /\
                 pots s' = pots s).
    { intros a Ha.
      destruct (execute_smm_action_spec a s1 Hs1 Ha) as (s' & H1 & H2 & H3 & H4 & H5).
      exists s'. rewrite H3, H4, H5, Fl, Fo, Fp. auto. }
    destruct (F32.ltb r ps); [apply Hgo; auto|].
    destruct (F32.ltb r pl); apply Hgo; auto.
  - destruct (aget_in_range (DWELL_RATE_BY_STATE P) (current_state s))
      as (rate & Erate); [rewrite Lr; lia|].
    destruct (aget_in_range (MEAN_DWELL_BY_STATE P) (current_state s))
      as (mean & ->); [rewrite Lm; lia|].
    destruct (aget_in_range (total_dwell_by_state s) (current_state s))
      as (d & Ed); [rewrite Ld; lia|].
    assert (Hrate : F32.ltb F32.zero rate = true).
    { unfold aget in Erate. destruct (current_state s <? 0); [discriminate|].
      apply (Forall_nth_error _ _ _ _ Hpos Erate). }
    rewrite Erate. cbn [bind].
    destruct (sample_exponential_shape rnd rate s Hrate)
      as (m & e & Hshape & Hm & Hexp & _).
    pose proof (sample_exponential_frame rnd rate s) as F.
    destruct (sample_exponential rnd rate s) as [dwell_time s1].
    cbn [fst snd] in Hshape, F. destruct F as (Fm & Fs & Fo & Fp & Fc & Fl).
    subst dwell_time. fields. rewrite Fs, Ed. cbn [bind]. fields.
    destruct (mul_1000_defined m e Hm Hexp) as (ms & -> & _). cbn [bind].
    eexists. split; [reflexivity|].
    unfold smm_consistent. frames. fields. rewrite ?length_aset. auto 10.
Qed.

Lemma execute_smm_action_consistent a (s s' : State) :
  execute_smm_action rnd a s = Some s' ->
  smm_consistent s ->
  smm_consistent s' /\
  servo_log s' = servo_log s /\ smooth s' = smooth s /\ pots s' = pots s.
Proof.
  intros H (Lt & Ld & Hc & He).
  unfold execute_smm_action in H. fields.
  destruct (aget (state_transitions s) (current_state s)) as [n|] eqn:En;
    cbn [bind] in H; [|discriminate].
  assert (Hcount : uadd (event_counter s) 1 =
            ulong (sumZ (aset (state_transitions s) (current_state s) (uadd n 1)))).
  { rewrite (sumZ_aset _ _ n) by exact En. rewrite He. unfold uadd.
    apply count_one_more. }
  destruct (a =? ACTION_SCROLL);
    [|destruct (a =? ACTION_LIKE);
      [|destruct (a =? ACTION_DUBIOUS_SCROLL)]];
    try match goal with
        | H : context [random rnd ?x ?y ?z] |- _ =>
            let F := fresh "F" in
            pose proof (random_frame rnd x y z) as F;
            destruct (random rnd x y z) as [r s1]; cbn [snd] in F;
            destruct F as (? & ? & ? & ? & ? & ?)
        end;
    inversion H; subst s'; clear H;
    unfold smm_consistent, STATE_AFTER_SCROLL, STATE_AFTER_LIKE,
      STATE_AFTER_DUBIOUS; frames; fields; rewrite ?length_aset;
    repeat split; try assumption; try lia.
Qed.

Lemma smm_execution_consistent (s s' : State) :
  smm_execution rnd P s = Some s' ->
  smm_consistent s ->
  smm_consistent s' /\
  servo_log s' = servo_log s /\ smooth s' = smooth s /\ pots s' = pots s.
Proof.
  intros H Hs. unfold smm_execution in H.
  destruct (smm_waiting s); cbn [negb] in H.
  - destruct (smm_wait_duration s <=? usub (millis s) (smm_wait_start s));
      [|inversion H; subst; auto].
    inv_some. destruct p as [a s1].
    apply select_next_action_frame in E.
    destruct E as (_ & Fm & Fs & Fo & Fp & Fc & Fl).
    assert (Hs1 : smm_consistent s1).
    { unfold smm_consistent. rewrite Fs. fields. exact Hs. }
    destruct (execute_smm_action_consistent a s1 s' H Hs1) as (H2 & H3 & H4 & H5).
    rewrite H3, H4, H5, Fl, Fo, Fp. auto.
  - inv_some.
    pose proof (sample_exponential_frame rnd f s) as F.
    destruct (sample_exponential rnd f s) as [dwell_time s1].
    cbn [snd] in F. destruct F as (Fm & Fs & Fo & Fp & Fc & Fl).
    inv_some. destruct Hs as (Lt & Ld & Hc & He).
    unfold smm_consistent. frames. fields. rewrite ?length_aset. auto 10.
Qed.

(* ------------------------------------------------------------------ *)
(** *** One iteration *)
(* ------------------------------------------------------------------ *)

Lemma poll_serial_well_formed i (s : State) :
  well_formed s ->
  well_formed (poll_serial i s) /\
  servo_log (poll_serial i s) = servo_log s /\
  pots (poll_serial i s) = pots s.
Proof.
  intros (Hp & Hpos & Hb & Hs & Hr).
  pose proof (poll_serial_frame i s) as (Fp & Fo & _ & Fl).
  pose proof (poll_serial_cycle i s) as Fc.
  pose proof (poll_serial_inv i s) as (_ & _ & Fr).
  split; [|auto].
  unfold well_formed, pots_consistent, positions_in_range, position_between.
  rewrite Fp, Fo.
  split; [exact Hp|]. split; [exact Hpos|]. split; [exact Hb|].
  split; [exact (smm_consistent_cycle _ _ Fc Hs) | exact (Fr Hr)].
Qed.

(** [loop()] keeps the state well formed and writes servo angles only. *)
Lemma loop_well_formed i (s s' : State) :
  loop rnd P i s = Some s' -> well_formed s ->
  well_formed s' /\
  exists w,
    servo_log s' = servo_log s ++ w /\
    (readings_in_range s -> input_in_range i ->
     readings_in_range s' /\
     Forall (fun x : servo_write => servo_angle (snd x)) w).
Proof.
  intros H Hwf. apply loop_cases in H.
  destruct (poll_serial_well_formed i s Hwf) as (Hwf1 & Hl1 & Hp1).
  set (s1 := poll_serial i s) in *.
  assert (Hread : readings_in_range s -> readings_in_range s1)
    by (unfold readings_in_range; rewrite Hp1; auto).
  rewrite <- Hl1.
  destruct Hwf1 as (Hp & Hpos & Hb & Hs & Hr).
  destruct H as [(Ha & H) | [(Ha & Hl & H) | [(Ha & Hl & Hd & H) | (Hi & s2 & H2 & H)]]].
  - destruct (executeScroll_spec s1 Hpos Hb (proj1 Hr))
      as (s'' & w & E & Hpos' & Hb' & Hlog & Hw).
    rewrite H in E. inversion E; subst s''.
    pose proof (executeScroll_frame _ _ H) as (Fs & Fp).
    pose proof (executeScroll_steps _ _ H Hr) as Hr'.
    split.
    + unfold well_formed, pots_consistent, smm_consistent. rewrite Fs, Fp.
      auto.
    + exists w. split; [exact Hlog|]. intros Hrd _. split; [|exact Hw].
      unfold readings_in_range. rewrite Fp. apply Hread, Hrd.
  - subst s'. pose proof (executeLike_frame s1) as (Fs & Fo & Fp).
    pose proof (executeLike_steps s1 Hr) as Hr'.
    destruct (executeLike_log s1) as (w & Hlog & Hw).
    split.
    + unfold well_formed, pots_consistent, smm_consistent, positions_in_range,
        position_between. rewrite Fs, Fo, Fp. auto.
    + exists w. split; [exact Hlog|]. intros Hrd _. split; [|exact Hw].
      unfold readings_in_range. rewrite Fp. apply Hread, Hrd.
  - subst s'. pose proof (executeDubious_frame rnd s1) as (Fs & Fo & Fp).
    pose proof (executeDubious_steps rnd s1 Hr) as Hr'.
    destruct (executeDubious_log s1) as (w & Hlog & Hw).
    split.
    + unfold well_formed, pots_consistent, smm_consistent, positions_in_range,
        position_between. rewrite Fs, Fo, Fp. auto.
    + exists w. split; [exact Hlog|]. intros Hrd _. split; [|exact Hw].
      unfold readings_in_range. rewrite Fp. apply Hread, Hrd.
  - assert (H2' : exists w,
              pots_consistent s2 /\ moves s2 = moves s1 /\ smm s2 = smm s1 /\
              smooth s2 = smooth s1 /\ servo_log s2 = servo_log s1 ++ w /\
              (readings_in_range s -> input_in_range i ->
               readings_in_range s2 /\
               Forall (fun x : servo_write => servo_angle (snd x)) w)).
    { destruct (negb (knobs_disabled s1)).
      - destruct (potentiometer_control_spec i s1 Hp)
          as (s'' & w & E & Hp' & Hlog & _ & Hrange).
        rewrite H2 in E. inversion E; subst s''.
        apply potentiometer_control_frame in H2. destruct H2 as (F1 & F2 & F3).
        exists w. split; [exact Hp'|]. split; [exact F1|]. split; [exact F2|].
        split; [exact F3|]. split; [exact Hlog|].
        intros Hrd Hin. apply Hrange; auto.
      - inversion H2; subst s2. exists []. rewrite app_nil_r.
        split; [exact Hp|]. do 4 (split; [reflexivity|]).
        intros Hrd _. split; [auto | constructor]. }
    destruct H2' as (w & Hp2 & Fm & Fs & Fo & Hlog & Hrange).
    assert (Hwf2 : well_formed s2).
    { unfold well_formed, smm_consistent, positions_in_range, position_between,
        steps_in_range. rewrite Fm, Fs, Fo. auto. }
    destruct (smm_guard s2).
    + destruct Hwf2 as (_ & Hpos2 & Hb2 & Hs2 & Hr2).
      destruct (smm_execution_consistent s2 s' H Hs2) as (Hs' & Hl' & Ho' & Hp').
      apply smm_execution_flags in H. destruct H as (_ & _ & _ & Hr' & _).
      split.
      * unfold well_formed.
        split; [unfold pots_consistent; rewrite Hp'; exact Hp2|].
        split; [unfold positions_in_range; rewrite Ho'; exact Hpos2|].
        split; [unfold position_between; rewrite Ho'; exact Hb2|].
        split; [exact Hs' | exact (Hr' Hr2)].
      * exists w. rewrite Hl'. split; [exact Hlog|].
        unfold readings_in_range. rewrite Hp'. exact Hrange.
    + inversion H; subst s'. split; [exact Hwf2|].
      exists w. auto.
Qed.

Lemma loop_defined i (s : State) :
  well_formed s -> params_ok P -> exists s', loop rnd P i s = Some s'.
Proof.
  intros Hwf HP.
  destruct (poll_serial_well_formed i s Hwf) as ((Hp & Hpos & Hb & Hs & Hr) & _).
  unfold loop. set (s1 := poll_serial i s) in *.
  destruct (scroll_active s1).
  { destruct (executeScroll_spec s1 Hpos Hb (proj1 Hr)) as (s' & _ & E & _).
    eauto. }
  destruct (like_active s1); [eauto|].
  destruct (dubious_active s1); [eauto|].
  assert (H2 : exists s2,
            (if negb (knobs_disabled s1) then potentiometer_control i s1
             else Some s1) = Some s2 /\ smm_consistent s2).
  { destruct (negb (knobs_disabled s1)); [|eauto].
    destruct (potentiometer_control_spec i s1 Hp) as (s2 & _ & E & _).
    exists s2. split; [exact E|].
    apply potentiometer_control_frame in E. destruct E as (_ & Fs & _).
    unfold smm_consistent. rewrite Fs. exact Hs. }
  destruct H2 as (s2 & -> & Hs2). cbn [bind].
  destruct (smm_guard s2); [|eauto].
  destruct (smm_execution_spec s2 Hs2 HP) as (s' & E & _). eauto.
Qed.

Lemma setup_well_formed y z : well_formed (setup y z boot).
Proof.
  split; [apply setup_pots|].
  unfold positions_in_range, position_between, smm_consistent, steps_in_range,
    servo_angle, setup, boot. fields.
  repeat split; try lia; reflexivity.
Qed.

Lemma delay_well_formed n (s : State) : well_formed s -> well_formed (delay n s).
Proof. intros H. exact H. Qed.

Lemma reachable_well_formed (s : State) : reachable rnd P s -> well_formed s.
Proof.
  induction 1 as [y z | i s s' _ IH H].
  - apply setup_well_formed.
  - unfold iteration in H.
    apply (loop_well_formed i _ s' H), delay_well_formed, IH.
Qed.

(* ------------------------------------------------------------------ *)
(** *** Statements *)
(* ------------------------------------------------------------------ *)

(** One call of the interpolator with a move in progress: it finishes the
    move on the target, or writes start plus offset. *)
Lemma updateServoPositions_tick (s s' : State) :
  step_in_progress s = true -> 0 <= scroll_step s < 5 ->
  updateServoPositions s = Some s' ->
  exists duration,
    aget scroll_step_delays (scroll_step s) = Some duration /\
    start_y s' = start_y s /\ start_z s' = start_z s /\
    target_y s' = target_y s /\ target_z s' = target_z s /\
    step_start_time s' = step_start_time s /\ clock s' = clock s /\
    ((duration <= usub (clock s) (step_start_time s) /\
      current_y s' = target_y s /\ current_z s' = target_z s /\
      step_in_progress s' = false /\
      servo_log s' =
        servo_log s ++ [(myservo_y, target_y s); (myservo_z, target_z s)]) \/
     (usub (clock s) (step_start_time s) < duration /\
      step_in_progress s' = true /\
      exists dy dz,
        interpolation_offset (target_y s - start_y s)
          (usub (clock s) (step_start_time s)) duration = Some dy /\
        interpolation_offset (target_z s - start_z s)
          (usub (clock s) (step_start_time s)) duration = Some dz /\
        current_y s' = start_y s + dy /\ current_z s' = start_z s + dz /\
        servo_log s' =
          servo_log s ++ [(myservo_y, start_y s + dy);
                          (myservo_z, start_z s + dz)])).
Proof.
  intros Hp Hstep H. unfold updateServoPositions in H.
  rewrite Hp in H. cbn [negb] in H.
  replace (5 <=? scroll_step s) with false in H
    by (symmetry; apply Z.leb_gt; lia).
  destruct (scroll_step_duration s Hstep) as (duration & E & _).
  rewrite E in H. cbn [bind] in H. unfold millis in H.
  exists duration. split; [exact E|].
  destruct (duration <=? usub (clock s) (step_start_time s)) eqn:Hle.
  - apply Z.leb_le in Hle. inversion H; subst s'. fields.
    rewrite <- app_assoc. cbn [app]. do 6 (split; [reflexivity|]).
    left. auto.
  - apply Z.leb_gt in Hle.
    fold (interpolation_offset (target_y s - start_y s)
            (usub (clock s) (step_start_time s)) duration) in H.
    destruct (interpolation_offset (target_y s - start_y s)
                (usub (clock s) (step_start_time s)) duration) as [dy|];
      cbn [bind] in H; [|discriminate].
    fields.
    fold (interpolation_offset (target_z s - start_z s)
            (usub (clock s) (step_start_time s)) duration) in H.
    destruct (interpolation_offset (target_z s - start_z s)
                (usub (clock s) (step_start_time s)) duration) as [dz|];
      cbn [bind] in H; [|discriminate].
    inversion H; subst s'. fields.
    rewrite <- app_assoc. cbn [app]. do 6 (split; [reflexivity|]).
    right. split; [exact Hle|]. split; [exact Hp|].
    exists dy, dz. auto.
Qed.

(** X1.  With tables of three entries and dwell rates above zero, no
    iteration of [loop()] from a reachable state reads an array out of
    bounds or converts a float that does not fit: every iteration runs to
    its end. *)
Theorem loop_never_undefined i (s : State) :
  params_ok P -> reachable rnd P s ->
  exists s', iteration rnd P i s = Some s'.
Proof.
  intros HP H. unfold iteration.
  apply loop_defined; [|exact HP].
  apply delay_well_formed, reachable_well_formed, H.
Qed.

Lemma run_in_range inputs : forall s s' : State,
  well_formed s -> readings_in_range s -> log_in_range s ->
  Forall input_in_range inputs ->
  run rnd P inputs s = Some s' -> log_in_range s'.
Proof.
  induction inputs as [|i rest IH]; intros s s' Hwf Hr Hl Hin H; cbn [run] in H.
  - inversion H; subst; exact Hl.
  - inversion Hin as [|? ? Hi Hrest]; subst.
    destruct (iteration rnd P i s) as [s1|] eqn:E; cbn [bind] in H;
      [|discriminate].
    unfold iteration in E.
    destruct (loop_well_formed i _ s1 E (delay_well_formed _ s Hwf))
      as (Hwf1 & w & Hlog & Hrange).
    destruct (Hrange Hr Hi) as (Hr1 & Hw).
    apply (IH s1 s'); try assumption.
    unfold log_in_range. rewrite Hlog. apply Forall_app. split; assumption.
Qed.

(** X2.  While [analogRead] returns values from 0 to 1023, every angle the
    sketch writes to a servo, in [setup()] and in any run of [loop()],
    lies between 0 and 180. *)
Theorem servo_writes_in_range y0 z0 inputs (s : State) :
  analog y0 -> analog z0 -> Forall input_in_range inputs ->
  run rnd P inputs (setup y0 z0 boot) = Some s ->
  Forall (fun w : servo_write => 0 <= snd w <= 180) (servo_log s).
Proof.
  intros Hy Hz Hin H.
  apply (run_in_range inputs (setup y0 z0 boot) s); try assumption.
  - apply setup_well_formed.
  - unfold readings_in_range, setup, boot. fields.
    split; apply Forall_forall; intros v Hv; apply repeat_spec in Hv;
      subst; assumption.
  - unfold log_in_range, setup, boot, servo_angle. fields.
    repeat first [apply Forall_nil | apply Forall_cons]; cbn [snd]; lia.
Qed.

(** X3.  In every reachable state the start, target and current positions
    of both axes are servo angles, and the current position lies between
    the start and the target of the move. *)
Theorem position_stays_between (s : State) :
  reachable rnd P s ->
  (0 <= start_y s <= 180 /\ 0 <= start_z s <= 180) /\
  (0 <= target_y s <= 180 /\ 0 <= target_z s <= 180) /\
  (0 <= current_y s <= 180 /\ 0 <= current_z s <= 180) /\
  Z.min (start_y s) (target_y s) <= current_y s
    <= Z.max (start_y s) (target_y s) /\
  Z.min (start_z s) (target_z s) <= current_z s
    <= Z.max (start_z s) (target_z s).
Proof.
  intros H. apply reachable_well_formed in H.
  destruct H as (_ & (Cy & Cz & Sy & Sz & Ty & Tz) & (By & Bz) & _).
  unfold servo_angle in *. auto 10.
Qed.

(** X4.  Two successive calls of the interpolator inside one move: the
    second leaves both axes at least as close to the target as the first
    did. *)
Theorem interpolation_progress dt (s s1 s2 : State) :
  positions_in_range s -> 0 <= scroll_step s < 5 ->
  step_in_progress s = true ->
  updateServoPositions s = Some s1 ->
  step_in_progress s1 = true ->
  usub (clock s) (step_start_time s)
    <= usub (uadd (clock s) dt) (step_start_time s) ->
  updateServoPositions (delay dt s1) = Some s2 ->
  Z.abs (target_y s - current_y s2) <= Z.abs (target_y s - current_y s1) /\
  Z.abs (target_z s - current_z s2) <= Z.abs (target_z s - current_z s1).
Proof.
  intros Hpos Hstep Hp H1 Hp1 Hlater H2.
  pose proof (updateServoPositions_frame s s1 H1) as (_ & Fm & _).
  destruct (updateServoPositions_tick s s1 Hp Hstep H1)
    as (duration & Ed & Sy & Sz & Ty & Tz & St & Ck & [Hdone | Hrun]).
  { destruct Hdone as (_ & _ & _ & Hf & _). congruence. }
  destruct Hrun as (He1 & _ & dy & dz & Ey & Ez & Cy & Cz & _).
  assert (Hstep1 : 0 <= scroll_step (delay dt s1) < 5)
    by (unfold delay; fields; rewrite Fm; exact Hstep).
  destruct (updateServoPositions_tick (delay dt s1) s2 Hp1 Hstep1 H2)
    as (duration' & Ed' & _ & _ & _ & _ & _ & _ & Hcase).
  unfold delay in Ed', Hcase. fields. rewrite Fm in Ed'.
  rewrite Ed in Ed'. inversion Ed'; subst duration'.
  rewrite Sy, Sz, Ty, Tz, St, Ck in Hcase.
  destruct Hpos as (_ & _ & Hsy & Hsz & Hty & Htz). unfold servo_angle in *.
  assert (Hd : duration = 200 \/ duration = 300).
  { destruct (scroll_step_duration s Hstep) as (d & Ed2 & Hd).
    rewrite Ed in Ed2. inversion Ed2; subst d.
    assert (0 <= usub (clock s) (step_start_time s))
      by (unfold usub, ulong, ULONG_MOD; apply Z.mod_pos_bound; lia).
    lia. }
  assert (He0 : 0 <= usub (clock s) (step_start_time s))
    by (unfold usub, ulong, ULONG_MOD; apply Z.mod_pos_bound; lia).
  destruct (interpolation_offset_spec (target_y s - start_y s)
              (usub (clock s) (step_start_time s)) duration)
    as (dy0 & Ey0 & By & My); [lia | exact Hd | lia |].
  destruct (interpolation_offset_spec (target_z s - start_z s)
              (usub (clock s) (step_start_time s)) duration)
    as (dz0 & Ez0 & Bz & Mz); [lia | exact Hd | lia |].
  rewrite Ey in Ey0. inversion Ey0; subst dy0.
  rewrite Ez in Ez0. inversion Ez0; subst dz0.
  apply offset_bounded_spec in By, Bz.
  destruct Hcase as [(_ & -> & -> & _) | (He2 & _ & dy2 & dz2 & Ey2 & Ez2 & -> & -> & _)].
  - rewrite !Z.sub_diag. cbn [Z.abs]. split; apply Z.abs_nonneg.
  - pose proof (My _ dy2 (conj Hlater He2) Ey2) as Hmy.
    pose proof (Mz _ dz2 (conj Hlater He2) Ez2) as Hmz.
    destruct (interpolation_offset_spec (target_y s - start_y s)
                (usub (uadd (clock s) dt) (step_start_time s)) duration)
      as (dy3 & Ey3 & By3 & _); [lia | exact Hd | lia |].
    destruct (interpolation_offset_spec (target_z s - start_z s)
                (usub (uadd (clock s) dt) (step_start_time s)) duration)
      as (dz3 & Ez3 & Bz3 & _); [lia | exact Hd | lia |].
    rewrite Ey2 in Ey3. inversion Ey3; subst dy3.
    rewrite Ez2 in Ez3. inversion Ez3; subst dz3.
    apply offset_bounded_spec in By3, Bz3.
    rewrite Cy, Cz. lia.
Qed.

(** X5.  In every reachable state each smoothing window holds five
    readings, [read_index] points inside it, and [total_y] and [total_z]
    are the sums of the readings they average. *)
Theorem moving_sum_consistent (s : State) :
  reachable rnd P s ->
  length (readings_y s) = 5%nat /\ length (readings_z s) = 5%nat /\
  0 <= read_index s < 5 /\
  total_y s = sumZ (readings_y s) /\ total_z s = sumZ (readings_z s).
Proof. intros H. apply reachable_well_formed in H. apply H. Qed.

(** X6.  In every reachable state [current_state] is one of the three
    states, both statistics arrays keep three entries, and the event
    counter equals the sum of the three transition counters modulo
    2^32. *)
Theorem statistics_consistent (s : State) :
  reachable rnd P s ->
  length (state_transitions s) = 3%nat /\
  length (total_dwell_by_state s) = 3%nat /\
  0 <= current_state s < 3 /\
  event_counter s = ulong (sumZ (state_transitions s)).
Proof. intros H. apply reachable_well_formed in H. apply H. Qed.

End Invariants.

(* ================================================================== *)
(** ** A gesture from command to rest *)
(* ================================================================== *)

Section Gestures.
Variable rnd : nat -> N.
Variable P : smm_parameters.

Lemma usub_uadd c dt l : usub (uadd c dt) l = ulong (usub c l + dt).
Proof.
  unfold usub, uadd, ulong.
  rewrite Zminus_mod_idemp_l, Zplus_mod_idemp_l. f_equal. lia.
Qed.

Lemma usub_self c : usub c c = 0.
Proof. unfold usub, ulong. rewrite Z.sub_diag. reflexivity. Qed.

Lemma usub_uadd_self c p : 0 <= p < ULONG_MOD -> usub (uadd c p) c = p.
Proof.
  intros H. rewrite usub_uadd, usub_self. unfold ulong.
  apply Z.mod_small. lia.
Qed.

Lemma ulong_small z : 0 <= z < ULONG_MOD -> ulong z = z.
Proof. apply Z.mod_small. Qed.

(** The time since the last step once [i] has been waited for. *)
Lemma gate_after i (s : State) lo p :
  quiet_after lo i -> usub (clock s) (last_step_time s) = p -> 0 <= p <= 2000 ->
  0 <= lo ->
  usub (clock (poll_serial i (delay (since_last i) s)))
       (last_step_time (poll_serial i (delay (since_last i) s)))
    = p + since_last i.
Proof.
  intros (Hser & Hdt) Hp Hrange Hlo.
  destruct (poll_serial_quiet i (delay (since_last i) s) Hser) as (Hm & _ & Hc).
  rewrite Hm, Hc. fields. rewrite usub_uadd, Hp.
  apply ulong_small. unfold ULONG_MOD.
  assert (2 ^ 31 + 2000 < 2 ^ 32) by reflexivity. lia.
Qed.

Lemma iteration_like i (s : State) :
  serial i = None -> scroll_active s = false -> like_active s = true ->
  iteration rnd P i s
    = Some (executeLike (poll_serial i (delay (since_last i) s))).
Proof.
  intros Hser Hs Hl. unfold iteration, loop.
  destruct (poll_serial_quiet i (delay (since_last i) s) Hser) as (Hm & _).
  rewrite Hm. fields. rewrite Hs, Hl. reflexivity.
Qed.

Lemma like_step_runs i (s : State) k :
  quiet_after 100 i ->
  scroll_active s = false -> like_active s = true ->
  like_step s = k -> 0 <= k < 4 ->
  0 <= usub (clock s) (last_step_time s) <= 100 ->
  exists s',
    iteration rnd P i s = Some s' /\
    scroll_active s' = false /\ like_active s' = true /\
    like_step s' = k + 1 /\
    0 <= usub (clock s') (last_step_time s') <= 100 /\
    servo_log s' = servo_log s ++ like_writes k /\
    knobs_disabled s' = knobs_disabled s /\
    dubious_active s' = dubious_active s /\ smm s' = smm s.
Proof.
  intros Hq Hs Hl Hk Hr Hp.
  pose proof (gate_after i s 100 _ Hq eq_refl) as Hg.
  destruct Hq as (Hser & Hdt).
  rewrite (iteration_like i s Hser Hs Hl).
  destruct (poll_serial_quiet i (delay (since_last i) s) Hser) as (Hm & Hsm & Hc).
  pose proof (poll_serial_frame i (delay (since_last i) s)) as (_ & _ & _ & Hlog).
  set (s1 := poll_serial i (delay (since_last i) s)) in *.
  eexists. split; [reflexivity|].
  unfold executeLike, like_next. unfold millis.
  replace (like_step_delay <=? usub (clock s1) (last_step_time s1)) with true
    by (symmetry; apply Z.leb_le; unfold like_step_delay; lia).
  rewrite Hm. fields. rewrite Hk.
  assert (C : k = 0 \/ k = 1 \/ k = 2 \/ k = 3) by lia.
  destruct C as [-> | [-> | [-> | ->]]]; cbn [like_writes]; unfold delay; fields;
    rewrite ?Hm, ?Hsm, ?Hlog, ?Hc; fields; rewrite <- ?app_assoc; cbn [app];
    rewrite ?usub_self, ?usub_uadd_self by (unfold ULONG_MOD; lia);
    repeat split; try assumption; try reflexivity; lia.
Qed.

Lemma like_last_step_runs i (s : State) :
  quiet_after 100 i ->
  scroll_active s = false -> like_active s = true ->
  like_step s = 4 ->
  0 <= usub (clock s) (last_step_time s) <= 100 ->
  exists s',
    iteration rnd P i s = Some s' /\
    scroll_active s' = false /\ like_active s' = false /\
    like_step s' = 0 /\ knobs_disabled s' = true /\
    servo_log s' = servo_log s ++ [(myservo_y, 140)] /\
    dubious_active s' = dubious_active s /\ smm s' = smm s.
Proof.
  intros Hq Hs Hl Hk Hp.
  pose proof (gate_after i s 100 _ Hq eq_refl) as Hg.
  destruct Hq as (Hser & Hdt).
  rewrite (iteration_like i s Hser Hs Hl).
  destruct (poll_serial_quiet i (delay (since_last i) s) Hser) as (Hm & Hsm & Hc).
  pose proof (poll_serial_frame i (delay (since_last i) s)) as (_ & _ & _ & Hlog).
  set (s1 := poll_serial i (delay (since_last i) s)) in *.
  eexists. split; [reflexivity|].
  unfold executeLike. unfold millis.
  replace (like_step_delay <=? usub (clock s1) (last_step_time s1)) with true
    by (symmetry; apply Z.leb_le; unfold like_step_delay; lia).
  rewrite Hm. fields. rewrite Hk. fields.
  rewrite ?Hm, ?Hsm, ?Hlog. fields. auto 10.
Qed.

Lemma serial_command_like c (s : State) :
  c = "l"%char \/ c = "L"%char -> idle s = true ->
  serial_command c s =
  set_last_step_time (millis s)
    (set_like_step 0 (set_knobs_disabled true (set_like_active true s))).
Proof.
  intros [-> | ->] H; unfold serial_command;
    cbn [Ascii.eqb Bool.eqb orb andb]; fields; rewrite H; reflexivity.
Qed.

(** The iteration that reads the Like command starts the gesture and
    runs none of its steps. *)
Lemma like_command_runs i c (s : State) :
  serial i = Some c -> c = "l"%char \/ c = "L"%char -> idle s = true ->
  exists s',
    iteration rnd P i s = Some s' /\
    scroll_active s' = false /\ like_active s' = true /\
    like_step s' = 0 /\ usub (clock s') (last_step_time s') = 0 /\
    servo_log s' = servo_log s /\
    dubious_active s' = false /\ smm s' = smm s.
Proof.
  intros Hser Hc Hidle. unfold iteration, loop, poll_serial. rewrite Hser.
  set (s0 := if 5000 <? usub (millis (delay (since_last i) s))
                          (last_debug (delay (since_last i) s))
             then set_last_debug (millis (delay (since_last i) s))
                    (delay (since_last i) s)
             else delay (since_last i) s).
  assert (Hm : moves s0 = moves s) by (subst s0; split_match; reflexivity).
  assert (Hs : smm s0 = smm s) by (subst s0; split_match; reflexivity).
  assert (Hl : servo_log s0 = servo_log s) by (subst s0; split_match; reflexivity).
  assert (Hi0 : idle s0 = true) by (unfold idle; rewrite Hm; exact Hidle).
  rewrite (serial_command_like c s0 Hc Hi0). fields.
  unfold idle in Hidle. apply andb_prop in Hidle. destruct Hidle as (Hidle & Hd).
  apply andb_prop in Hidle. destruct Hidle as (Ha & Hb).
  apply negb_true_iff in Ha, Hb, Hd.
  rewrite Hm, Ha. eexists. split; [reflexivity|].
  unfold executeLike. unfold millis. fields. rewrite usub_self.
  cbn [like_step_delay Z.leb Z.compare]. fields.
  rewrite Hm, Hs, Hl, Ha, Hd, usub_self. auto 10.
Qed.

(** X7.  A Like command read at rest runs the whole gesture: over the
    next five iterations, none with serial input and each at least
    100 ms and less than 2^31 ms after the one before, the sketch writes
    Y=140 Z=120, Y=120, Y=140, Y=120, Y=140, ends the gesture, and
    leaves the potentiometers switched off and the model untouched. *)
Theorem like_on_command i0 c inputs (s : State) :
  idle s = true -> serial i0 = Some c -> c = "l"%char \/ c = "L"%char ->
  length inputs = 5%nat -> Forall (quiet_after 100) inputs ->
  exists s',
    run rnd P (i0 :: inputs) s = Some s' /\
    idle s' = true /\ knobs_disabled s' = true /\ like_step s' = 0 /\
    servo_log s' =
      servo_log s ++ [(myservo_y, 140); (myservo_z, 120); (myservo_y, 120);
                      (myservo_y, 140); (myservo_y, 120); (myservo_y, 140)] /\
    smm s' = smm s.
Proof.
  intros Hidle Hser Hc Hlen Hq.
  destruct inputs as [|i1 [|i2 [|i3 [|i4 [|i5 [|? ?]]]]]]; try discriminate.
  inversion Hq as [|? ? Q1 Hq1]; subst. inversion Hq1 as [|? ? Q2 Hq2]; subst.
  inversion Hq2 as [|? ? Q3 Hq3]; subst. inversion Hq3 as [|? ? Q4 Hq4]; subst.
  inversion Hq4 as [|? ? Q5 _]; subst.
  destruct (like_command_runs i0 c s Hser Hc Hidle)
    as (s0 & E0 & A0 & L0 & K0 & T0 & G0 & D0 & M0).
  destruct (like_step_runs i1 s0 0 Q1 A0 L0 K0) as
    (s1 & E1 & A1 & L1 & K1 & T1 & G1 & _ & D1 & M1); [lia | lia |].
  destruct (like_step_runs i2 s1 1 Q2 A1 L1 K1) as
    (s2 & E2 & A2 & L2 & K2 & T2 & G2 & _ & D2 & M2); [lia | lia |].
  destruct (like_step_runs i3 s2 2 Q3 A2 L2 K2) as
    (s3 & E3 & A3 & L3 & K3 & T3 & G3 & _ & D3 & M3); [lia | lia |].
  destruct (like_step_runs i4 s3 3 Q4 A3 L3 K3) as
    (s4 & E4 & A4 & L4 & K4 & T4 & G4 & _ & D4 & M4); [lia | lia |].
  destruct (like_last_step_runs i5 s4 Q5 A4 L4 K4 T4) as
    (s5 & E5 & A5 & L5 & K5 & N5 & G5 & D5 & M5).
  exists s5. cbn [run]. rewrite E0. cbn [bind]. rewrite E1. cbn [bind].
  rewrite E2. cbn [bind]. rewrite E3. cbn [bind]. rewrite E4. cbn [bind].
  rewrite E5. cbn [bind].
  split; [reflexivity|]. unfold idle.
  rewrite A5, L5, D5, D4, D3, D2, D1, D0.
  rewrite G5, G4, G3, G2, G1, G0. cbn [like_writes]. rewrite <- !app_assoc.
  cbn [app negb andb]. repeat split; try assumption; congruence.
Qed.

(* ------------------------------------------------------------------ *)
(** *** Dubious *)
(* ------------------------------------------------------------------ *)

Lemma serial_command_dubious c (s : State) :
  c = "d"%char \/ c = "D"%char -> idle s = true ->
  serial_command c s =
  set_last_step_time (millis s)
    (set_dubious_wait_time 0
       (set_dubious_step 0
          (set_knobs_disabled true (set_dubious_active true s)))).
Proof.
  intros [-> | ->] H; unfold serial_command;
    cbn [Ascii.eqb Bool.eqb orb andb]; fields; rewrite H; reflexivity.
Qed.

Lemma iteration_dubious i (s : State) k :
  serial i = None -> dubious_at k s ->
  iteration rnd P i s
    = Some (executeDubious rnd (poll_serial i (delay (since_last i) s))).
Proof.
  intros Hser (Hs & Hl & Hd & _). unfold iteration, loop.
  destruct (poll_serial_quiet i (delay (since_last i) s) Hser) as (Hm & _).
  rewrite Hm. fields. rewrite Hs, Hl, Hd. reflexivity.
Qed.

Lemma dubious_command_runs i c (s : State) :
  serial i = Some c -> c = "d"%char \/ c = "D"%char -> idle s = true ->
  exists s',
    iteration rnd P i s = Some s' /\
    dubious_at 0 s' /\ dubious_wait_time s' = 0 /\
    servo_log s' = servo_log s /\ rand_calls s' = rand_calls s /\
    smm s' = smm s.
Proof.
  intros Hser Hc Hidle. unfold iteration, loop, poll_serial. rewrite Hser.
  set (s0 := if 5000 <? usub (millis (delay (since_last i) s))
                          (last_debug (delay (since_last i) s))
             then set_last_debug (millis (delay (since_last i) s))
                    (delay (since_last i) s)
             else delay (since_last i) s).
  assert (Hm : moves s0 = moves s) by (subst s0; split_match; reflexivity).
  assert (Hs : smm s0 = smm s) by (subst s0; split_match; reflexivity).
  assert (Hl : servo_log s0 = servo_log s) by (subst s0; split_match; reflexivity).
  assert (Hr : rand_calls s0 = rand_calls s) by (subst s0; split_match; reflexivity).
  assert (Hi0 : idle s0 = true) by (unfold idle; rewrite Hm; exact Hidle).
  rewrite (serial_command_dubious c s0 Hc Hi0). fields.
  unfold idle in Hidle. apply andb_prop in Hidle. destruct Hidle as (Hidle & Hd).
  apply andb_prop in Hidle. destruct Hidle as (Ha & Hb).
  apply negb_true_iff in Ha, Hb, Hd.
  rewrite Hm, Ha, Hb. eexists. split; [reflexivity|].
  unfold executeDubious, dubious_at. unfold millis. fields. rewrite usub_self.
  cbn [dubious_step_delay Z.leb Z.compare]. fields.
  rewrite Hm, Hs, Hl, Hr, Ha, Hb, usub_self. auto 10.
Qed.

Ltac dubious_setup i s Hq Hat :=
  let Hg := fresh "Hg" in
  assert (Hg := gate_after i s 2000 _ Hq (proj2 (proj2 (proj2 (proj2 Hat)))));
  let Hser := fresh "Hser" in let Hdt := fresh "Hdt" in
  pose proof Hq as (Hser & Hdt);
  rewrite (iteration_dubious i s _ Hser Hat);
  let Hm := fresh "Hm" in let Hsm := fresh "Hsm" in let Hc := fresh "Hc" in
  destruct (poll_serial_quiet i (delay (since_last i) s) Hser) as (Hm & Hsm & Hc);
  let Hlog := fresh "Hlog" in
  pose proof (poll_serial_frame i (delay (since_last i) s)) as (_ & _ & _ & Hlog);
  let Hrc := fresh "Hrc" in
  assert (Hrc : rand_calls (poll_serial i (delay (since_last i) s)) = rand_calls s)
    by (unfold poll_serial; rewrite Hser; split_match; reflexivity);
  destruct Hat as (Ha & Hl & Hd & Hk & Hp).

Lemma dubious_write_step i (s : State) k :
  quiet_after 2000 i -> dubious_at k s ->
  k = 0 \/ k = 1 \/ k = 2 \/ k = 4 \/ k = 6 ->
  exists s',
    iteration rnd P i s = Some s' /\
    dubious_at (k + 1) s' /\
    dubious_wait_time s' = dubious_wait_time s /\
    servo_log s' = servo_log s ++ dubious_writes k /\
    rand_calls s' = rand_calls s /\
    knobs_disabled s' = knobs_disabled s /\ smm s' = smm s.
Proof.
  intros Hq Hat C. dubious_setup i s Hq Hat.
  set (s1 := poll_serial i (delay (since_last i) s)) in *.
  eexists. split; [reflexivity|].
  unfold executeDubious, dubious_next, dubious_at. unfold millis.
  replace (dubious_step_delay <=? usub (clock s1) (last_step_time s1)) with true
    by (symmetry; apply Z.leb_le; unfold dubious_step_delay; lia).
  rewrite Hm. fields. rewrite Hk.
  destruct C as [-> | [-> | [-> | [-> | ->]]]]; cbn [dubious_writes]; fields;
    rewrite ?Hm, ?Hsm, ?Hlog, ?Hrc; fields; rewrite <- ?app_assoc; cbn [app];
    rewrite ?usub_self; repeat split; try assumption; try reflexivity; lia.
Qed.

Lemma dubious_arm_step i (s : State) k :
  quiet_after 2000 i -> dubious_at k s -> k = 3 \/ k = 5 ->
  dubious_wait_time s = 0 ->
  exists s',
    iteration rnd P i s = Some s' /\
    dubious_at k s' /\
    dubious_wait_min <= dubious_wait_time s' <= dubious_wait_max /\
    servo_log s' = servo_log s /\
    rand_calls s' = S (rand_calls s) /\
    knobs_disabled s' = knobs_disabled s /\ smm s' = smm s.
Proof.
  intros Hq Hat C Hw. dubious_setup i s Hq Hat.
  set (s1 := poll_serial i (delay (since_last i) s)) in *.
  assert (Hrem : 0 <= Z.rem (Z.of_N (rnd (rand_calls s))) 1501 < 1501)
    by (apply Z.rem_bound_pos; lia).
  eexists. split; [reflexivity|].
  unfold executeDubious, dubious_wait, dubious_at, random. unfold millis.
  replace (dubious_step_delay <=? usub (clock s1) (last_step_time s1)) with true
    by (symmetry; apply Z.leb_le; unfold dubious_step_delay; lia).
  rewrite Hm. fields. rewrite Hk, Hw.
  unfold dubious_wait_min, dubious_wait_max.
  change (2000 + 1 <=? 500) with false. change (2000 + 1 - 500) with 1501.
  destruct C as [-> | ->]; cbn [Z.eqb]; fields;
    rewrite ?Hm, ?Hsm, ?Hlog, ?Hrc; fields;
    rewrite ?usub_self; unfold ulong, ULONG_MOD;
    rewrite Z.mod_small by lia; repeat split; try assumption; try lia.
Qed.

Lemma dubious_elapse_step i (s : State) k :
  quiet_after 2000 i -> dubious_at k s -> k = 3 \/ k = 5 ->
  dubious_wait_min <= dubious_wait_time s <= dubious_wait_max ->
  exists s',
    iteration rnd P i s = Some s' /\
    dubious_at (k + 1) s' /\
    dubious_wait_time s' = 0 /\
    servo_log s' = servo_log s /\
    rand_calls s' = rand_calls s /\
    knobs_disabled s' = knobs_disabled s /\ smm s' = smm s.
Proof.
  intros Hq Hat C Hw. dubious_setup i s Hq Hat.
  set (s1 := poll_serial i (delay (since_last i) s)) in *.
  unfold dubious_wait_min, dubious_wait_max in Hw.
  eexists. split; [reflexivity|].
  unfold executeDubious, dubious_wait, dubious_next, dubious_at. unfold millis.
  replace (dubious_step_delay <=? usub (clock s1) (last_step_time s1)) with true
    by (symmetry; apply Z.leb_le; unfold dubious_step_delay; lia).
  rewrite Hm. fields. rewrite Hk.
  replace (dubious_wait_time s =? 0) with false
    by (symmetry; apply Z.eqb_neq; lia).
  rewrite Hm in Hg.
  assert (Hle : (dubious_wait_time s <=? usub (clock s1) (last_step_time s))
                = true) by (apply Z.leb_le; lia).
  destruct C as [-> | ->]; fields; rewrite Hle; fields;
    rewrite ?Hm, ?Hsm, ?Hlog, ?Hrc; fields; rewrite ?usub_self;
    repeat split; try assumption; try reflexivity; lia.
Qed.

Lemma dubious_last_step i (s : State) :
  quiet_after 2000 i -> dubious_at 7 s ->
  exists s',
    iteration rnd P i s = Some s' /\
    idle s' = true /\ knobs_disabled s' = true /\ dubious_step s' = 0 /\
    dubious_wait_time s' = dubious_wait_time s /\
    servo_log s' = servo_log s ++ [(myservo_y, 145); (myservo_z, 122)] /\
    rand_calls s' = rand_calls s /\ smm s' = smm s.
Proof.
  intros Hq Hat. dubious_setup i s Hq Hat.
  set (s1 := poll_serial i (delay (since_last i) s)) in *.
  eexists. split; [reflexivity|].
  unfold executeDubious, idle. unfold millis.
  replace (dubious_step_delay <=? usub (clock s1) (last_step_time s1)) with true
    by (symmetry; apply Z.leb_le; unfold dubious_step_delay; lia).
  rewrite Hm. fields. rewrite Hk. fields.
  rewrite ?Hm, ?Hsm, ?Hlog, ?Hrc, ?Ha, ?Hl. fields.
  rewrite <- ?app_assoc. cbn [app]. auto 12.
Qed.

(** X8.  A Dubious command read at rest runs the whole gesture: over the
    next ten iterations, none with serial input and each at least
    2000 ms and less than 2^31 ms after the one before,
    the sketch writes its six positions with one random wait after the
    third and one after the fourth, reads the generator exactly twice,
    ends the gesture and leaves the potentiometers switched off. *)
Theorem dubious_on_command i0 c inputs (s : State) :
  idle s = true -> serial i0 = Some c -> c = "d"%char \/ c = "D"%char ->
  length inputs = 10%nat -> Forall (quiet_after 2000) inputs ->
  exists s',
    run rnd P (i0 :: inputs) s = Some s' /\
    idle s' = true /\ knobs_disabled s' = true /\
    dubious_step s' = 0 /\ dubious_wait_time s' = 0 /\
    rand_calls s' = S (S (rand_calls s)) /\
    servo_log s' =
      servo_log s ++ [(myservo_y, 145); (myservo_z, 122);
                      (myservo_y, 125); (myservo_z, 122);
                      (myservo_y, 122); (myservo_z, 106);
                      (myservo_y, 122); (myservo_z, 134);
                      (myservo_y, 122); (myservo_z, 106);
                      (myservo_y, 145); (myservo_z, 122)] /\
    smm s' = smm s.
Proof.
  intros Hidle Hser Hc Hlen Hq.
  destruct inputs as
    [|i1 [|i2 [|i3 [|i4 [|i5 [|i6 [|i7 [|i8 [|i9 [|i10 [|? ?]]]]]]]]]]];
    try discriminate.
  repeat match goal with
         | H : Forall _ (_ :: _) |- _ =>
             let Q := fresh "Hquiet" in let R := fresh "Hrest" in
             inversion H as [|? ? Q R]; subst; clear H
         end.
  destruct (dubious_command_runs i0 c s Hser Hc Hidle)
    as (s0 & E0 & A0 & W0 & G0 & R0 & M0).
  destruct (dubious_write_step i1 s0 0) as (s1 & E1 & A1 & W1 & G1 & R1 & _ & M1);
    [assumption | exact A0 | auto |].
  destruct (dubious_write_step i2 s1 1) as (s2 & E2 & A2 & W2 & G2 & R2 & _ & M2);
    [assumption | exact A1 | auto |].
  destruct (dubious_write_step i3 s2 2) as (s3 & E3 & A3 & W3 & G3 & R3 & _ & M3);
    [assumption | exact A2 | auto |].
  destruct (dubious_arm_step i4 s3 3) as (s4 & E4 & A4 & W4 & G4 & R4 & _ & M4);
    [assumption | exact A3 | auto | congruence |].
  destruct (dubious_elapse_step i5 s4 3) as (s5 & E5 & A5 & W5 & G5 & R5 & _ & M5);
    [assumption | exact A4 | auto | exact W4 |].
  destruct (dubious_write_step i6 s5 4) as (s6 & E6 & A6 & W6 & G6 & R6 & _ & M6);
    [assumption | exact A5 | auto 6 |].
  destruct (dubious_arm_step i7 s6 5) as (s7 & E7 & A7 & W7 & G7 & R7 & _ & M7);
    [assumption | exact A6 | auto | congruence |].
  destruct (dubious_elapse_step i8 s7 5) as (s8 & E8 & A8 & W8 & G8 & R8 & _ & M8);
    [assumption | exact A7 | auto | exact W7 |].
  destruct (dubious_write_step i9 s8 6) as (s9 & E9 & A9 & W9 & G9 & R9 & _ & M9);
    [assumption | exact A8 | auto 6 |].
  destruct (dubious_last_step i10 s9) as
    (s10 & E10 & A10 & K10 & N10 & W10 & G10 & R10 & M10);
    [assumption | exact A9 |].
  exists s10. cbn [run].
  rewrite E0; cbn [bind]. rewrite E1; cbn [bind]. rewrite E2; cbn [bind].
  rewrite E3; cbn [bind]. rewrite E4; cbn [bind]. rewrite E5; cbn [bind].
  rewrite E6; cbn [bind]. rewrite E7; cbn [bind]. rewrite E8; cbn [bind].
  rewrite E9; cbn [bind]. rewrite E10; cbn [bind].
  split; [reflexivity|].
  rewrite G10, G9, G8, G7, G6, G5, G4, G3, G2, G1, G0.
  cbn [dubious_writes]. rewrite <- !app_assoc. cbn [app].
  repeat split; try assumption; try congruence.
Qed.

(* ------------------------------------------------------------------ *)
(** *** Scroll *)
(* ------------------------------------------------------------------ *)

Lemma serial_command_scroll c (s : State) :
  c = "s"%char \/ c = "S"%char -> idle s = true ->
  serial_command c s =
  set_last_step_time (millis s)
    (set_scroll_step 0 (set_knobs_disabled true (set_scroll_active true s))).
Proof.
  intros [-> | ->] H; unfold serial_command;
    cbn [Ascii.eqb Bool.eqb orb andb]; fields; rewrite H; reflexivity.
Qed.

Lemma scroll_command_runs i c (s : State) :
  serial i = Some c -> c = "s"%char \/ c = "S"%char -> idle s = true ->
  step_in_progress s = false ->
  exists s',
    iteration rnd P i s = Some s' /\
    scroll_at 1 142 142 s' /\
    like_active s' = false /\ dubious_active s' = false /\
    knobs_disabled s' = true /\
    servo_log s' = servo_log s /\ smm s' = smm s.
Proof.
  intros Hser Hc Hidle Hp. unfold iteration, loop, poll_serial. rewrite Hser.
  set (s0 := if 5000 <? usub (millis (delay (since_last i) s))
                          (last_debug (delay (since_last i) s))
             then set_last_debug (millis (delay (since_last i) s))
                    (delay (since_last i) s)
             else delay (since_last i) s).
  assert (Hm : moves s0 = moves s) by (subst s0; split_match; reflexivity).
  assert (Hs : smm s0 = smm s) by (subst s0; split_match; reflexivity).
  assert (Ho : smooth s0 = smooth s) by (subst s0; split_match; reflexivity).
  assert (Hl : servo_log s0 = servo_log s) by (subst s0; split_match; reflexivity).
  assert (Hi0 : idle s0 = true) by (unfold idle; rewrite Hm; exact Hidle).
  rewrite (serial_command_scroll c s0 Hc Hi0). fields.
  unfold idle in Hidle. apply andb_prop in Hidle. destruct Hidle as (Hidle & Hd).
  apply andb_prop in Hidle. destruct Hidle as (Ha & Hb).
  apply negb_true_iff in Ha, Hb, Hd.
  unfold executeScroll, updateServoPositions. fields. rewrite Ho, Hp.
  cbn [negb bind]. fields. rewrite Ho, Hp. cbn [negb]. fields.
  unfold scroll_step_delays. cbn [aget Z.ltb Z.compare Z.to_nat nth_error bind].
  eexists. split; [reflexivity|].
  unfold scroll_at, scroll_next, smoothMoveServos. unfold millis. fields.
  rewrite Hm, Hs, Hl, Hb, Hd, usub_self. auto 12.
Qed.

Lemma iteration_scroll i (s : State) :
  serial i = None -> scroll_active s = true ->
  iteration rnd P i s
    = executeScroll (poll_serial i (delay (since_last i) s)).
Proof.
  intros Hser Hs. unfold iteration, loop.
  destruct (poll_serial_quiet i (delay (since_last i) s) Hser) as (Hm & _).
  rewrite Hm. fields. rewrite Hs. reflexivity.
Qed.

Lemma updateServoPositions_snap (s : State) d :
  step_in_progress s = true -> scroll_step s < 5 ->
  aget scroll_step_delays (scroll_step s) = Some d ->
  d <= usub (clock s) (step_start_time s) ->
  updateServoPositions s =
  Some (set_step_in_progress false
          (write myservo_z (target_z s)
             (write myservo_y (target_y s)
                (set_current_z (target_z s) (set_current_y (target_y s) s))))).
Proof.
  intros Hp Hk Hd Hle. unfold updateServoPositions. unfold millis.
  rewrite Hp, Hd. cbn [negb bind].
  replace (5 <=? scroll_step s) with false by (symmetry; apply Z.leb_gt; lia).
  replace (d <=? usub (clock s) (step_start_time s)) with true
    by (symmetry; apply Z.leb_le; lia).
  fields. reflexivity.
Qed.

(** The state in which a quiet iteration runs the gesture code. *)
Lemma scroll_arrives i (s : State) k ty tz :
  quiet_after 300 i -> scroll_at k ty tz s ->
  let s1 := poll_serial i (delay (since_last i) s) in
  iteration rnd P i s = executeScroll s1 /\
  (scroll_active s1 = true /\ scroll_step s1 = k /\
   step_in_progress s1 = true /\ target_y s1 = ty /\ target_z s1 = tz) /\
  usub (clock s1) (step_start_time s1) = since_last i /\
  moves s1 = moves s /\ smm s1 = smm s /\ servo_log s1 = servo_log s.
Proof.
  intros (Hser & Hdt) (Ha & Hk & Hp & Hty & Htz & Hu). cbv zeta.
  destruct (poll_serial_quiet i (delay (since_last i) s) Hser) as (Hm & Hsm & Hc).
  pose proof (poll_serial_frame i (delay (since_last i) s)) as (_ & Ho & _ & Hlog).
  set (s1 := poll_serial i (delay (since_last i) s)) in *.
  assert (Hm' : moves s1 = moves s) by (rewrite Hm; reflexivity).
  assert (Ho' : smooth s1 = smooth s) by (rewrite Ho; reflexivity).
  assert (Hsm' : smm s1 = smm s) by (rewrite Hsm; reflexivity).
  assert (Hlog' : servo_log s1 = servo_log s) by (rewrite Hlog; reflexivity).
  split; [apply (iteration_scroll i s Hser Ha)|].
  split.
  - rewrite Hm', Ho'. auto 7.
  - rewrite Hc, Ho'. fields. rewrite usub_uadd, Hu.
    split; [|auto].
    apply ulong_small. unfold ULONG_MOD.
    assert (2 ^ 31 < 2 ^ 32) by reflexivity. lia.
Qed.

Lemma scroll_move_step i (s : State) k ty tz :
  quiet_after 300 i -> scroll_at k ty tz s -> k = 1 \/ k = 2 \/ k = 3 ->
  exists s',
    iteration rnd P i s = Some s' /\
    scroll_at (k + 1) (fst (scroll_target k)) (snd (scroll_target k)) s' /\
    servo_log s' = servo_log s ++ [(myservo_y, ty); (myservo_z, tz)] /\
    like_active s' = like_active s /\ dubious_active s' = dubious_active s /\
    knobs_disabled s' = knobs_disabled s /\ smm s' = smm s.
Proof.
  intros Hq Hat C.
  destruct (scroll_arrives i s k ty tz Hq Hat) as (-> & Hat1 & Hg & Hm & Hsm & Hlog).
  destruct Hq as (_ & Hdt).
  set (s1 := poll_serial i (delay (since_last i) s)) in *.
  destruct Hat1 as (Ha & Hk & Hp & Hty & Htz).
  unfold executeScroll.
  assert (Hd : exists d, aget scroll_step_delays k = Some d /\ d <= 300)
    by (destruct C as [-> | [-> | ->]]; eexists; (split; [reflexivity|lia])).
  destruct Hd as (d & Hd & Hd300).
  rewrite (updateServoPositions_snap s1 d) by (rewrite ?Hk; (assumption || lia)).
  cbn [bind]. fields. rewrite Hk.
  destruct C as [-> | [-> | ->]];
    (replace (aget scroll_step_delays (scroll_step s1)) with (Some d)
       by (rewrite Hk; symmetry; exact Hd));
    cbn [bind]; (eexists; split; [reflexivity|]);
    unfold scroll_at, scroll_next, smoothMoveServos, scroll_target;
    unfold millis, write; fields;
    rewrite ?Hsm, ?Hlog, ?Hk, ?Hty, ?Htz, ?usub_self;
    rewrite <- ?app_assoc; cbn [app fst snd];
    repeat split; try assumption; try reflexivity; rewrite Hm; reflexivity.
Qed.

Lemma scroll_last_step i (s : State) ty tz :
  quiet_after 300 i -> scroll_at 4 ty tz s ->
  exists s',
    iteration rnd P i s = Some s' /\
    scroll_active s' = false /\ scroll_step s' = 0 /\
    step_in_progress s' = false /\
    current_y s' = ty /\ current_z s' = tz /\
    servo_log s' = servo_log s ++ [(myservo_y, ty); (myservo_z, tz)] /\
    like_active s' = like_active s /\ dubious_active s' = dubious_active s /\
    knobs_disabled s' = knobs_disabled s /\ smm s' = smm s.
Proof.
  intros Hq Hat.
  destruct (scroll_arrives i s 4 ty tz Hq Hat) as (-> & Hat1 & Hg & Hm & Hsm & Hlog).
  destruct Hq as (_ & Hdt).
  set (s1 := poll_serial i (delay (since_last i) s)) in *.
  destruct Hat1 as (Ha & Hk & Hp & Hty & Htz).
  unfold executeScroll.
  rewrite (updateServoPositions_snap s1 200)
    by (rewrite ?Hk; (assumption || reflexivity || lia)).
  cbn [bind]. fields. rewrite Hk.
  eexists; split; [reflexivity|]. unfold write. fields.
  rewrite ?Hsm, ?Hlog, ?Hty, ?Htz.
  rewrite <- ?app_assoc. cbn [app].
  repeat split; try reflexivity; rewrite Hm; reflexivity.
Qed.

(** X9. A Scroll command read while no gesture runs and no move is under
    way, followed by four iterations without serial input, each at least
    300 ms and less than 2^31 ms after the one before, runs the
    whole gesture: the servos are written the four targets in order, end on
    (147, 100), and the gesture is over, with the potentiometers still
    disabled. *)
Theorem scroll_on_command i0 c inputs (s : State) :
  idle s = true -> step_in_progress s = false ->
  serial i0 = Some c -> c = "s"%char \/ c = "S"%char ->
  length inputs = 4%nat -> Forall (quiet_after 300) inputs ->
  exists s',
    run rnd P (i0 :: inputs) s = Some s' /\
    idle s' = true /\ knobs_disabled s' = true /\
    scroll_step s' = 0 /\ step_in_progress s' = false /\
    current_y s' = 147 /\ current_z s' = 100 /\
    servo_log s' =
      servo_log s ++
        [(myservo_y, 142); (myservo_z, 142);
         (myservo_y, 110); (myservo_z, 142);
         (myservo_y, 90); (myservo_z, 100);
         (myservo_y, 147); (myservo_z, 100)] /\
    smm s' = smm s.
Proof.
  intros Hidle Hp Hser Hc Hlen Hall.
  destruct inputs as [|i1 [|i2 [|i3 [|i4 [|]]]]]; try discriminate Hlen.
  inversion Hall as [|? ? Q1 R1]; subst.
  inversion R1 as [|? ? Q2 R2]; subst.
  inversion R2 as [|? ? Q3 R3]; subst.
  inversion R3 as [|? ? Q4 _]; subst.
  destruct (scroll_command_runs i0 c s Hser Hc Hidle Hp)
    as (s0 & E0 & A0 & L0 & D0 & K0 & G0 & M0).
  destruct (scroll_move_step i1 s0 1 _ _ Q1 A0 (or_introl eq_refl))
    as (s1 & E1 & A1 & G1 & L1 & D1 & K1 & M1).
  destruct (scroll_move_step i2 s1 2 _ _ Q2 A1 (or_intror (or_introl eq_refl)))
    as (s2 & E2 & A2 & G2 & L2 & D2 & K2 & M2).
  destruct (scroll_move_step i3 s2 3 _ _ Q3 A2 (or_intror (or_intror eq_refl)))
    as (s3 & E3 & A3 & G3 & L3 & D3 & K3 & M3).
  destruct (scroll_last_step i4 s3 _ _ Q4 A3)
    as (s4 & E4 & A4 & S4 & P4 & Y4 & Z4 & G4 & L4 & D4 & K4 & M4).
  exists s4. split.
  - cbn [run]. rewrite E0. cbn [bind]. rewrite E1. cbn [bind].
    rewrite E2. cbn [bind]. rewrite E3. cbn [bind]. rewrite E4. reflexivity.
  - unfold idle. rewrite A4, L4, L3, L2, L1, L0, D4, D3, D2, D1, D0.
    rewrite K4, K3, K2, K1, K0, G4, G3, G2, G1, G0, M4, M3, M2, M1, M0.
    rewrite <- !app_assoc. cbn [app scroll_target fst snd].
    rewrite Y4, Z4. cbn [scroll_target fst snd]. auto 12.
Qed.

End Gestures.

(* ================================================================== *)
(** ** The potentiometers in charge *)
(* ================================================================== *)

Section Knobs.
Variable rnd : nat -> N.
Variable P : smm_parameters.

Lemma potentiometer_control_pots i (s : State) oy oz :
  aget (readings_y s) (read_index s) = Some oy ->
  aget (readings_z s) (read_index s) = Some oz ->
  exists s',
    potentiometer_control i s = Some s' /\
    readings_y s' = aset (readings_y s) (read_index s) (pot_y i) /\
    readings_z s' = aset (readings_z s) (read_index s) (pot_z i) /\
    total_y s' = total_y s - oy + pot_y i /\
    total_z s' = total_z s - oz + pot_z i /\
    read_index s' = next_index (read_index s) /\
    prev_angle_y s' = map_range (Z.quot (total_y s') num_readings) 0 1023 0 180 /\
    prev_angle_z s' = map_range (Z.quot (total_z s') num_readings) 0 1023 0 180 /\
    moves s' = moves s /\ smm s' = smm s /\
    servo_log s' =
      servo_log s
      ++ (if prev_angle_y s' =? prev_angle_y s then []
          else [(myservo_y, prev_angle_y s')])
      ++ (if prev_angle_z s' =? prev_angle_z s then []
          else [(myservo_z, prev_angle_z s')]).
Proof.
  intros Ey Ez. unfold potentiometer_control, next_index.
  rewrite Ey. cbn [bind]. fields. rewrite Ez. cbn [bind]. fields.
  eexists. split; [reflexivity|].
  destruct (num_readings <=? read_index s + 1); fields;
    destruct (map_range (Z.quot (total_y s - oy + pot_y i) num_readings)
                0 1023 0 180 =? prev_angle_y s) eqn:Hy; fields;
    destruct (map_range (Z.quot (total_z s - oz + pot_z i) num_readings)
                0 1023 0 180 =? prev_angle_z s) eqn:Hz;
    unfold delay, write; fields;
    rewrite ?Hy, ?Hz, ?app_nil_r, <- ?app_assoc; cbn [app];
    try (apply Z.eqb_eq in Hy; rewrite <- Hy);
    try (apply Z.eqb_eq in Hz; rewrite <- Hz);
    rewrite ?Z.eqb_refl, ?Hy, ?Hz, ?app_nil_r;
    repeat split; reflexivity.
Qed.

(** With the potentiometers in charge and the serial line quiet, an
    iteration is one reading of the potentiometers. *)
Lemma iteration_knobs i (s : State) :
  serial i = None -> knob_mode s ->
  exists s1,
    iteration rnd P i s = potentiometer_control i s1 /\
    pots s1 = pots s /\ moves s1 = moves s /\ smm s1 = smm s /\
    servo_log s1 = servo_log s.
Proof.
  intros Hser (Hidle & Hk). unfold iteration, loop.
  destruct (poll_serial_quiet i (delay (since_last i) s) Hser) as (Hm & Hsm & _).
  pose proof (poll_serial_frame i (delay (since_last i) s)) as (Hp & _ & _ & Hlog).
  set (s1 := poll_serial i (delay (since_last i) s)) in *.
  assert (Hm' : moves s1 = moves s) by (rewrite Hm; reflexivity).
  exists s1.
  unfold idle in Hidle. apply andb_prop in Hidle. destruct Hidle as (Hidle & Hd).
  apply andb_prop in Hidle. destruct Hidle as (Ha & Hb).
  apply negb_true_iff in Ha, Hb, Hd.
  rewrite Hm', Ha, Hb, Hd, Hk. cbn [negb].
  split; [|repeat split; assumption].
  destruct (potentiometer_control i s1) as [s2|] eqn:E; cbn [bind]; [|reflexivity].
  apply potentiometer_control_frame in E. destruct E as (E & _).
  unfold smm_guard. rewrite E, Hm', Hk, !andb_false_r. reflexivity.
Qed.

Lemma knob_step i (s : State) oy oz :
  serial i = None -> knob_mode s ->
  aget (readings_y s) (read_index s) = Some oy ->
  aget (readings_z s) (read_index s) = Some oz ->
  exists s',
    iteration rnd P i s = Some s' /\ knob_mode s' /\
    readings_y s' = aset (readings_y s) (read_index s) (pot_y i) /\
    readings_z s' = aset (readings_z s) (read_index s) (pot_z i) /\
    total_y s' = total_y s - oy + pot_y i /\
    total_z s' = total_z s - oz + pot_z i /\
    read_index s' = next_index (read_index s) /\
    prev_angle_y s' = map_range (Z.quot (total_y s') num_readings) 0 1023 0 180 /\
    prev_angle_z s' = map_range (Z.quot (total_z s') num_readings) 0 1023 0 180 /\
    servo_log s' =
      servo_log s
      ++ (if prev_angle_y s' =? prev_angle_y s then []
          else [(myservo_y, prev_angle_y s')])
      ++ (if prev_angle_z s' =? prev_angle_z s then []
          else [(myservo_z, prev_angle_z s')]).
Proof.
  intros Hser Hk Ey Ez.
  destruct (iteration_knobs i s Hser Hk) as (s1 & -> & Hp & Hm & Hsm & Hlog).
  destruct (potentiometer_control_pots i s1 oy oz)
    as (s' & E & Ry & Rz & Ty & Tz & Hi & Py & Pz & Fm & Fs & Fl);
    [rewrite Hp; exact Ey | rewrite Hp; exact Ez |].
  exists s'. split; [exact E|].
  rewrite Hp in Ry, Rz, Ty, Tz, Hi, Fl. rewrite Hlog in Fl.
  split; [|repeat split; assumption].
  destruct Hk as (Hidle & Hk). unfold knob_mode, idle. rewrite Fm, Hm. auto.
Qed.

Lemma settled_step y z i (s : State) :
  steady y z i -> knob_mode s -> settled y z s ->
  exists s',
    iteration rnd P i s = Some s' /\ knob_mode s' /\ settled y z s' /\
    servo_log s' = servo_log s.
Proof.
  intros (Hser & Hy & Hz) Hk (Ry & Rz & Ty & Tz & Py & Pz & Hi).
  assert (C : read_index s = 0 \/ read_index s = 1 \/ read_index s = 2 \/
              read_index s = 3 \/ read_index s = 4) by lia.
  destruct (knob_step i s y z Hser Hk)
    as (s' & E & Hk' & Ry' & Rz' & Ty' & Tz' & Hi' & Py' & Pz' & Hl).
  { rewrite Ry. destruct C as [-> | [-> | [-> | [-> | ->]]]]; reflexivity. }
  { rewrite Rz. destruct C as [-> | [-> | [-> | [-> | ->]]]]; reflexivity. }
  exists s'. split; [exact E|]. split; [exact Hk'|].
  assert (Ty2 : total_y s' = y * 5) by lia.
  assert (Tz2 : total_z s' = z * 5) by lia.
  rewrite Ty2 in Py'. rewrite Tz2 in Pz'. unfold num_readings in Py', Pz'.
  rewrite Z.quot_mul in Py', Pz' by lia.
  split.
  - unfold settled. rewrite Ry', Rz', Hi', Ry, Rz, Hy, Hz.
    repeat split; try assumption;
      destruct C as [-> | [-> | [-> | [-> | ->]]]];
      (reflexivity || (cbv; congruence)).
  - rewrite Hl, Py', Pz', Py, Pz, !Z.eqb_refl. cbn [app]. apply app_nil_r.
Qed.

Lemma settled_run y z inputs : forall s : State,
  Forall (steady y z) inputs -> knob_mode s -> settled y z s ->
  exists s',
    run rnd P inputs s = Some s' /\ knob_mode s' /\ settled y z s' /\
    servo_log s' = servo_log s.
Proof.
  induction inputs as [|i rest IH]; intros s Hall Hk Hs.
  - exists s. cbn [run]. auto.
  - inversion Hall as [|? ? Hi Hrest]; subst.
    destruct (settled_step y z i s Hi Hk Hs) as (s1 & E1 & Hk1 & Hs1 & Hl1).
    destruct (IH s1 Hrest Hk1 Hs1) as (s' & E' & Hk' & Hs' & Hl').
    exists s'. cbn [run]. rewrite E1. cbn [bind].
    rewrite Hl', Hl1. auto.
Qed.

Lemma setup_settled y z : settled y z (setup y z boot) /\ knob_mode (setup y z boot).
Proof.
  unfold settled, knob_mode, idle, setup, boot, num_readings. fields.
  change (Z.to_nat 5) with 5%nat. repeat split; reflexivity || lia.
Qed.

(** X10. While the serial line stays quiet and the potentiometers stay
    where [setup] read them, the sketch never moves a servo: the log holds
    the two writes of [setup] and nothing else. *)
Theorem no_initial_movement y0 z0 inputs :
  Forall (steady y0 z0) inputs ->
  exists s',
    run rnd P inputs (setup y0 z0 boot) = Some s' /\
    servo_log s' = [(myservo_y, 180); (myservo_z, 0)].
Proof.
  intros Hall. destruct (setup_settled y0 z0) as (Hs & Hk).
  destruct (settled_run y0 z0 inputs _ Hall Hk Hs) as (s' & E & _ & _ & Hl).
  exists s'. split; [exact E|]. rewrite Hl. reflexivity.
Qed.

Lemma settle_five y z i1 i2 i3 i4 i5 (s : State) :
  pots_consistent s -> knob_mode s ->
  Forall (steady y z) [i1; i2; i3; i4; i5] ->
  exists s',
    run rnd P [i1; i2; i3; i4; i5] s = Some s' /\
    knob_mode s' /\ settled y z s'.
Proof.
  intros (Ly & Lz & Hi & Ty & Tz) Hk Hall.
  destruct (readings_y s) as [|a0 [|a1 [|a2 [|a3 [|a4 [|]]]]]] eqn:Ry;
    try discriminate Ly.
  destruct (readings_z s) as [|b0 [|b1 [|b2 [|b3 [|b4 [|]]]]]] eqn:Rz;
    try discriminate Lz.
  cbn [sumZ fold_right] in Ty, Tz.
  apply Forall_cons_iff in Hall. destruct Hall as ((S1 & Y1 & Z1) & Hall).
  apply Forall_cons_iff in Hall. destruct Hall as ((S2 & Y2 & Z2) & Hall).
  apply Forall_cons_iff in Hall. destruct Hall as ((S3 & Y3 & Z3) & Hall).
  apply Forall_cons_iff in Hall. destruct Hall as ((S4 & Y4 & Z4) & Hall).
  apply Forall_cons_iff in Hall. destruct Hall as ((S5 & Y5 & Z5) & _).
  assert (C : read_index s = 0 \/ read_index s = 1 \/ read_index s = 2 \/
              read_index s = 3 \/ read_index s = 4) by lia.
  assert (A : exists oy oz,
            aget (readings_y s) (read_index s) = Some oy /\
            aget (readings_z s) (read_index s) = Some oz).
  { rewrite Ry, Rz.
    destruct C as [-> | [-> | [-> | [-> | ->]]]]; eexists; eexists; split; reflexivity. }
  destruct A as (oy1 & oz1 & Ey1 & Ez1).
  destruct (knob_step i1 s oy1 oz1 S1 Hk Ey1 Ez1)
    as (s1 & E1 & Hk1 & Ry1 & Rz1 & Ty1 & Tz1 & Hi1 & _).
  rewrite Y1 in Ry1, Ty1. rewrite Z1 in Rz1, Tz1.
  assert (A : exists oy oz,
            aget (readings_y s1) (read_index s1) = Some oy /\
            aget (readings_z s1) (read_index s1) = Some oz).
  { rewrite Ry1, Rz1, Hi1, Ry, Rz.
    destruct C as [-> | [-> | [-> | [-> | ->]]]]; eexists; eexists; split; reflexivity. }
  destruct A as (oy2 & oz2 & Ey2 & Ez2).
  destruct (knob_step i2 s1 oy2 oz2 S2 Hk1 Ey2 Ez2)
    as (s2 & E2 & Hk2 & Ry2 & Rz2 & Ty2 & Tz2 & Hi2 & _).
  rewrite Y2 in Ry2, Ty2. rewrite Z2 in Rz2, Tz2.
  assert (A : exists oy oz,
            aget (readings_y s2) (read_index s2) = Some oy /\
            aget (readings_z s2) (read_index s2) = Some oz).
  { rewrite Ry2, Rz2, Hi2, Ry1, Rz1, Hi1, Ry, Rz.
    destruct C as [-> | [-> | [-> | [-> | ->]]]]; eexists; eexists; split; reflexivity. }
  destruct A as (oy3 & oz3 & Ey3 & Ez3).
  destruct (knob_step i3 s2 oy3 oz3 S3 Hk2 Ey3 Ez3)
    as (s3 & E3 & Hk3 & Ry3 & Rz3 & Ty3 & Tz3 & Hi3 & _).
  rewrite Y3 in Ry3, Ty3. rewrite Z3 in Rz3, Tz3.
  assert (A : exists oy oz,
            aget (readings_y s3) (read_index s3) = Some oy /\
            aget (readings_z s3) (read_index s3) = Some oz).
  { rewrite Ry3, Rz3, Hi3, Ry2, Rz2, Hi2, Ry1, Rz1, Hi1, Ry, Rz.
    destruct C as [-> | [-> | [-> | [-> | ->]]]]; eexists; eexists; split; reflexivity. }
  destruct A as (oy4 & oz4 & Ey4 & Ez4).
  destruct (knob_step i4 s3 oy4 oz4 S4 Hk3 Ey4 Ez4)
    as (s4 & E4 & Hk4 & Ry4 & Rz4 & Ty4 & Tz4 & Hi4 & _).
  rewrite Y4 in Ry4, Ty4. rewrite Z4 in Rz4, Tz4.
  assert (A : exists oy oz,
            aget (readings_y s4) (read_index s4) = Some oy /\
            aget (readings_z s4) (read_index s4) = Some oz).
  { rewrite Ry4, Rz4, Hi4, Ry3, Rz3, Hi3, Ry2, Rz2, Hi2, Ry1, Rz1, Hi1, Ry, Rz.
    destruct C as [-> | [-> | [-> | [-> | ->]]]]; eexists; eexists; split; reflexivity. }
  destruct A as (oy5 & oz5 & Ey5 & Ez5).
  destruct (knob_step i5 s4 oy5 oz5 S5 Hk4 Ey5 Ez5)
    as (s5 & E5 & Hk5 & Ry5 & Rz5 & Ty5 & Tz5 & Hi5 & Py5 & Pz5 & _).
  rewrite Y5 in Ry5, Ty5. rewrite Z5 in Rz5, Tz5.
  exists s5. split.
  { cbn [run]. rewrite E1. cbn [bind]. rewrite E2. cbn [bind].
    rewrite E3. cbn [bind]. rewrite E4. cbn [bind]. rewrite E5. reflexivity. }
  split; [exact Hk5|].
  assert (Q : readings_y s5 = repeat y 5 /\ readings_z s5 = repeat z 5 /\
              oy1 + oy2 + oy3 + oy4 + oy5 = a0 + a1 + a2 + a3 + a4 /\
              oz1 + oz2 + oz3 + oz4 + oz5 = b0 + b1 + b2 + b3 + b4 /\
              0 <= read_index s5 < 5).
  { rewrite Ry5, Rz5, Hi5.
    revert Ey1 Ez1 Ey2 Ez2 Ey3 Ez3 Ey4 Ez4 Ey5 Ez5.
    rewrite ?Ry4, ?Rz4, ?Hi4, ?Ry3, ?Rz3, ?Hi3, ?Ry2, ?Rz2, ?Hi2,
      ?Ry1, ?Rz1, ?Hi1, ?Ry, ?Rz.
    destruct C as [C | [C | [C | [C | C]]]]; rewrite C;
      cbn [aget aset lset next_index num_readings Z.ltb Z.leb Z.compare
           Pos.compare Pos.compare_cont Z.add Pos.add Pos.succ
           Z.to_nat Pos.to_nat Pos.iter_op Nat.add nth_error repeat];
      intros Ey1 Ez1 Ey2 Ez2 Ey3 Ez3 Ey4 Ez4 Ey5 Ez5;
      injection Ey1 as <-; injection Ey2 as <-; injection Ey3 as <-;
      injection Ey4 as <-; injection Ey5 as <-;
      injection Ez1 as <-; injection Ez2 as <-; injection Ez3 as <-;
      injection Ez4 as <-; injection Ez5 as <-;
      repeat split; try reflexivity; lia. }
  destruct Q as (Q1 & Q2 & Q3 & Q4 & Q5).
  assert (Q6 : total_y s5 = y * 5) by lia.
  assert (Q7 : total_z s5 = z * 5) by lia.
  unfold settled. rewrite Py5, Pz5, Q6, Q7. unfold num_readings.
  rewrite !Z.quot_mul by lia. auto 8.
Qed.
(** X11. With the potentiometers in charge and held at [y] and [z], five
    readings fill both moving-average windows: the averages are [y] and
    [z], the angles last sent are their images under [map], and however
    many more such iterations follow, no servo is written again. *)
Theorem filter_settles y z first rest (s : State) :
  pots_consistent s -> knob_mode s ->
  length first = 5%nat -> Forall (steady y z) (first ++ rest) ->
  exists s1 s2,
    run rnd P first s = Some s1 /\ settled y z s1 /\
    run rnd P rest s1 = Some s2 /\ settled y z s2 /\
    servo_log s2 = servo_log s1.
Proof.
  intros Hp Hk Hlen Hall. apply Forall_app in Hall. destruct Hall as (H1 & H2).
  destruct first as [|i1 [|i2 [|i3 [|i4 [|i5 [|]]]]]]; try discriminate Hlen.
  destruct (settle_five y z i1 i2 i3 i4 i5 s Hp Hk H1) as (s1 & E1 & Hk1 & Hs1).
  destruct (settled_run y z rest s1 H2 Hk1 Hs1) as (s2 & E2 & _ & Hs2 & Hl).
  exists s1, s2. auto.
Qed.

Lemma serial_command_reset c (s : State) :
  c = "r"%char \/ c = "R"%char ->
  serial_command c s =
  set_dubious_active false
    (set_like_active false
       (set_scroll_active false
          (set_smm_mode_active false (set_knobs_disabled false s)))).
Proof.
  intros [-> | ->]; unfold serial_command;
    cbn [Ascii.eqb Bool.eqb orb andb]; reflexivity.
Qed.

(** X12. The reset command takes effect whatever the sketch is doing: in
    the same iteration every gesture is off, the model is off and the
    potentiometers are read again.  The step counters, a move in
    progress, and the model's pending dwell and statistics are left as
    they were. *)
Theorem reset_hands_over i c (s : State) :
  pots_consistent s -> serial i = Some c -> c = "r"%char \/ c = "R"%char ->
  exists s',
    iteration rnd P i s = Some s' /\
    idle s' = true /\ knobs_disabled s' = false /\
    smm_mode_active s' = false /\
    read_index s' = next_index (read_index s) /\
    (scroll_step s' = scroll_step s /\ like_step s' = like_step s /\
     dubious_step s' = dubious_step s) /\
    step_in_progress s' = step_in_progress s /\
    smm_cycle s' = smm_cycle s.
Proof.
  intros (Ly & Lz & Hi & _) Hser Hc. unfold iteration, loop, poll_serial.
  rewrite Hser.
  set (s0 := if 5000 <? usub (millis (delay (since_last i) s))
                          (last_debug (delay (since_last i) s))
             then set_last_debug (millis (delay (since_last i) s))
                    (delay (since_last i) s)
             else delay (since_last i) s).
  assert (Hm : moves s0 = moves s) by (subst s0; split_match; reflexivity).
  assert (Hs : smm s0 = smm s) by (subst s0; split_match; reflexivity).
  assert (Ho : smooth s0 = smooth s) by (subst s0; split_match; reflexivity).
  assert (Hp : pots s0 = pots s) by (subst s0; split_match; reflexivity).
  rewrite (serial_command_reset c s0 Hc). fields.
  set (s1 := set_dubious_active false
               (set_like_active false
                  (set_scroll_active false
                     (set_smm_mode_active false
                        (set_knobs_disabled false s0))))).
  destruct (aget_in_range (readings_y s) (read_index s)) as (oy & Ey);
    [rewrite Ly; lia|].
  destruct (aget_in_range (readings_z s) (read_index s)) as (oz & Ez);
    [rewrite Lz; lia|].
  destruct (potentiometer_control_pots i s1 oy oz)
    as (s' & E & _ & _ & _ & _ & Hi' & _ & _ & Fm & Fs & _).
  { subst s1. fields. rewrite Hp. exact Ey. }
  { subst s1. fields. rewrite Hp. exact Ez. }
  pose proof (potentiometer_control_frame i s1 s' E) as (_ & _ & Fo).
  rewrite E. cbn [negb bind]. unfold smm_guard. rewrite Fs.
  subst s1. revert Hi' Fm Fs Fo. fields. intros Hi' Fm Fs Fo.
  exists s'. split; [reflexivity|].
  unfold idle, smm_cycle. rewrite Fm, Fs, Fo. fields.
  rewrite Hi', Hp, Hm, Hs, Ho. auto 12.
Qed.

End Knobs.

(* ================================================================== *)
(** ** These properties at concrete states *)
(* ================================================================== *)

(** Closed facts about orders and equalities, by evaluation. *)
Ltac settle :=
  vm_compute; repeat match goal with |- _ /\ _ => split end;
  first [reflexivity | discriminate].

Lemma example_params_ok : params_ok Example.parameters.
Proof.
  unfold params_ok, Example.parameters.
  cbn [DWELL_RATE_BY_STATE MEAN_DWELL_BY_STATE CUM_PROB_SCROLL_BY_STATE
       CUM_PROB_LIKE_BY_STATE length].
  repeat match goal with |- _ /\ _ => split end; try reflexivity.
  repeat first [apply Forall_nil | apply Forall_cons]; vm_compute; reflexivity.
Qed.

Lemma loop_never_undefined_witness :
  exists s',
    iteration Example.rnd Example.parameters (Example.quiet 10)
      (Trace.after Trace.model_fires) = Some s'.
Proof.
  apply (loop_never_undefined Example.rnd Example.parameters).
  - exact example_params_ok.
  - apply (run_reachable Example.rnd Example.parameters Trace.model_fires
             Example.start).
    + apply reach_setup.
    + vm_compute; reflexivity.
Defined.

Lemma servo_writes_in_range_witness :
  Forall (fun w : servo_write => 0 <= snd w <= 180)
    (servo_log (Trace.after Trace.like_gesture)).
Proof.
  apply (servo_writes_in_range Example.rnd Example.parameters 512 512
           Trace.like_gesture).
  - settle.
  - settle.
  - unfold Trace.like_gesture. cbn [repeat].
    repeat first [apply Forall_nil | apply Forall_cons];
      unfold input_in_range, analog; settle.
  - vm_compute; reflexivity.
Defined.

Lemma position_stays_between_witness :
  let s := Trace.after Tour.scroll_under_way in
  (0 <= start_y s <= 180 /\ 0 <= start_z s <= 180) /\
  (0 <= target_y s <= 180 /\ 0 <= target_z s <= 180) /\
  (0 <= current_y s <= 180 /\ 0 <= current_z s <= 180) /\
  Z.min (start_y s) (target_y s) <= current_y s
    <= Z.max (start_y s) (target_y s) /\
  Z.min (start_z s) (target_z s) <= current_z s
    <= Z.max (start_z s) (target_z s).
Proof.
  cbv zeta.
  apply (position_stays_between Example.rnd Example.parameters).
  apply (run_reachable Example.rnd Example.parameters Tour.scroll_under_way
           Example.start).
  - apply reach_setup.
  - vm_compute; reflexivity.
Defined.

Lemma interpolation_progress_witness :
  let s := Tour.scroll_mid in
  let s1 := Tour.tick s in
  let s2 := Tour.tick (delay 50 s1) in
  Z.abs (target_y s - current_y s2) <= Z.abs (target_y s - current_y s1) /\
  Z.abs (target_z s - current_z s2) <= Z.abs (target_z s - current_z s1).
Proof.
  cbv zeta.
  apply (interpolation_progress 50 Tour.scroll_mid (Tour.tick Tour.scroll_mid)
           (Tour.tick (delay 50 (Tour.tick Tour.scroll_mid)))).
  - unfold positions_in_range, servo_angle. settle.
  - settle.
  - vm_compute; reflexivity.
  - vm_compute; reflexivity.
  - vm_compute; reflexivity.
  - vm_compute; discriminate.
  - vm_compute; reflexivity.
Defined.

Lemma moving_sum_consistent_witness :
  let s := Trace.after [Tour.turned 20; Tour.turned 20] in
  length (readings_y s) = 5%nat /\ length (readings_z s) = 5%nat /\
  0 <= read_index s < 5 /\
  total_y s = sumZ (readings_y s) /\ total_z s = sumZ (readings_z s).
Proof.
  cbv zeta.
  apply (moving_sum_consistent Example.rnd Example.parameters).
  apply (run_reachable Example.rnd Example.parameters
           [Tour.turned 20; Tour.turned 20] Example.start).
  - apply reach_setup.
  - vm_compute; reflexivity.
Defined.

Lemma statistics_consistent_witness :
  let s := Trace.after Trace.model_fires in
  length (state_transitions s) = 3%nat /\
  length (total_dwell_by_state s) = 3%nat /\
  0 <= current_state s < 3 /\
  event_counter s = ulong (sumZ (state_transitions s)).
Proof.
  cbv zeta.
  apply (statistics_consistent Example.rnd Example.parameters).
  apply (run_reachable Example.rnd Example.parameters Trace.model_fires
           Example.start).
  - apply reach_setup.
  - vm_compute; reflexivity.
Defined.

Lemma like_on_command_witness :
  exists s',
    run Example.rnd Example.parameters
      (Example.command 10 "l" :: repeat (Example.quiet 100) 5) Example.start
      = Some s' /\
    idle s' = true /\ knobs_disabled s' = true /\ like_step s' = 0 /\
    servo_log s' =
      servo_log Example.start ++
        [(myservo_y, 140); (myservo_z, 120); (myservo_y, 120);
         (myservo_y, 140); (myservo_y, 120); (myservo_y, 140)] /\
    smm s' = smm Example.start.
Proof.
  apply (like_on_command Example.rnd Example.parameters
           (Example.command 10 "l") "l" (repeat (Example.quiet 100) 5)
           Example.start).
  - vm_compute; reflexivity.
  - reflexivity.
  - left; reflexivity.
  - reflexivity.
  - cbn [repeat].
    repeat first [apply Forall_nil | apply Forall_cons];
      unfold quiet_after; settle.
Defined.

Lemma dubious_on_command_witness :
  exists s',
    run Example.rnd Example.parameters
      (Example.command 10 "d" :: repeat (Example.quiet 2000) 10) Example.start
      = Some s' /\
    idle s' = true /\ knobs_disabled s' = true /\
    dubious_step s' = 0 /\ dubious_wait_time s' = 0 /\
    rand_calls s' = S (S (rand_calls Example.start)) /\
    servo_log s' =
      servo_log Example.start ++
        [(myservo_y, 145); (myservo_z, 122);
         (myservo_y, 125); (myservo_z, 122);
         (myservo_y, 122); (myservo_z, 106);
         (myservo_y, 122); (myservo_z, 134);
         (myservo_y, 122); (myservo_z, 106);
         (myservo_y, 145); (myservo_z, 122)] /\
    smm s' = smm Example.start.
Proof.
  apply (dubious_on_command Example.rnd Example.parameters
           (Example.command 10 "d") "d" (repeat (Example.quiet 2000) 10)
           Example.start).
  - vm_compute; reflexivity.
  - reflexivity.
  - left; reflexivity.
  - reflexivity.
  - cbn [repeat].
    repeat first [apply Forall_nil | apply Forall_cons];
      unfold quiet_after; settle.
Defined.

Lemma scroll_on_command_witness :
  exists s',
    run Example.rnd Example.parameters
      (Example.command 10 "s" :: repeat (Example.quiet 300) 4) Example.start
      = Some s' /\
    idle s' = true /\ knobs_disabled s' = true /\
    scroll_step s' = 0 /\ step_in_progress s' = false /\
    current_y s' = 147 /\ current_z s' = 100 /\
    servo_log s' =
      servo_log Example.start ++
        [(myservo_y, 142); (myservo_z, 142);
         (myservo_y, 110); (myservo_z, 142);
         (myservo_y, 90); (myservo_z, 100);
         (myservo_y, 147); (myservo_z, 100)] /\
    smm s' = smm Example.start.
Proof.
  apply (scroll_on_command Example.rnd Example.parameters
           (Example.command 10 "s") "s" (repeat (Example.quiet 300) 4)
           Example.start).
  - vm_compute; reflexivity.
  - vm_compute; reflexivity.
  - reflexivity.
  - left; reflexivity.
  - reflexivity.
  - cbn [repeat].
    repeat first [apply Forall_nil | apply Forall_cons];
      unfold quiet_after; settle.
Defined.

Lemma no_initial_movement_witness :
  exists s',
    run Example.rnd Example.parameters
      [Example.quiet 10; Example.quiet 20; Example.quiet 30]
      (setup 512 512 boot) = Some s' /\
    servo_log s' = [(myservo_y, 180); (myservo_z, 0)].
Proof.
  apply (no_initial_movement Example.rnd Example.parameters 512 512
           [Example.quiet 10; Example.quiet 20; Example.quiet 30]).
  repeat first [apply Forall_nil | apply Forall_cons]; unfold steady; settle.
Defined.

Lemma filter_settles_witness :
  exists s1 s2,
    run Example.rnd Example.parameters (repeat (Tour.turned 20) 5)
      Example.start = Some s1 /\
    settled 700 300 s1 /\
    run Example.rnd Example.parameters [Tour.turned 20; Tour.turned 20] s1
      = Some s2 /\
    settled 700 300 s2 /\
    servo_log s2 = servo_log s1.
Proof.
  apply (filter_settles Example.rnd Example.parameters 700 300
           (repeat (Tour.turned 20) 5) [Tour.turned 20; Tour.turned 20]
           Example.start).
  - unfold pots_consistent. settle.
  - unfold knob_mode. settle.
  - reflexivity.
  - cbn [repeat app].
    repeat first [apply Forall_nil | apply Forall_cons]; unfold steady; settle.
Defined.

Lemma reset_hands_over_witness :
  let s := Trace.after Tour.scroll_under_way in
  exists s',
    iteration Example.rnd Example.parameters (Example.command 10 "r") s
      = Some s' /\
    idle s' = true /\ knobs_disabled s' = false /\
    smm_mode_active s' = false /\
    read_index s' = next_index (read_index s) /\
    (scroll_step s' = scroll_step s /\ like_step s' = like_step s /\
     dubious_step s' = dubious_step s) /\
    step_in_progress s' = step_in_progress s /\
    smm_cycle s' = smm_cycle s.
Proof.
  cbv zeta.
  apply (reset_hands_over Example.rnd Example.parameters
           (Example.command 10 "r") "r" (Trace.after Tour.scroll_under_way)).
  - unfold pots_consistent. settle.
  - reflexivity.
  - left; reflexivity.
Defined.
